(** * calgo: OAuth2 token handling, callback listener, time resolver and
    event submission, embedded from the Go sources.

    Go strings are byte strings; they are embedded as [string] (a list of
    8-bit [ascii]).  Go's [int], [int64] and [time.Duration] are 64-bit
    two's-complement integers; they are embedded as [Z] with the wrap-around
    written out ([wrap64]).  Calls into third-party packages (time zone
    database, flexible date parser, HTTP transport, token endpoint) are
    fields of an environment record that every function takes explicitly. *)

From Stdlib Require Import ZArith Bool List Ascii String Lia DecimalString.
From stdpp Require Import base option gmap strings list.

Local Open Scope string_scope.
Local Open Scope Z_scope.

(** ** Go runtime: integers *)

Module GoInt.

Definition minInt64 : Z := - 2 ^ 63.
Definition maxInt64 : Z := 2 ^ 63 - 1.

(** Two's-complement reduction of an exact result to 64 bits. *)
Definition wrap64 (z : Z) : Z := (z + 2 ^ 63) mod 2 ^ 64 - 2 ^ 63.

Definition inInt64 (z : Z) : bool := (minInt64 <=? z) && (z <=? maxInt64).

Definition mul64 (a b : Z) : Z := wrap64 (a * b).
Definition add64 (a b : Z) : Z := wrap64 (a + b).

(** [%d] of an integer. *)
Definition itoa (z : Z) : string := NilZero.string_of_int (Z.to_int z).

End GoInt.

(** ** Go runtime: package strings and strconv *)

Module GoStrings.
Import GoInt.

Definition byte_of (c : ascii) : Z := Z.of_N (N_of_ascii c).

Definition isDigit (c : ascii) : bool :=
  (48 <=? byte_of c) && (byte_of c <=? 57).

Definition digitVal (c : ascii) : Z := byte_of c - 48.

(** [asciiSpace] of package strings: tab, newline, vertical tab, form
    feed, carriage return, space. *)
Definition asciiSpace (c : ascii) : bool :=
  let b := byte_of c in
  (b =? 9) || (b =? 10) || (b =? 11) || (b =? 12) || (b =? 13) || (b =? 32).

(** [\s] of package regexp (RE2): tab, newline, form feed, carriage
    return, space; the vertical tab is not in the class. *)
Definition reSpace (c : ascii) : bool :=
  let b := byte_of c in
  (b =? 9) || (b =? 10) || (b =? 12) || (b =? 13) || (b =? 32).

(** A byte below [utf8.RuneSelf]. *)
Definition isASCIIbyte (c : ascii) : bool := byte_of c <? 128.

Fixpoint forallb_str (p : ascii -> bool) (s : string) : bool :=
  match s with
  | EmptyString => true
  | String c s' => p c && forallb_str p s'
  end.

Fixpoint HasPrefix (s prefix : string) : bool :=
  match prefix, s with
  | EmptyString, _ => true
  | String p ps, String c cs => if Ascii.eqb p c then HasPrefix cs ps else false
  | String _ _, EmptyString => false
  end.

(** [strings.TrimPrefix] as an option: the rest after [prefix], when [s]
    starts with it. *)
Fixpoint cutPrefix (s prefix : string) : option string :=
  match prefix, s with
  | EmptyString, _ => Some s
  | String p ps, String c cs => if Ascii.eqb p c then cutPrefix cs ps else None
  | String _ _, EmptyString => None
  end.

(** Longest prefix whose bytes satisfy [p], and the rest. *)
Fixpoint span (p : ascii -> bool) (s : string) : string * string :=
  match s with
  | EmptyString => (EmptyString, EmptyString)
  | String c s' =>
      if p c then let '(a, b) := span p s' in (String c a, b)
      else (EmptyString, s)
  end.

Definition dropWhile (p : ascii -> bool) (s : string) : string := snd (span p s).

Fixpoint rev_str (s acc : string) : string :=
  match s with
  | EmptyString => acc
  | String c s' => rev_str s' (String c acc)
  end.

Definition dropWhileEnd (p : ascii -> bool) (s : string) : string :=
  rev_str (dropWhile p (rev_str s EmptyString)) EmptyString.

Definition lastByte (s : string) : option ascii :=
  match rev_str s EmptyString with
  | EmptyString => None
  | String c _ => Some c
  end.

Definition lowerByte (c : ascii) : ascii :=
  let b := byte_of c in
  if (65 <=? b) && (b <=? 90) then ascii_of_N (Z.to_N (b + 32)) else c.

Fixpoint map_str (f : ascii -> ascii) (s : string) : string :=
  match s with
  | EmptyString => EmptyString
  | String c s' => String (f c) (map_str f s')
  end.

(** The Unicode tables behind the slow paths of [TrimSpace] and [ToLower];
    they are only consulted on strings that hold a byte >= 0x80. *)
Record Unicode := {
  TrimFunc_IsSpace : string -> string;
  TrimRightFunc_IsSpace : string -> string;
  Map_ToLower : string -> string
}.

(** [strings.TrimSpace]: the ASCII fast path from both ends; the first
    non-ASCII byte met on either side hands over to the Unicode-aware
    trimming of what is left. *)
Definition TrimSpace (U : Unicode) (s : string) : string :=
  let s1 := dropWhile asciiSpace s in
  match s1 with
  | EmptyString => EmptyString
  | String c _ =>
      if isASCIIbyte c then
        let s2 := dropWhileEnd asciiSpace s1 in
        match lastByte s2 with
        | Some d => if isASCIIbyte d then s2 else TrimRightFunc_IsSpace U s2
        | None => s2
        end
      else TrimFunc_IsSpace U s1
  end.

(** [strings.ToLower]: byte-wise on ASCII-only strings, through the
    Unicode mapping otherwise. *)
Definition ToLower (U : Unicode) (s : string) : string :=
  if forallb_str isASCIIbyte s then map_str lowerByte s else Map_ToLower U s.

(** Exact value of a digit string, most significant digit first. *)
Fixpoint digitsVal (acc : Z) (s : string) : Z :=
  match s with
  | EmptyString => acc
  | String c s' => digitsVal (acc * 10 + digitVal c) s'
  end.

(** [strconv.Atoi] on a 64-bit platform: an optional sign, then at least
    one digit and nothing else; a value outside [int64] is a range error.
    [None] stands for the returned error. *)
Definition Atoi (s : string) : option Z :=
  let '(neg, body) :=
    match s with
    | String c rest =>
        if Ascii.eqb c "-" then (true, rest)
        else if Ascii.eqb c "+" then (false, rest)
        else (false, s)
    | EmptyString => (false, s)
    end in
  match body with
  | EmptyString => None
  | _ =>
      if forallb_str isDigit body then
        let v := digitsVal 0 body in
        let n := if neg then - v else v in
        if inInt64 n then Some n else None
      else None
  end.

End GoStrings.

(** ** Go runtime: packages unicode/utf8 and unicode, and the trimming
    functions of package strings that take a predicate on runes *)

Module GoUTF8.
Import GoStrings.

Definition RuneError : Z := 0xFFFD.
Definition RuneSelf : Z := 0x80.
Definition UTFMax : Z := 4.

Definition maskx : Z := 0x3F.
Definition mask2 : Z := 0x1F.
Definition mask3 : Z := 0x0F.
Definition mask4 : Z := 0x07.
Definition locb : Z := 0x80.
Definition hicb : Z := 0xBF.

(** The entries of the table [first]: the low bits are the length of the
    sequence and the high bits index [acceptRanges]. *)
Definition xx : Z := 0xF1.
Definition as_ : Z := 0xF0.
Definition s1 : Z := 0x02.
Definition s2 : Z := 0x13.
Definition s3 : Z := 0x03.
Definition s4 : Z := 0x23.
Definition s5 : Z := 0x34.
Definition s6 : Z := 0x04.
Definition s7 : Z := 0x44.

(** [first[b]], the information on the first byte of a sequence. *)
Definition first (b : Z) : Z :=
  if b <=? 0x7F then as_
  else if b <=? 0xC1 then xx
  else if b <=? 0xDF then s1
  else if b =? 0xE0 then s2
  else if b <=? 0xEC then s3
  else if b =? 0xED then s4
  else if b <=? 0xEF then s3
  else if b =? 0xF0 then s5
  else if b <=? 0xF3 then s6
  else if b =? 0xF4 then s7
  else xx.

(** [acceptRanges[i]], the bounds of the second byte. *)
Definition acceptRanges (i : Z) : Z * Z :=
  if i =? 0 then (locb, hicb)
  else if i =? 1 then (0xA0, hicb)
  else if i =? 2 then (locb, 0x9F)
  else if i =? 3 then (0x90, hicb)
  else if i =? 4 then (locb, 0x8F)
  else (0, 0).

(** [s[i]]; the code never reads past the end. *)
Definition byteAt (s : string) (i : nat) : Z :=
  match String.get i s with
  | Some c => byte_of c
  | None => 0
  end.

(** [utf8.DecodeRuneInString]: the rune at the head of [s] and its width
    in bytes; a byte that starts no valid encoding is [RuneError] of
    width 1.  The mask of the source, [rune(x) << 31 >> 31], is all ones
    exactly when [x] is odd, that is, when [x] is [xx]. *)
Definition DecodeRuneInString (s : string) : Z * nat :=
  let n := String.length s in
  if (n <? 1)%nat then (RuneError, 0%nat)
  else
    let b0 := byteAt s 0 in
    let x := first b0 in
    if as_ <=? x then ((if Z.odd x then RuneError else b0), 1%nat)
    else
      let sz := Z.land x 7 in
      let accept := acceptRanges (Z.shiftr x 4) in
      if Z.of_nat n <? sz then (RuneError, 1%nat)
      else
        let b1 := byteAt s 1 in
        if (b1 <? fst accept) || (snd accept <? b1) then (RuneError, 1%nat)
        else if sz <=? 2 then
          (Z.lor (Z.shiftl (Z.land b0 mask2) 6) (Z.land b1 maskx), 2%nat)
        else
          let b2 := byteAt s 2 in
          if (b2 <? locb) || (hicb <? b2) then (RuneError, 1%nat)
          else if sz <=? 3 then
            (Z.lor (Z.lor (Z.shiftl (Z.land b0 mask3) 12)
                          (Z.shiftl (Z.land b1 maskx) 6))
                   (Z.land b2 maskx), 3%nat)
          else
            let b3 := byteAt s 3 in
            if (b3 <? locb) || (hicb <? b3) then (RuneError, 1%nat)
            else
              (Z.lor (Z.lor (Z.lor (Z.shiftl (Z.land b0 mask4) 18)
                                   (Z.shiftl (Z.land b1 maskx) 12))
                            (Z.shiftl (Z.land b2 maskx) 6))
                     (Z.land b3 maskx), 4%nat).

(** [utf8.RuneStart]: the byte is no continuation byte. *)
Definition RuneStart (b : Z) : bool := negb (Z.land b 0xC0 =? 0x80).

(** The loop [for start--; start >= lim; start-- { if RuneStart(s[start])
    { break } }] of [DecodeLastRuneInString], entered with [start] already
    decremented; it runs at most three times. *)
Fixpoint scanBack (s : string) (fuel : nat) (start lim : Z) : Z :=
  match fuel with
  | O => start
  | S k =>
      if start <? lim then start
      else if RuneStart (byteAt s (Z.to_nat start)) then start
      else scanBack s k (start - 1) lim
  end.

(** [utf8.DecodeLastRuneInString]: the last rune of [s] and its width. *)
Definition DecodeLastRuneInString (s : string) : Z * nat :=
  let end_ := String.length s in
  if (end_ =? 0)%nat then (RuneError, 0%nat)
  else
    let start := Z.of_nat end_ - 1 in
    let r := byteAt s (Z.to_nat start) in
    if r <? RuneSelf then (r, 1%nat)
    else
      let lim := Z.of_nat end_ - UTFMax in
      let lim := if lim <? 0 then 0 else lim in
      let start := scanBack s 4 (start - 1) lim in
      let start := if start <? 0 then 0 else start in
      let start := Z.to_nat start in
      let '(r, size) := DecodeRuneInString (substring start (end_ - start) s) in
      if negb (start + size =? end_)%nat then (RuneError, 1%nat) else (r, size).

(** [unicode.IsSpace]: in Latin-1 the six ASCII characters, U+0085 and
    U+00A0; above it the table [White_Space]. *)
Definition IsSpace (r : Z) : bool :=
  if r <=? 0xFF then
    (r =? 9) || (r =? 10) || (r =? 11) || (r =? 12) || (r =? 13) || (r =? 32)
    || (r =? 0x85) || (r =? 0xA0)
  else
    (r =? 0x1680) || ((0x2000 <=? r) && (r <=? 0x200A)) || (r =? 0x2028)
    || (r =? 0x2029) || (r =? 0x202F) || (r =? 0x205F) || (r =? 0x3000).

(** [s[n:]] for [n] no longer than [s]. *)
Fixpoint skip (n : nat) (s : string) : string :=
  match n, s with
  | S k, String _ s' => skip k s'
  | _, _ => s
  end.

(** [indexFunc(s, f, false)]: the loop [for i, r := range s] up to the
    first rune for which [f] is false, given as the rest [s[i:]] from
    that rune on; [None] is the index -1.  A [range] over a string reads
    it as [DecodeRuneInString] does. *)
Fixpoint indexFunc (f : Z -> bool) (fuel : nat) (s : string) : option string :=
  match fuel with
  | O => None
  | S k =>
      match s with
      | EmptyString => None
      | String _ _ =>
          let '(r, size) := DecodeRuneInString s in
          if f r then indexFunc f k (skip size s) else Some s
      end
  end.

(** [strings.TrimLeftFunc]. *)
Definition TrimLeftFunc (f : Z -> bool) (s : string) : string :=
  match indexFunc f (String.length s) s with
  | None => EmptyString
  | Some rest => rest
  end.

(** [lastIndexFunc(s, f, false)] from the index [i] down; [None] is -1. *)
Fixpoint lastIndexFunc (f : Z -> bool) (fuel : nat) (s : string) (i : nat)
  : option nat :=
  match fuel with
  | O => None
  | S k =>
      if (i =? 0)%nat then None
      else
        let '(r, size) := DecodeLastRuneInString (substring 0 i s) in
        let i := (i - size)%nat in
        if f r then lastIndexFunc f k s i else Some i
  end.

(** [strings.TrimRightFunc]. *)
Definition TrimRightFunc (f : Z -> bool) (s : string) : string :=
  let n := String.length s in
  let i :=
    match lastIndexFunc f n s n with
    | Some i =>
        if RuneSelf <=? byteAt s i
        then (i + snd (DecodeRuneInString (substring i (n - i) s)))%nat
        else (i + 1)%nat
    | None => 0%nat
    end in
  substring 0 i s.

(** [strings.TrimFunc]. *)
Definition TrimFunc (f : Z -> bool) (s : string) : string :=
  TrimRightFunc f (TrimLeftFunc f s).

(** The Unicode tables of a process whose trimming is that of package
    strings: the slow paths of [TrimSpace] are [TrimFunc] and
    [TrimRightFunc] with [unicode.IsSpace]. *)
Definition stdTrimming (U : Unicode) : Prop :=
  forall s, TrimFunc_IsSpace U s = TrimFunc IsSpace s
            /\ TrimRightFunc_IsSpace U s = TrimRightFunc IsSpace s.

(** The runes of a string, as a [range] over it yields them. *)
Fixpoint runesOf (fuel : nat) (s : string) : list Z :=
  match fuel with
  | O => []
  | S k =>
      match s with
      | EmptyString => []
      | String _ _ =>
          let '(r, size) := DecodeRuneInString s in
          r :: runesOf k (skip size s)
      end
  end.

Definition runes (s : string) : list Z := runesOf (String.length s) s.

End GoUTF8.

(** ** Go runtime: package time, package context, error values *)

Module GoTime.
Import GoInt.

(** A [*time.Location], identified by its name ([Location.String]). *)
Inductive Location := Loc (name : string).

Definition Location_String (l : Location) : string :=
  match l with Loc n => n end.

Definition UTC : Location := Loc "UTC".

(** [time.Duration]: a count of nanoseconds in an [int64]. *)
Definition Nanosecond : Z := 1.
Definition Second : Z := 1000000000.
Definition Minute : Z := 60 * Second.
Definition Hour : Z := 60 * Minute.

(** A [time.Time]: the instant, counted in nanoseconds from the zero time
    (January 1, year 1, 00:00:00 UTC), and the location it is shown in.
    The monotonic clock reading is not part of the model. *)
Record Time := mkTime { abs_ns : Z; tloc : Location }.

(** The zero value [time.Time{}]. *)
Definition zeroTime : Time := mkTime 0 UTC.

Definition IsZero (t : Time) : bool := abs_ns t =? 0.

Definition Add (t : Time) (d : Z) : Time := mkTime (abs_ns t + d) (tloc t).

Definition In (t : Time) (l : Location) : Time := mkTime (abs_ns t) l.

Definition Before (t u : Time) : bool := abs_ns t <? abs_ns u.

(** The calendar side of package time, which depends on the time zone
    database: formatting, parsing and civil dates. *)
Record Calendar := {
  Format : Time -> string -> string;
  Parse : string -> string -> option Time;
  ParseInLocation : string -> string -> Location -> option Time;
  Date : Z -> Z -> Z -> Z -> Z -> Z -> Z -> Location -> Time;
  Year : Time -> Z;
  Month : Time -> Z;
  Day : Time -> Z;
  Clock : Time -> Z * Z * Z;
  Nanosecond_of : Time -> Z;
  LoadLocation : string -> option Location
}.

(** [Time.AddDate]: the same wall clock on the normalised shifted date. *)
Definition AddDate (K : Calendar) (t : Time) (years months days : Z) : Time :=
  let '(hour, min, sec) := Clock K t in
  Date K (Year K t + years) (Month K t + months) (Day K t + days)
       hour min sec (Nanosecond_of K t) (tloc t).

Definition RFC3339 : string := "2006-01-02T15:04:05Z07:00".

End GoTime.

Module GoError.

(** A [context.Context] as far as the code looks at it: live, or done
    with the error [ctx.Err()] reports. *)
Inductive Context :=
| Live
| Canceled
| DeadlineExceeded.

Definition ctx_Done (c : Context) : bool :=
  match c with Live => false | _ => true end.

Definition ctx_Err_text (c : Context) : string :=
  match c with
  | Live => ""
  | Canceled => "context canceled"
  | DeadlineExceeded => "context deadline exceeded"
  end.

End GoError.

(** ** internal/calendar/client.go *)

Module Client.
Import GoInt GoTime GoError.

(** The sentinel errors of the package; [errors.Is] against one of them
    is a comparison of the [sentinel] field of a [cal_error]. *)
Inductive Sentinel :=
| ErrEventCreationFailed
| ErrInvalidEventTime
| ErrCalendarNotFound
| ErrPermissionDenied
| ErrQuotaExceeded.

Definition Sentinel_text (s : Sentinel) : string :=
  match s with
  | ErrEventCreationFailed => "failed to create event"
  | ErrInvalidEventTime => "invalid event time"
  | ErrCalendarNotFound => "calendar not found"
  | ErrPermissionDenied => "permission denied"
  | ErrQuotaExceeded => "API quota exceeded"
  end.

(** The value of [fmt.Errorf("%w: ...", sentinel, ...)]: the wrapped
    sentinel and the full text of [Error()]. *)
Record cal_error := mkErr { sentinel : Sentinel; text : string }.

(** [fmt.Errorf("%w" ++ rest, s)]. *)
Definition Errorf_w (s : Sentinel) (rest : string) : cal_error :=
  mkErr s (Sentinel_text s ++ rest).

(** [googleapi.ErrorItem] and [googleapi.Error], the fields the code reads. *)
Record ErrorItem := { Reason : string; ItemMessage : string }.
Record googleapi_Error := { Code : Z; Message : string; Errors : list ErrorItem }.

(** An [error] handed back by the API client: a chain of wrappers ending
    in a leaf.  Every node has the text of its [Error()]; a node whose
    dynamic type is [*googleapi.Error] carries that structure. *)
Inductive goerror :=
| Leaf (api : option googleapi_Error) (msg : string)
| Wrap (msg : string) (inner : goerror).

Definition Error_text (e : goerror) : string :=
  match e with Leaf _ m => m | Wrap m _ => m end.

(** [errors.As(err, &apiErr)] for [apiErr : *googleapi.Error]: the first
    node of the chain of that type. *)
Fixpoint errors_As (e : goerror) : option googleapi_Error :=
  match e with
  | Leaf api _ => api
  | Wrap _ inner => errors_As inner
  end.

Record EventParams := {
  Title : string;
  StartTime : Time;
  Duration : Z;
  Description : string;
  Location : string
}.

Record EventResult := {
  rID : string;
  rTitle : string;
  rStartTime : Time;
  rEndTime : Time;
  rDescription : string;
  rLocation : string;
  rLink : string
}.

(** [calendar.EventDateTime] and [calendar.Event] of the API package.
    [Start] and [End] are pointers ([*EventDateTime]): [None] is nil. *)
Record EventDateTime := { DateTime : string; Date_ : string; TimeZone : string }.
Record Event := {
  Id : string;
  Summary : string;
  EvDescription : string;
  EvLocation : string;
  Start : option EventDateTime;
  End_ : option EventDateTime;
  HtmlLink : string
}.

(** The remote side of [c.service.Events.Insert(id, ev).Context(ctx).Do()]. *)
Definition Service := string -> Event -> Context -> goerror + Event.

Record Client := { service : Service; calendarID : string }.

(** One entry per request that goes out to the provider. *)
Inductive NetCall := EventsInsert (calendar : string) (ev : Event).

Definition validateEventParams (params : EventParams) : option cal_error :=
  if String.eqb (Title params) "" then
    Some (Errorf_w ErrInvalidEventTime ": title is required")
  else if IsZero (StartTime params) then
    Some (Errorf_w ErrInvalidEventTime ": start time is required")
  else if Duration params <=? 0 then
    Some (Errorf_w ErrInvalidEventTime ": duration must be positive")
  else None.

(** An error whose text is produced by [fmt.Errorf("...: %w", err)] around
    a parse error of package time. *)
Inductive result_error :=
| CalErr (e : cal_error)
| ParseErr (what : string).

(** What a call comes to: it returns a result or an error, or it reads a
    field through a nil pointer and the goroutine panics, so that nothing
    is returned. *)
Inductive outcome :=
| Return (r : result_error + EventResult)
| NilPanic.

(** The start or the end of an event as [parseEventResult] reads it: the
    date and time in RFC 3339, else the date alone. *)
Definition parseEventTime (K : Calendar) (dt : EventDateTime) : option Time :=
  match Parse K RFC3339 (DateTime dt) with
  | Some t => Some t
  | None => Parse K "2006-01-02" (Date_ dt)
  end.

(** [parseEventResult]: [event.Start.DateTime] and [event.End.DateTime]
    are read without a test for nil, the end only once the start has
    parsed. *)
Definition parseEventResult (K : Calendar) (event : Event) : outcome :=
  match Start event with
  | None => NilPanic
  | Some start =>
      match parseEventTime K start with
      | None => Return (inl (ParseErr "failed to parse start time"))
      | Some startTime =>
          match End_ event with
          | None => NilPanic
          | Some endt =>
              match parseEventTime K endt with
              | None => Return (inl (ParseErr "failed to parse end time"))
              | Some endTime =>
                  Return (inr {| rID := Id event; rTitle := Summary event;
                                 rStartTime := startTime; rEndTime := endTime;
                                 rDescription := EvDescription event;
                                 rLocation := EvLocation event;
                                 rLink := HtmlLink event |})
              end
          end
      end
  end.

Definition isQuotaReason (r : string) : bool :=
  String.eqb r "quotaExceeded" || String.eqb r "rateLimitExceeded"
  || String.eqb r "userRateLimitExceeded".

Fixpoint containsQuotaError_items (items : list ErrorItem) : bool :=
  match items with
  | [] => false
  | e :: rest => if isQuotaReason (Reason e) then true else containsQuotaError_items rest
  end.

Definition containsQuotaError (apiErr : googleapi_Error) : bool :=
  containsQuotaError_items (Errors apiErr).

Definition wrapAPIError (err : goerror) : cal_error :=
  match errors_As err with
  | Some apiErr =>
      if Code apiErr =? 400 then
        Errorf_w ErrEventCreationFailed (": invalid request - " ++ Message apiErr)
      else if Code apiErr =? 401 then
        Errorf_w ErrPermissionDenied ": authentication expired, please re-authenticate"
      else if Code apiErr =? 403 then
        if containsQuotaError apiErr then
          Errorf_w ErrQuotaExceeded ": please try again later"
        else
          Errorf_w ErrPermissionDenied
                   ": you don't have permission to access this calendar"
      else if Code apiErr =? 404 then
        Errorf_w ErrCalendarNotFound ": check that the calendar ID is correct"
      else if Code apiErr =? 429 then
        Errorf_w ErrQuotaExceeded ": too many requests, please try again later"
      else
        Errorf_w ErrEventCreationFailed
                 (": " ++ Message apiErr ++ " (code: " ++ itoa (Code apiErr) ++ ")")
  | None => Errorf_w ErrEventCreationFailed (": " ++ Error_text err)
  end.

(** The event [CreateEvent] builds from its parameters. *)
Definition buildEvent (K : Calendar) (params : EventParams) : Event :=
  let endTime := Add (StartTime params) (Duration params) in
  {| Id := ""; Summary := Title params;
     EvDescription := Description params;
     EvLocation := Location params;
     Start := Some {| DateTime := Format K (StartTime params) RFC3339; Date_ := "";
                      TimeZone := Location_String (tloc (StartTime params)) |};
     End_ := Some {| DateTime := Format K endTime RFC3339; Date_ := "";
                     TimeZone := Location_String (tloc endTime) |};
     HtmlLink := "" |}.

(** [CreateEvent]: the requests sent, in order, and how the call ends. *)
Definition CreateEvent (K : Calendar) (c : Client) (ctx : Context)
           (params : EventParams)
  : list NetCall * outcome :=
  match validateEventParams params with
  | Some err => ([], Return (inl (CalErr err)))
  | None =>
      let event := buildEvent K params in
      match service c (calendarID c) event ctx with
      | inl err =>
          ([EventsInsert (calendarID c) event], Return (inl (CalErr (wrapAPIError err))))
      | inr createdEvent =>
          ([EventsInsert (calendarID c) event], parseEventResult K createdEvent)
      end
  end.

End Client.

(** ** Package time: [time.ParseDuration] *)

Module GoDuration.
Import GoInt GoStrings GoTime.

Definition two63 : Z := 2 ^ 63.
Definition wrapU64 (z : Z) : Z := z mod 2 ^ 64.

(** [leadingInt]: the leading digits as a [uint64], and the rest; [None]
    on overflow past [1<<63]. *)
Fixpoint leadingInt (x : Z) (s : string) : option (Z * string) :=
  match s with
  | EmptyString => Some (x, s)
  | String c s' =>
      if isDigit c then
        if x >? two63 / 10 then None
        else
          let x' := x * 10 + digitVal c in
          if x' >? two63 then None else leadingInt x' s'
      else Some (x, s)
  end.

(** [leadingFraction]: the digits after the point that fit, the scale
    [10^k] of the digits kept, and the rest. *)
Fixpoint leadingFraction (x scale : Z) (overflow : bool) (s : string)
  : Z * Z * string :=
  match s with
  | EmptyString => (x, scale, s)
  | String c s' =>
      if isDigit c then
        if overflow then leadingFraction x scale overflow s'
        else if x >? (two63 - 1) / 10 then leadingFraction x scale true s'
        else
          let y := x * 10 + digitVal c in
          if y >? two63 then leadingFraction x scale true s'
          else leadingFraction y (scale * 10) overflow s'
      else (x, scale, s)
  end.

Definition micro_sign : string :=
  String (ascii_of_nat 194) (String (ascii_of_nat 181) "s").
Definition greek_mu : string :=
  String (ascii_of_nat 206) (String (ascii_of_nat 188) "s").

Definition unitMap (u : string) : option Z :=
  if String.eqb u "ns" then Some 1
  else if String.eqb u "us" then Some 1000
  else if String.eqb u micro_sign then Some 1000
  else if String.eqb u greek_mu then Some 1000
  else if String.eqb u "ms" then Some 1000000
  else if String.eqb u "s" then Some Second
  else if String.eqb u "m" then Some Minute
  else if String.eqb u "h" then Some Hour
  else None.

Definition isUnitStop (c : ascii) : bool := Ascii.eqb c "." || isDigit c.

(** The floating-point step of a fractional component:
    [uint64(float64(f) * (float64(unit) / scale))]. *)
Definition FracNs := Z -> Z -> Z -> Z.

(** The loop [for s != ""] over the components of a duration; [d] is the
    running total.  Every round consumes at least one byte, so
    [String.length s] rounds are enough. *)
Fixpoint components (F : FracNs) (fuel : nat) (d : Z) (s : string) : option Z :=
  match s with
  | EmptyString => Some d
  | String c0 _ =>
      match fuel with
      | O => None
      | S fuel' =>
          if negb (Ascii.eqb c0 "." || isDigit c0) then None
          else
            match leadingInt 0 s with
            | None => None
            | Some (v, s1) =>
                let pre := negb (String.length s =? String.length s1)%nat in
                let '(f, scale, s2, post) :=
                  match s1 with
                  | String c1 s1' =>
                      if Ascii.eqb c1 "." then
                        let '(f, scale, r) := leadingFraction 0 1 false s1' in
                        (f, scale, r, negb (String.length s1' =? String.length r)%nat)
                      else (0, 1, s1, false)
                  | EmptyString => (0, 1, s1, false)
                  end in
                if negb pre && negb post then None
                else
                  let '(u, s3) := span (fun c => negb (isUnitStop c)) s2 in
                  match u with
                  | EmptyString => None
                  | _ =>
                      match unitMap u with
                      | None => None
                      | Some unit =>
                          if v >? two63 / unit then None
                          else
                            let v1 := v * unit in
                            let v2 :=
                              if f >? 0 then wrapU64 (v1 + F f scale unit) else v1 in
                            if (f >? 0) && (v2 >? two63) then None
                            else
                              let d' := wrapU64 (d + v2) in
                              if d' >? two63 then None
                              else components F fuel' d' s3
                      end
                  end
            end
      end
  end.

(** [time.ParseDuration]; [None] stands for the returned error. *)
Definition ParseDuration (F : FracNs) (s : string) : option Z :=
  let '(neg, s1) :=
    match s with
    | String c rest =>
        if Ascii.eqb c "-" then (true, rest)
        else if Ascii.eqb c "+" then (false, rest)
        else (false, s)
    | EmptyString => (false, s)
    end in
  if String.eqb s1 "0" then Some 0
  else if String.eqb s1 "" then None
  else
    match components F (String.length s1) 0 s1 with
    | None => None
    | Some d =>
        if neg then Some (wrap64 (- wrap64 d))
        else if d >? two63 - 1 then None
        else Some d
    end.

End GoDuration.

(** ** The time resolver and the duration parser (package calendar) *)

Module TimeParse.
Import GoInt GoStrings GoTime.

Inductive Sentinel :=
| ErrInvalidDateFormat
| ErrInvalidTimezone.

Definition Sentinel_text (s : Sentinel) : string :=
  match s with
  | ErrInvalidDateFormat => "invalid date/time format"
  | ErrInvalidTimezone => "invalid timezone"
  end.

Record parse_error := mkErr { sentinel : Sentinel; text : string }.

Definition Errorf_w (s : Sentinel) (rest : string) : parse_error :=
  mkErr s (Sentinel_text s ++ rest).

(** What the resolver reaches outside the package: the Unicode tables of
    package strings, the calendar of package time, the process
    environment ([os.Getenv], empty for an unset variable), the system
    zone [time.Local], and [dateparse.ParseIn]. *)
Record Env := {
  unicode : Unicode;
  cal : Calendar;
  Getenv : string -> string;
  Local : Location;
  dateparse_ParseIn : string -> Location -> option Time
}.

Definition getLocation (E : Env) (timezone : string) : parse_error + Location :=
  if negb (String.eqb timezone "") then
    match LoadLocation (cal E) timezone with
    | None => inl (Errorf_w ErrInvalidTimezone (": " ++ timezone))
    | Some loc => inr loc
    end
  else
    let tz := Getenv E "TZ" in
    if negb (String.eqb tz "") then
      match LoadLocation (cal E) tz with
      | None =>
          inl (Errorf_w ErrInvalidTimezone
                        (": " ++ tz ++ " (from TZ environment variable)"))
      | Some loc => inr loc
      end
    else inr (Local E).

Definition isUnitWord (u : string) : bool :=
  String.eqb u "hour" || String.eqb u "hours"
  || String.eqb u "minute" || String.eqb u "minutes"
  || String.eqb u "min" || String.eqb u "mins"
  || String.eqb u "hr" || String.eqb u "hrs".

(** [inDurationRegex.FindStringSubmatch] for
    [^in\s+(\d+)\s*(hours?|minutes?|mins?|hrs?)$]: the two groups. *)
Definition inDurationRegex (input : string) : option (string * string) :=
  match cutPrefix input "in" with
  | None => None
  | Some r =>
      let '(ws, r1) := span reSpace r in
      match ws with
      | EmptyString => None
      | _ =>
          let '(digits, r2) := span isDigit r1 in
          match digits with
          | EmptyString => None
          | _ =>
              let unit := dropWhile reSpace r2 in
              if isUnitWord unit then Some (digits, unit) else None
          end
      end
  end.

(** The tail [(\d{1,2}):(\d{2})(?::(\d{2}))?$] shared by the two clock
    patterns: the three groups, the last one empty when it is absent. *)
Definition clockGroups (s : string) : option (string * string * string) :=
  let '(h, r) := span isDigit s in
  if ((String.length h =? 1) || (String.length h =? 2))%nat then
    match r with
    | String c1 r1 =>
        if Ascii.eqb c1 ":" then
          let '(m, r2) := span isDigit r1 in
          if (String.length m =? 2)%nat then
            match r2 with
            | EmptyString => Some (h, m, EmptyString)
            | String c2 r3 =>
                if Ascii.eqb c2 ":" then
                  let '(sec, r4) := span isDigit r3 in
                  if (String.length sec =? 2)%nat then
                    match r4 with
                    | EmptyString => Some (h, m, sec)
                    | String _ _ => None
                    end
                  else None
                else None
            end
          else None
        else None
    | EmptyString => None
    end
  else None.

(** [dayTimeRegex.FindStringSubmatch] for
    [^(?:today|tomorrow)\s*(?:at\s+)?(\d{1,2}):(\d{2})(?::(\d{2}))?$]. *)
Definition dayTimeRegex (input : string) : option (string * string * string) :=
  let after_day :=
    match cutPrefix input "today" with
    | Some r => Some r
    | None => cutPrefix input "tomorrow"
    end in
  match after_day with
  | None => None
  | Some r =>
      let r1 := dropWhile reSpace r in
      match cutPrefix r1 "at" with
      | Some r2 =>
          let '(ws, r3) := span reSpace r2 in
          match ws with
          | EmptyString => None
          | _ => clockGroups r3
          end
      | None => clockGroups r1
      end
  end.

(** [timeOnlyRegex.FindStringSubmatch] for [^(\d{1,2}):(\d{2})(?::(\d{2}))?$]. *)
Definition timeOnlyRegex (input : string) : option (string * string * string) :=
  clockGroups input.

Definition parseInDuration (input : string) (now : Time) : option Time :=
  match inDurationRegex input with
  | None => None
  | Some (m1, unit) =>
      match Atoi m1 with
      | None => None
      | Some amount =>
          if HasPrefix unit "hour" || HasPrefix unit "hr" then
            Some (Add now (mul64 amount Hour))
          else if HasPrefix unit "min" then
            Some (Add now (mul64 amount Minute))
          else None
      end
  end.

(** The hour, minute and second of the three groups, range-checked as in
    [parseDayWithTime] and [parseTimeOnly]. *)
Definition clockFields (g : string * string * string) : option (Z * Z * Z) :=
  let '(g1, g2, g3) := g in
  match Atoi g1 with
  | None => None
  | Some hour =>
      if (hour <? 0) || (hour >? 23) then None
      else
        match Atoi g2 with
        | None => None
        | Some minute =>
            if (minute <? 0) || (minute >? 59) then None
            else if String.eqb g3 "" then Some (hour, minute, 0)
            else
              match Atoi g3 with
              | None => None
              | Some second =>
                  if (second <? 0) || (second >? 59) then None
                  else Some (hour, minute, second)
              end
        end
  end.

Definition parseDayWithTime (K : Calendar) (input : string) (now : Time)
           (daysOffset : Z) (loc : Location) : option Time :=
  match dayTimeRegex input with
  | None => None
  | Some g =>
      match clockFields g with
      | None => None
      | Some (hour, minute, second) =>
          let targetDate := AddDate K now 0 0 daysOffset in
          Some (Date K (Year K targetDate) (Month K targetDate) (Day K targetDate)
                     hour minute second 0 loc)
      end
  end.

(** [parseRelative]; [clock] is the reading of [time.Now()]. *)
Definition parseRelative (E : Env) (clock : Time) (input : string)
           (loc : Location) : option Time :=
  let input := ToLower (unicode E) input in
  let now := In clock loc in
  let r1 := if HasPrefix input "in " then parseInDuration input now else None in
  match r1 with
  | Some t => Some t
  | None =>
      let r2 :=
        if HasPrefix input "today" then parseDayWithTime (cal E) input now 0 loc
        else None in
      match r2 with
      | Some t => Some t
      | None =>
          if HasPrefix input "tomorrow" then parseDayWithTime (cal E) input now 1 loc
          else None
      end
  end.

(** [parseTimeOnly]; [clock] is the reading of [time.Now()], taken after
    the fields have been checked. *)
Definition parseTimeOnly (E : Env) (clock : Time) (input : string)
           (loc : Location) : option Time :=
  match timeOnlyRegex input with
  | None => None
  | Some g =>
      match clockFields g with
      | None => None
      | Some (hour, minute, second) =>
          let now := In clock loc in
          Some (Date (cal E) (Year (cal E) now) (Month (cal E) now) (Day (cal E) now)
                     hour minute second 0 loc)
      end
  end.

Definition formats : list string :=
  [ "2006-01-02T15:04:05"; "2006-01-02T15:04"; "2006-01-02 15:04:05";
    "2006-01-02 15:04"; "2006/01/02 15:04:05"; "2006/01/02 15:04";
    "01/02/2006 15:04:05"; "01/02/2006 15:04"; "02/01/2006 15:04:05";
    "02/01/2006 15:04"; "Jan 2, 2006 15:04:05"; "Jan 2, 2006 15:04";
    "January 2, 2006 15:04:05"; "January 2, 2006 15:04"; "2006-01-02" ].

(** The loop over [formats]: the first layout that parses. *)
Fixpoint tryFormats (K : Calendar) (fs : list string) (input : string)
         (loc : Location) : option Time :=
  match fs with
  | [] => None
  | format :: rest =>
      match ParseInLocation K format input loc with
      | Some t => Some t
      | None => tryFormats K rest input loc
      end
  end.

Definition parseStandard (E : Env) (input : string) (loc : Location)
  : parse_error + Time :=
  match dateparse_ParseIn E input loc with
  | Some t => inr t
  | None =>
      match tryFormats (cal E) formats input loc with
      | Some t => inr t
      | None =>
          inl (Errorf_w ErrInvalidDateFormat
                 (": could not parse '" ++ input
                  ++ "'. Try formats like '2024-01-15 14:00', '14:00', 'tomorrow 14:00', or 'in 2 hours'"))
      end
  end.

(** [ParseTime]; [clock1] is what [time.Now()] returns inside
    [parseRelative], [clock2] what it returns inside [parseTimeOnly]. *)
Definition ParseTime (E : Env) (clock1 clock2 : Time) (input timezone : string)
  : parse_error + Time :=
  let input := TrimSpace (unicode E) input in
  if String.eqb input "" then inl (Errorf_w ErrInvalidDateFormat ": empty input")
  else
    match getLocation E timezone with
    | inl err => inl err
    | inr loc =>
        match parseRelative E clock1 input loc with
        | Some t => inr t
        | None =>
            match parseTimeOnly E clock2 input loc with
            | Some t => inr t
            | None => parseStandard E input loc
            end
        end
    end.

(** [ParseDuration]: the span, or the text of the error. *)
Definition ParseDuration (U : Unicode) (F : GoDuration.FracNs) (input : string)
  : string + Z :=
  let input := TrimSpace U input in
  if String.eqb input "" then inl "empty duration"
  else
    match Atoi input with
    | Some minutes => inr (mul64 minutes Minute)
    | None =>
        match GoDuration.ParseDuration F input with
        | Some d => inr d
        | None =>
            inl ("invalid duration '" ++ input
                 ++ "': use formats like '30m', '1h', '1h30m', or just '30' for minutes")
        end
    end.

(** The whole minutes of a span: [d / time.Minute], as [Duration.Minutes]
    computes them before it adds the fraction. *)
Definition wholeMinutes (d : Z) : Z := Z.quot d Minute.

End TimeParse.

(** ** The authenticator and its callback listener (package auth) *)

Module Auth.
Import GoInt GoStrings GoTime GoError.

Inductive Sentinel :=
| ErrInvalidCredentials
| ErrAuthenticationFailed
| ErrTokenRefreshFailed.

Definition Sentinel_text (s : Sentinel) : string :=
  match s with
  | ErrInvalidCredentials => "invalid credentials file format"
  | ErrAuthenticationFailed => "authentication failed"
  | ErrTokenRefreshFailed => "token refresh failed"
  end.

(** An error returned by the package: what it wraps, and its text. *)
Inductive ErrKind :=
| Wraps (s : Sentinel)
| WrapsOS
| CtxErr (c : Context).

Record auth_error := mkErr { kind : ErrKind; text : string }.

Definition Errorf_w (s : Sentinel) (rest : string) : auth_error :=
  mkErr (Wraps s) (Sentinel_text s ++ rest).

(** [oauth2.Token], the exported fields. *)
Record Token := {
  AccessToken : string;
  TokenType : string;
  RefreshToken : string;
  Expiry : Time
}.

(** [oauth2.Config], the fields the flow uses. *)
Record Config := {
  ClientID : string;
  ClientSecret : string;
  AuthURL : string;
  TokenURL : string;
  RedirectURL : string;
  ConfigScopes : list string
}.

Definition set_RedirectURL (c : Config) (u : string) : Config :=
  {| ClientID := ClientID c; ClientSecret := ClientSecret c;
     AuthURL := AuthURL c; TokenURL := TokenURL c;
     RedirectURL := u; ConfigScopes := ConfigScopes c |}.

(** Package oauth2, token.go: a token expires [defaultExpiryDelta] before
    its [Expiry]; a zero [Expiry] means that it does not expire.
<<
    func (t *Token) expired() bool {
        if t.Expiry.IsZero() { return false }
        ...
        return t.Expiry.Round(0).Add(-expiryDelta).Before(timeNow())
    }
    func (t *Token) Valid() bool {
        return t != nil && t.AccessToken != "" && !t.expired()
    }
>>
    [now] is the reading of [timeNow()]. *)
Definition defaultExpiryDelta : Z := 10 * Second.

Definition expired (now : Time) (t : Token) : bool :=
  if IsZero (Expiry t) then false
  else Before (Add (Expiry t) (- defaultExpiryDelta)) now.

Definition Valid (now : Time) (t : Token) : bool :=
  negb (String.eqb (AccessToken t) "") && negb (expired now t).

(** The authorization URL of [Config.AuthCodeURL(state, opts...)], kept as
    its endpoint and query parameters. *)
Record AuthCodeURL_t := {
  url_endpoint : string;
  url_client_id : string;
  url_redirect_uri : string;
  url_scope : list string;
  url_state : string;
  url_access_type : string
}.

Definition AuthCodeURL (c : Config) (state access_type : string) : AuthCodeURL_t :=
  {| url_endpoint := AuthURL c; url_client_id := ClientID c;
     url_redirect_uri := RedirectURL c; url_scope := ConfigScopes c;
     url_state := state; url_access_type := access_type |}.

Definition AccessTypeOffline : string := "offline".

Record Authenticator := {
  credentialsPath : string;
  tokenPath : string;
  config : option Config
}.

Definition NewAuthenticator (credentialsPath tokenPath : string) : Authenticator :=
  {| credentialsPath := credentialsPath; tokenPath := tokenPath; config := None |}.

Definition set_config (a : Authenticator) (c : Config) : Authenticator :=
  {| credentialsPath := credentialsPath a; tokenPath := tokenPath a;
     config := Some c |}.

(** A parsed query string ([url.Values]): the values of every key, in
    order of appearance. *)
Definition Values := gmap string (list string).

(** [Values.Get]: the first value of the key, or the empty string. *)
Definition Get (q : Values) (key : string) : string :=
  match q !! key with
  | Some (v :: _) => v
  | _ => ""
  end.

(** What is outside the process: the file system, the JSON codecs, the
    token endpoint, the loopback listener, the browser.  A failing call
    returns the text of its error on the left. *)
Record Env := {
  ReadFile : string -> string + string;
  WriteFile : string -> string -> Z -> option string;
  ConfigFromJSON : string -> string + Config;
  Unmarshal : string -> string + Token;
  MarshalIndent : Token -> string + string;
  TokenSource_Token : Config -> Context -> Token -> string + Token;
  Exchange : Config -> Context -> string -> string + Token;
  net_Listen : string + Z;
  openBrowser : AuthCodeURL_t -> option string
}.

(** Everything a call does that can be seen from outside, in order. *)
Inductive Effect :=
| FileRead (path : string)
| FileWrite (path data : string) (perm : Z)
| Stdout (line : string)
| StdoutURL (u : AuthCodeURL_t)
| Stderr (line : string)
| RefreshCall (ctx : Context) (t : Token)
| ListenLoopback
| Browser (u : AuthCodeURL_t)
| Select (ctx : Context)
| ExchangeCall (ctx : Context) (code : string)
| ServerClose.

Definition LoadCredentials (E : Env) (a : Authenticator)
  : Authenticator * list Effect * option auth_error :=
  match ReadFile E (credentialsPath a) with
  | inl e =>
      (a, [FileRead (credentialsPath a)],
       Some (mkErr WrapsOS ("failed to read credentials file: " ++ e)))
  | inr data =>
      match ConfigFromJSON E data with
      | inl e =>
          (a, [FileRead (credentialsPath a)],
           Some (Errorf_w ErrInvalidCredentials (": " ++ e)))
      | inr cfg => (set_config a cfg, [FileRead (credentialsPath a)], None)
      end
  end.

Definition loadToken (E : Env) (a : Authenticator) : list Effect * (string + Token) :=
  match ReadFile E (tokenPath a) with
  | inl e => ([FileRead (tokenPath a)], inl e)
  | inr data =>
      match Unmarshal E data with
      | inl e => ([FileRead (tokenPath a)], inl ("failed to parse token file: " ++ e))
      | inr t => ([FileRead (tokenPath a)], inr t)
      end
  end.

Definition saveToken (E : Env) (a : Authenticator) (t : Token)
  : list Effect * option string :=
  match MarshalIndent E t with
  | inl e => ([], Some ("failed to marshal token: " ++ e))
  | inr data =>
      match WriteFile E (tokenPath a) data 384 with
      | Some e => ([FileWrite (tokenPath a) data 384],
                   Some ("failed to write token file: " ++ e))
      | None => ([FileWrite (tokenPath a) data 384], None)
      end
  end.

(** *** The callback listener *)

(** The two channels of capacity one: the value waiting in each. *)
Record Chans := { codeChan : option string; errChan : option string }.

Definition emptyChans : Chans := {| codeChan := None; errChan := None |}.

Record Response := {
  StatusCode : Z;
  ContentType : string;
  Body : string
}.

Definition dq : string := String (ascii_of_nat 34) "".
Definition nl : string := String (ascii_of_nat 10) "".

Definition successPage : string :=
  nl ++ "<!DOCTYPE html>" ++ nl ++ "<html>" ++ nl
  ++ "<head><title>Authorization Successful</title></head>" ++ nl
  ++ "<body style=" ++ dq
  ++ "font-family: sans-serif; text-align: center; padding: 50px;" ++ dq ++ ">" ++ nl
  ++ "<h1>Authorization Successful!</h1>" ++ nl
  ++ "<p>You can close this window and return to the terminal.</p>" ++ nl
  ++ "</body>" ++ nl ++ "</html>" ++ nl.

(** [http.Error(w, msg, code)]: plain text, the status, the message and a
    newline. *)
Definition http_Error (msg : string) (code : Z) : Response :=
  {| StatusCode := code; ContentType := "text/plain; charset=utf-8";
     Body := msg ++ nl |}.

Definition StatusBadRequest : Z := 400.
Definition StatusOK : Z := 200.

(** The handler that [startCallbackServer] registers on ["/"], run on the
    query of one request.  A send on a channel whose slot is taken does
    not complete: the handler stays blocked and writes no response
    ([None]). *)
Definition handler (chans : Chans) (q : Values) : option (Chans * Response) :=
  let code := Get q "code" in
  if String.eqb code "" then
    let errMsg := Get q "error" in
    let errMsg := if String.eqb errMsg "" then "no authorization code received"
                  else errMsg in
    match errChan chans with
    | Some _ => None
    | None =>
        Some ({| codeChan := codeChan chans; errChan := Some errMsg |},
              http_Error "Authorization failed" StatusBadRequest)
    end
  else
    match codeChan chans with
    | Some _ => None
    | None =>
        Some ({| codeChan := Some code; errChan := errChan chans |},
              {| StatusCode := StatusOK; ContentType := "text/html";
                 Body := successPage |})
    end.

(** What reaches the two channels while [authenticate] waits.  The server
    runs the handler of every request in a goroutine of its own, and the
    goroutine that [startCallbackServer] starts sends the error with which
    [server.Serve] returns when that is not [http.ErrServerClosed].  Each
    of these goroutines does one channel send and shares nothing else with
    the others, so a run of them is the order in which they come to their
    sends. *)
Inductive Arrival :=
| Request (q : Values)
| ServeFailed (err : string).

(** One goroutine comes to its send.  Nothing is received from the
    channels before the [select], so a send that finds the slot taken
    stays blocked and leaves the channels as they are. *)
Definition arrive (chans : Chans) (ev : Arrival) : Chans :=
  match ev with
  | Request q =>
      match handler chans q with
      | Some (chans', _) => chans'
      | None => chans
      end
  | ServeFailed err =>
      match errChan chans with
      | Some _ => chans
      | None => {| codeChan := codeChan chans; errChan := Some err |}
      end
  end.

(** The channels after the sends of [reqs], in order. *)
Fixpoint serve (chans : Chans) (reqs : list Arrival) : Chans :=
  match reqs with
  | [] => chans
  | ev :: rest => serve (arrive chans ev) rest
  end.

(** The cases of the [select] in [authenticate]. *)
Inductive SelectCase :=
| GotCode (code : string)
| GotErr (msg : string)
| CtxDone
| Timeout.

(** The cases that can proceed. *)
Definition ready (chans : Chans) (ctx : Context) : list SelectCase :=
  (match codeChan chans with Some c => [GotCode c] | None => [] end
   ++ match errChan chans with Some e => [GotErr e] | None => [] end
   ++ (if ctx_Done ctx then [CtxDone] else []))%list.

(** [select]: one of the ready cases, picked by the scheduler; when none
    is ready the five-minute timer fires. *)
Definition select (sched : nat) (chans : Chans) (ctx : Context) : SelectCase :=
  match ready chans ctx with
  | [] => Timeout
  | c :: cs => nth (sched mod length (c :: cs)) (c :: cs) c
  end.

Definition stateToken : string := "state-token".

(** [authenticate]; [reqs] is what the goroutines of the listener send
    before the [select] takes its value, in the order of the sends, and
    [sched] the scheduler's pick among the cases that can proceed. *)
Definition authenticate (E : Env) (a : Authenticator) (cfg : Config)
           (ctx : Context) (reqs : list Arrival) (sched : nat)
  : Authenticator * list Effect * (auth_error + Token) :=
  match net_Listen E with
  | inl e =>
      (a, [ListenLoopback],
       inl (mkErr WrapsOS ("failed to start callback server: " ++ e)))
  | inr port =>
      let cfg := set_RedirectURL cfg ("http://localhost:" ++ itoa port) in
      let a := set_config a cfg in
      let authURL := AuthCodeURL cfg stateToken AccessTypeOffline in
      let pre :=
        ([ListenLoopback; Stdout "Opening browser for authentication...";
          StdoutURL authURL; Browser authURL]
         ++ match openBrowser E authURL with
            | Some e => [Stderr ("Warning: failed to open browser: " +:+ e)]
            | None => []
            end
         ++ [Stdout "Waiting for authorization..."; Select ctx])%list in
      match select sched (serve emptyChans reqs) ctx with
      | GotErr e =>
          (a, (pre ++ [ServerClose])%list,
           inl (Errorf_w ErrAuthenticationFailed (": " +:+ e)))
      | CtxDone =>
          (a, (pre ++ [ServerClose])%list, inl (mkErr (CtxErr ctx) (ctx_Err_text ctx)))
      | Timeout =>
          (a, (pre ++ [ServerClose])%list,
           inl (Errorf_w ErrAuthenticationFailed ": timeout waiting for authorization"))
      | GotCode code =>
          match Exchange E cfg ctx code with
          | inl e =>
              (a, (pre ++ [ExchangeCall ctx code; ServerClose])%list,
               inl (Errorf_w ErrAuthenticationFailed (": " +:+ e)))
          | inr token =>
              let '(fx, saveErr) := saveToken E a token in
              (a,
               (pre ++ [ExchangeCall ctx code] ++ fx
                ++ match saveErr with
                   | Some e => [Stderr ("Warning: failed to save token: " +:+ e)]
                   | None => []
                   end
                ++ [Stdout "Authentication successful!"; ServerClose])%list,
               inr token)
          end
      end
  end.

(** [GetToken]; [now] is the clock reading behind [token.Valid()]. *)
Definition GetToken (E : Env) (a : Authenticator) (now : Time) (ctx : Context)
           (reqs : list Arrival) (sched : nat)
  : Authenticator * list Effect * (auth_error + Token) :=
  let '(a1, fx1, err1) :=
    match config a with
    | None => LoadCredentials E a
    | Some _ => (a, [], None)
    end in
  match err1, config a1 with
  | Some err, _ => (a1, fx1, inl err)
  | None, None =>
      (* not reached: [LoadCredentials] sets the configuration when it
         returns no error *)
      (a1, fx1, inl (mkErr WrapsOS "nil config"))
  | None, Some cfg =>
      let '(fx2, loaded) := loadToken E a1 in
      match loaded with
      | inr token =>
          if Valid now token then (a1, (fx1 ++ fx2)%list, inr token)
          else
            match TokenSource_Token E cfg ctx token with
            | inr newToken =>
                let '(fx3, saveErr) := saveToken E a1 newToken in
                (a1,
                 (fx1 ++ fx2 ++ [RefreshCall ctx token] ++ fx3
                  ++ match saveErr with
                     | Some e =>
                         [Stderr ("Warning: failed to save refreshed token: " +:+ e)]
                     | None => []
                     end)%list,
                 inr newToken)
            | inl _ =>
                let '(a2, fx4, r) := authenticate E a1 cfg ctx reqs sched in
                (a2,
                 (fx1 ++ fx2
                  ++ [RefreshCall ctx token;
                      Stdout "Token refresh failed. Re-authentication required."]
                  ++ fx4)%list,
                 r)
            end
      | inl _ =>
          let '(a2, fx4, r) := authenticate E a1 cfg ctx reqs sched in
          (a2, (fx1 ++ fx2 ++ fx4)%list, r)
      end
  end.

End Auth.

(** ** Concrete environments and inputs, used to run the definitions *)

Module Samples.
Import GoInt GoStrings GoTime GoError.

(** The trimming of package strings, with a [ToLower] that leaves a text
    with non-ASCII bytes alone: the case tables of package unicode are not
    embedded, and they are not consulted on ASCII input. *)
Definition asciiOnly : Unicode :=
  {| TrimFunc_IsSpace := GoUTF8.TrimFunc GoUTF8.IsSpace;
     TrimRightFunc_IsSpace := GoUTF8.TrimRightFunc GoUTF8.IsSpace;
     Map_ToLower := fun s => s |}.

Definition noFraction : GoDuration.FracNs := fun _ _ _ => 0.

(** A toy calendar: every zone is on UTC time and every month has 31 days,
    so that the fields of a date are read off by division.  Its zone
    database knows UTC and Europe/Lisbon, and its parsers reject every
    text. *)
Definition daySeconds : Z := 86400.

Definition toyDays (t : Time) : Z := abs_ns t / Second / daySeconds.

Definition smallCalendar : Calendar :=
  {| Format := fun t _ => itoa (abs_ns t);
     Parse := fun _ _ => None;
     ParseInLocation := fun _ _ _ => None;
     Date := fun y mo d h mi s ns l =>
               mkTime ((((y - 1) * 372 + (mo - 1) * 31 + (d - 1)) * daySeconds
                        + h * 3600 + mi * 60 + s) * Second + ns) l;
     Year := fun t => toyDays t / 372 + 1;
     Month := fun t => toyDays t mod 372 / 31 + 1;
     Day := fun t => toyDays t mod 31 + 1;
     Clock := fun t =>
       let secs := abs_ns t / Second mod daySeconds in
       (secs / 3600, secs mod 3600 / 60, secs mod 60);
     Nanosecond_of := fun t => abs_ns t mod Second;
     LoadLocation := fun n =>
       if String.eqb n "UTC" then Some UTC
       else if String.eqb n "Europe/Lisbon" then Some (Loc "Europe/Lisbon")
       else None |}.

(** 15 January 2024, 12:00:00 UTC. *)
Definition noon : Time := Date smallCalendar 2024 1 15 12 0 0 0 UTC.

(** U+00A0, the no-break space, in UTF-8. *)
Definition nbsp : string := String (ascii_of_nat 194) (String (ascii_of_nat 160) "").

Definition envTZ (tz : string) : TimeParse.Env :=
  {| TimeParse.unicode := asciiOnly;
     TimeParse.cal := smallCalendar;
     TimeParse.Getenv := fun k => if String.eqb k "TZ" then tz else "";
     TimeParse.Local := Loc "Local";
     TimeParse.dateparse_ParseIn := fun _ _ => None |}.

(** [dateparse.ParseIn] of github.com/araddon/dateparse on three groups of
    digits separated by colons, the only texts this sample reads.  The
    library takes digits followed by a colon for a date written with
    colons, the month first, builds a layout of package time from the
    lengths of the groups (["1:02:06"] for one, two and two digits) and
    parses with [time.ParseInLocation], which reads a two-digit year below
    69 in this century: ["1:01:60"] is the first of January 2060 at
    midnight.  In the toy calendar every month has 31 days. *)
Definition colonDate (K : Calendar) (input : string) (loc : Location) : option Time :=
  match TimeParse.clockGroups input with
  | Some (mo, d, y) =>
      let month := digitsVal 0 mo in
      let day := digitsVal 0 d in
      let yy := digitsVal 0 y in
      if String.eqb y "" then None
      else if (1 <=? month) && (month <=? 12) && (1 <=? day) && (day <=? 31) then
        Some (Date K (if 69 <=? yy then 1900 + yy else 2000 + yy) month day 0 0 0 0 loc)
      else None
  | None => None
  end.

(** An environment whose flexible parser reads the dates written with
    colons. *)
Definition envDates : TimeParse.Env :=
  {| TimeParse.unicode := asciiOnly;
     TimeParse.cal := smallCalendar;
     TimeParse.Getenv := fun _ => "";
     TimeParse.Local := Loc "Local";
     TimeParse.dateparse_ParseIn := colonDate smallCalendar |}.

Definition meeting : Client.EventParams :=
  {| Client.Title := "Team Meeting"; Client.StartTime := noon;
     Client.Duration := 60 * Minute; Client.Description := "";
     Client.Location := "" |}.

Definition untitled : Client.EventParams :=
  {| Client.Title := ""; Client.StartTime := noon;
     Client.Duration := 60 * Minute; Client.Description := "";
     Client.Location := "" |}.

Definition unscheduled : Client.EventParams :=
  {| Client.Title := "Team Meeting"; Client.StartTime := zeroTime;
     Client.Duration := 60 * Minute; Client.Description := "";
     Client.Location := "" |}.

Definition instantaneous : Client.EventParams :=
  {| Client.Title := "Team Meeting"; Client.StartTime := noon;
     Client.Duration := 0; Client.Description := "";
     Client.Location := "" |}.

(** A provider that accepts every event and echoes it back. *)
Definition echoClient : Client.Client :=
  {| Client.service := fun _ ev _ => inr ev; Client.calendarID := "primary" |}.

Definition apiError (code : Z) (reasons : list string) : Client.goerror :=
  Client.Leaf
    (Some {| Client.Code := code; Client.Message := "provider says no";
             Client.Errors :=
               map (fun r => {| Client.Reason := r; Client.ItemMessage := "" |})
                   reasons |})
    "googleapi: Error".

Definition sampleConfig : Auth.Config :=
  {| Auth.ClientID := "test-client-id.apps.googleusercontent.com";
     Auth.ClientSecret := "test-client-secret";
     Auth.AuthURL := "https://accounts.google.com/o/oauth2/auth";
     Auth.TokenURL := "https://oauth2.googleapis.com/token";
     Auth.RedirectURL := "http://localhost";
     Auth.ConfigScopes := ["https://www.googleapis.com/auth/calendar.events"] |}.

Definition mkToken (access : string) (expiry : Time) : Auth.Token :=
  {| Auth.AccessToken := access; Auth.TokenType := "Bearer";
     Auth.RefreshToken := "refresh"; Auth.Expiry := expiry |}.

(** A machine whose token file holds [stored], whose token endpoint is
    unreachable, and whose loopback listener is bound to [port]. *)
Definition machine (stored : Auth.Token) (port : Z) : Auth.Env :=
  {| Auth.ReadFile := fun p =>
       if String.eqb p "token.json" then inr "token"
       else if String.eqb p "credentials.json" then inr "credentials"
       else inl "no such file or directory";
     Auth.WriteFile := fun _ _ _ => None;
     Auth.ConfigFromJSON := fun d =>
       if String.eqb d "credentials" then inr sampleConfig else inl "bad shape";
     Auth.Unmarshal := fun d =>
       if String.eqb d "token" then inr stored else inl "bad token";
     Auth.MarshalIndent := fun _ => inr "token";
     Auth.TokenSource_Token := fun _ _ _ => inl "unreachable";
     Auth.Exchange := fun _ _ code => inr (mkToken code noon);
     Auth.net_Listen := inr port;
     Auth.openBrowser := fun _ => None |}.

(** The same machine without its credentials file. *)
Definition machineWithoutCredentials (stored : Auth.Token) (port : Z) : Auth.Env :=
  {| Auth.ReadFile := fun p =>
       if String.eqb p "token.json" then inr "token"
       else inl ("open " ++ p ++ ": no such file or directory");
     Auth.WriteFile := Auth.WriteFile (machine stored port);
     Auth.ConfigFromJSON := Auth.ConfigFromJSON (machine stored port);
     Auth.Unmarshal := Auth.Unmarshal (machine stored port);
     Auth.MarshalIndent := Auth.MarshalIndent (machine stored port);
     Auth.TokenSource_Token := Auth.TokenSource_Token (machine stored port);
     Auth.Exchange := Auth.Exchange (machine stored port);
     Auth.net_Listen := Auth.net_Listen (machine stored port);
     Auth.openBrowser := Auth.openBrowser (machine stored port) |}.

Definition freshAuth : Auth.Authenticator :=
  Auth.NewAuthenticator "credentials.json" "token.json".

Definition readyAuth : Auth.Authenticator := Auth.set_config freshAuth sampleConfig.

Definition query (kvs : list (string * list string)) : Auth.Values :=
  list_to_map kvs.

End Samples.

(** ** Vocabulary of the properties *)

Module Spec.
Import GoInt GoStrings GoTime GoError.

(** A sub-error reason that stands for quota or rate limiting. *)
Definition quotaReason (r : string) : Prop :=
  r = "quotaExceeded" \/ r = "rateLimitExceeded" \/ r = "userRateLimitExceeded".

(** The environment of [E] with the variable [TZ] set to [tz]
    ([os.Setenv("TZ", tz)]). *)
Definition setTZ (E : TimeParse.Env) (tz : string) : TimeParse.Env :=
  {| TimeParse.unicode := TimeParse.unicode E;
     TimeParse.cal := TimeParse.cal E;
     TimeParse.Getenv := fun k => if String.eqb k "TZ" then tz else TimeParse.Getenv E k;
     TimeParse.Local := TimeParse.Local E;
     TimeParse.dateparse_ParseIn := TimeParse.dateparse_ParseIn E |}.

(** A byte that is ASCII and no white space. *)
Definition solid (c : ascii) : bool := isASCIIbyte c && negb (asciiSpace c).

(** The largest count of minutes that a [time.Duration] holds:
    [maxInt64 / Minute]. *)
Definition maxWholeMinutes : Z := 153722867.

(** The first two stages of the resolver, as [parseRelative] runs them on
    the lower-cased input: the relative-duration form behind its prefix
    test, then the relative-day form for today and for tomorrow. *)
Definition stageRelativeDuration (E : TimeParse.Env) (clock : Time) (input : string)
           (loc : Location) : option Time :=
  let input := ToLower (TimeParse.unicode E) input in
  if HasPrefix input "in " then TimeParse.parseInDuration input (In clock loc)
  else None.

Definition stageRelativeDay (E : TimeParse.Env) (clock : Time) (input : string)
           (loc : Location) : option Time :=
  let input := ToLower (TimeParse.unicode E) input in
  let today :=
    if HasPrefix input "today"
    then TimeParse.parseDayWithTime (TimeParse.cal E) input (In clock loc) 0 loc
    else None in
  match today with
  | Some t => Some t
  | None =>
      if HasPrefix input "tomorrow"
      then TimeParse.parseDayWithTime (TimeParse.cal E) input (In clock loc) 1 loc
      else None
  end.

(** The groups of a time of day of which one is out of range: an hour
    above 23, a minute above 59 or a second above 59. *)
Definition outOfRange (g : string * string * string) : Prop :=
  let '(h, m, sec) := g in
  23 < digitsVal 0 h \/ 59 < digitsVal 0 m \/ 59 < digitsVal 0 sec.

(** The general form rejects the input: neither [dateparse.ParseIn] nor any
    layout of the list parses it. *)
Definition generalFormRejects (E : TimeParse.Env) (input : string) (loc : Location)
  : Prop :=
  TimeParse.dateparse_ParseIn E input loc = None
  /\ forall layout, List.In layout TimeParse.formats ->
                    ParseInLocation (TimeParse.cal E) layout input loc = None.

(** The error of the general form for [input]. *)
Definition couldNotParse (input : string) : TimeParse.parse_error :=
  TimeParse.mkErr TimeParse.ErrInvalidDateFormat
    ("invalid date/time format: could not parse '" ++ input
     ++ "'. Try formats like '2024-01-15 14:00', '14:00', 'tomorrow 14:00', or 'in 2 hours'").

(** The error of an input that is empty once trimmed. *)
Definition emptyInput : TimeParse.parse_error :=
  TimeParse.mkErr TimeParse.ErrInvalidDateFormat "invalid date/time format: empty input".

(** A text made of white space only: each of its characters, read as Go
    reads a string, is white space for [unicode.IsSpace].  The empty text
    is one. *)
Definition whiteSpaceOnly (s : string) : bool :=
  forallb GoUTF8.IsSpace (GoUTF8.runes s).

(** A byte of a time of day: a digit or the colon. *)
Definition clockByte (c : ascii) : bool := isDigit c || Ascii.eqb c ":".

(** The configuration [GetToken] works with after its first step: the one
    already loaded, or the one that [LoadCredentials] reads. *)
Definition credentials (E : Auth.Env) (a : Auth.Authenticator) : option Auth.Config :=
  match Auth.config a with
  | Some cfg => Some cfg
  | None =>
      match Auth.ReadFile E (Auth.credentialsPath a) with
      | inr data =>
          match Auth.ConfigFromJSON E data with
          | inr cfg => Some cfg
          | inl _ => None
          end
      | inl _ => None
      end
  end.

(** The token persisted in the token file, when it reads and decodes. *)
Definition storedToken (E : Auth.Env) (a : Auth.Authenticator) : option Auth.Token :=
  match Auth.ReadFile E (Auth.tokenPath a) with
  | inr data =>
      match Auth.Unmarshal E data with
      | inr t => Some t
      | inl _ => None
      end
  | inl _ => None
  end.

Definition isFileRead (e : Auth.Effect) : bool :=
  match e with Auth.FileRead _ => true | _ => false end.

(** A call returned [t] from the cache: it returned [t] and did nothing
    but read files (no refresh, no listener, no wait on the context, no
    exchange). *)
Definition fromCache (r : Auth.Authenticator * list Auth.Effect
                          * (Auth.auth_error + Auth.Token))
           (t : Auth.Token) : Prop :=
  snd r = inr t /\ forallb isFileRead (snd (fst r)) = true.

(** Validity in the words of the specification: the access token is not
    empty and the expiry is strictly after [now]. *)
Definition validAsSpecified (now : Time) (t : Auth.Token) : bool :=
  negb (String.eqb (Auth.AccessToken t) "")
  && (abs_ns now <? abs_ns (Auth.Expiry t)).

(** The authorization URLs that a run opened in the browser. *)
Definition authURLs (fx : list Auth.Effect) : list Auth.AuthCodeURL_t :=
  flat_map (fun e => match e with Auth.Browser u => [u] | _ => [] end) fx.

(** The state values of the authorization URLs of a run. *)
Definition authStates (fx : list Auth.Effect) : list string :=
  map Auth.url_state (authURLs fx).

End Spec.

(** ** The token file on disk, [ClearToken], [HasSavedToken], [NewClient] *)

Module TokenStore.
Import GoInt GoStrings GoTime GoError Auth.

(** The errors of package os that the code tells apart. *)
Inductive os_error :=
| ENOENT
| EACCES.

Definition IsNotExist (e : os_error) : bool :=
  match e with ENOENT => true | EACCES => false end.

Definition os_error_text (op path : string) (e : os_error) : string :=
  op ++ " " ++ path ++ ": "
  ++ match e with
     | ENOENT => "no such file or directory"
     | EACCES => "permission denied"
     end.

(** The files the process can see: the content and the mode of each path,
    the paths that the process may neither create nor remove (a directory
    it may not write), and the umask.  The process owns the files and has
    no privilege that overrides their modes: it reads a file when the mode
    has the owner's read bit and writes one when it has the owner's write
    bit. *)
Record Disk := {
  files : gmap string (string * Z);
  locked : string -> bool;
  umask : Z
}.

(** The bits 0400 and 0200 of a mode. *)
Definition ownerRead (mode : Z) : bool := Z.testbit mode 8.
Definition ownerWrite (mode : Z) : bool := Z.testbit mode 7.

Definition os_Stat (d : Disk) (path : string) : option os_error :=
  match files d !! path with
  | Some _ => None
  | None => Some ENOENT
  end.

Definition os_ReadFile (d : Disk) (path : string) : os_error + string :=
  match files d !! path with
  | Some (data, mode) => if ownerRead mode then inr data else inl EACCES
  | None => inl ENOENT
  end.

(** [os.WriteFile]: a new file gets [perm] less the umask; an existing one
    is opened for writing, truncated, and keeps its mode. *)
Definition os_WriteFile (d : Disk) (path data : string) (perm : Z)
  : Disk * option os_error :=
  if locked d path then (d, Some EACCES)
  else
    match files d !! path with
    | Some (_, mode) =>
        if ownerWrite mode then
          ({| files := <[path := (data, mode)]> (files d);
              locked := locked d; umask := umask d |}, None)
        else (d, Some EACCES)
    | None =>
        ({| files := <[path := (data, Z.ldiff perm (umask d))]> (files d);
            locked := locked d; umask := umask d |}, None)
    end.

Definition os_Remove (d : Disk) (path : string) : Disk * option os_error :=
  match files d !! path with
  | None => (d, Some ENOENT)
  | Some _ =>
      if locked d path then (d, Some EACCES)
      else ({| files := delete path (files d);
               locked := locked d; umask := umask d |}, None)
  end.

(** The environment of the authenticator on a disk: the file operations of
    [E] are those of [d]. *)
Definition onDisk (d : Disk) (E : Env) : Env :=
  {| ReadFile := fun p =>
       match os_ReadFile d p with
       | inr data => inr data
       | inl e => inl (os_error_text "open" p e)
       end;
     WriteFile := fun p data perm =>
       match snd (os_WriteFile d p data perm) with
       | Some e => Some (os_error_text "open" p e)
       | None => None
       end;
     ConfigFromJSON := ConfigFromJSON E;
     Unmarshal := Unmarshal E;
     MarshalIndent := MarshalIndent E;
     TokenSource_Token := TokenSource_Token E;
     Exchange := Exchange E;
     net_Listen := net_Listen E;
     openBrowser := openBrowser E |}.

(** The disk after the writes of a call, in order. *)
Fixpoint written (fx : list Effect) (d : Disk) : Disk :=
  match fx with
  | [] => d
  | FileWrite p data perm :: rest => written rest (fst (os_WriteFile d p data perm))
  | _ :: rest => written rest d
  end.

(** [ClearToken]: the disk afterwards and the returned error. *)
Definition ClearToken (d : Disk) (a : Authenticator) : Disk * option string :=
  match os_Remove d (tokenPath a) with
  | (d', Some e) =>
      if negb (IsNotExist e)
      then (d', Some ("failed to remove token file: "
                      ++ os_error_text "remove" (tokenPath a) e))
      else (d', None)
  | (d', None) => (d', None)
  end.

Definition HasSavedToken (d : Disk) (a : Authenticator) : bool :=
  match os_Stat d (tokenPath a) with
  | None => true
  | Some _ => false
  end.

End TokenStore.

Module ClientSetup.
Import GoError Client.

(** [NewClient]; [newService] is the outcome of [calendar.NewService]. *)
Definition NewClient (newService : goerror + Service) (calendarID : string)
  : string + Client.Client :=
  match newService with
  | inl err => inl ("failed to create calendar service: " ++ Error_text err)
  | inr svc =>
      let calendarID := if String.eqb calendarID "" then "primary" else calendarID in
      inr {| service := svc; calendarID := calendarID |}
  end.

End ClientSetup.

(** ** Vocabulary of the further properties *)

Module Shapes.
Import GoInt GoStrings GoTime GoError Spec.

(** A string whose first and last bytes are ASCII and no white space. *)
Definition solidEnds (s : string) : bool :=
  match s, lastByte s with
  | String c _, Some d => solid c && solid d
  | _, _ => false
  end.

(** A byte that [ToLower] leaves alone on the ASCII path. *)
Definition lowerSafe (c : ascii) : bool :=
  isASCIIbyte c && negb ((65 <=? byte_of c) && (byte_of c <=? 90)).

(** The unit words of the relative-duration form, by the unit they select. *)
Definition hourWord (u : string) : bool :=
  String.eqb u "hour" || String.eqb u "hours" || String.eqb u "hr" || String.eqb u "hrs".

Definition minuteWord (u : string) : bool :=
  String.eqb u "minute" || String.eqb u "minutes" || String.eqb u "min"
  || String.eqb u "mins".

(** What may stand between the day word and the time of day: white space,
    or white space, ["at"] and at least one white space. *)
Inductive daySeparator : string -> Prop :=
| sep_space (ws : string) :
    forallb_str reSpace ws = true -> daySeparator ws
| sep_at (ws ws1 : string) :
    forallb_str reSpace ws = true -> ws1 <> "" -> forallb_str reSpace ws1 = true ->
    daySeparator (ws ++ "at" ++ ws1).

(** The groups of a time of day that are all in range. *)
Definition inRange (g : string * string * string) : Prop :=
  let '(h, m, sec) := g in
  digitsVal 0 h <= 23 /\ digitsVal 0 m <= 59 /\ digitsVal 0 sec <= 59.

(** The date of [now], shown in [loc], at the time of day of the groups. *)
Definition onTheDayOf (K : Calendar) (now : Time) (g : string * string * string)
           (loc : Location) : Time :=
  let '(h, m, sec) := g in
  Date K (Year K now) (Month K now) (Day K now)
       (digitsVal 0 h) (digitsVal 0 m) (digitsVal 0 sec) 0 loc.

(** The units of [time.ParseDuration] that are written in ASCII, with
    their length in nanoseconds. *)
Definition asciiUnits : list (string * Z) :=
  [("ns", 1); ("us", 1000); ("ms", 1000000); ("s", Second); ("m", Minute);
   ("h", Hour)].

(** A duration text made of whole components: each a count in digits and
    a unit.  [render] is the text, [total] the span it denotes. *)
Definition component : Type := string * (string * Z).

Definition wellFormed (c : component) : Prop :=
  let '(digits, (u, k)) := c in
  digits <> "" /\ forallb_str isDigit digits = true /\ List.In (u, k) asciiUnits.

Fixpoint render (cs : list component) : string :=
  match cs with
  | [] => ""
  | (digits, (u, _)) :: rest => digits ++ u ++ render rest
  end.

Fixpoint total (cs : list component) : Z :=
  match cs with
  | [] => 0
  | (digits, (_, k)) :: rest => digitsVal 0 digits * k + total rest
  end.

(** The code of the first request that carries one, and the first error
    sent: the message of the first request that carries no code, or the
    failure of [server.Serve] when it comes before. *)
Fixpoint firstCode (reqs : list Auth.Arrival) : option string :=
  match reqs with
  | [] => None
  | Auth.Request q :: rest =>
      if String.eqb (Auth.Get q "code") "" then firstCode rest
      else Some (Auth.Get q "code")
  | Auth.ServeFailed _ :: rest => firstCode rest
  end.

Fixpoint firstError (reqs : list Auth.Arrival) : option string :=
  match reqs with
  | [] => None
  | Auth.Request q :: rest =>
      if String.eqb (Auth.Get q "code") "" then
        Some (if String.eqb (Auth.Get q "error") ""
              then "no authorization code received" else Auth.Get q "error")
      else firstError rest
  | Auth.ServeFailed err :: _ => Some err
  end.

(** The path may be written: the process may create it, and the file, if
    there is one, has the owner's write bit. *)
Definition writable (d : TokenStore.Disk) (path : string) : bool :=
  negb (TokenStore.locked d path)
  && match TokenStore.files d !! path with
     | Some (_, mode) => TokenStore.ownerWrite mode
     | None => true
     end.

(** The mode of the file at [path] once [os.WriteFile] has written it with
    [perm]: the mode it had, or [perm] less the umask for a new file. *)
Definition modeAfterWrite (d : TokenStore.Disk) (path : string) (perm : Z) : Z :=
  match TokenStore.files d !! path with
  | Some (_, mode) => mode
  | None => Z.ldiff perm (TokenStore.umask d)
  end.

Definition isServerClose (e : Auth.Effect) : bool :=
  match e with Auth.ServerClose => true | _ => false end.

Definition isExchangeCall (e : Auth.Effect) : bool :=
  match e with Auth.ExchangeCall _ _ => true | _ => false end.

Definition isListen (e : Auth.Effect) : bool :=
  match e with Auth.ListenLoopback => true | _ => false end.

Definition isRefreshCall (e : Auth.Effect) : bool :=
  match e with Auth.RefreshCall _ _ => true | _ => false end.

End Shapes.

(** * Properties *)

(** ** Event submission *)

Section ClientProperties.
Import GoInt GoTime GoError Client.

Lemma validate_title (params : EventParams) :
  Title params = "" ->
  validateEventParams params
  = Some (mkErr ErrInvalidEventTime "invalid event time: title is required").
Proof.
  intros H. unfold validateEventParams. rewrite H. reflexivity.
Qed.

Lemma validate_start (params : EventParams) :
  Title params <> "" -> IsZero (StartTime params) = true ->
  validateEventParams params
  = Some (mkErr ErrInvalidEventTime "invalid event time: start time is required").
Proof.
  intros Ht Hz. unfold validateEventParams.
  destruct (String.eqb_spec (Title params) "") as [e|_]; [contradiction|].
  rewrite Hz. reflexivity.
Qed.

Lemma validate_duration (params : EventParams) :
  Title params <> "" -> IsZero (StartTime params) = false ->
  Duration params <= 0 ->
  validateEventParams params
  = Some (mkErr ErrInvalidEventTime "invalid event time: duration must be positive").
Proof.
  intros Ht Hz Hd. unfold validateEventParams.
  destruct (String.eqb_spec (Title params) "") as [e|_]; [contradiction|].
  rewrite Hz.
  destruct (Z.leb_spec (Duration params) 0) as [_|Hgt]; [reflexivity|lia].
Qed.

(** Validation rejects exactly the three kinds of request. *)
Lemma validate_rejects (params : EventParams) :
  Title params = "" \/ IsZero (StartTime params) = true \/ Duration params <= 0 ->
  exists detail,
    validateEventParams params
    = Some (mkErr ErrInvalidEventTime ("invalid event time: " ++ detail))
    /\ List.In detail ["title is required"; "start time is required";
                  "duration must be positive"].
Proof.
  intros H.
  destruct (String.eqb_spec (Title params) "") as [Ht|Ht].
  - exists "title is required". split; [now apply validate_title|simpl; auto].
  - destruct (IsZero (StartTime params)) eqn:Hz.
    + exists "start time is required".
      split; [now apply validate_start|simpl; auto].
    + exists "duration must be positive".
      split; [|simpl; auto].
      apply validate_duration; auto.
      destruct H as [H|[H|H]]; [contradiction|discriminate|exact H].
Qed.

Lemma validate_accepts (params : EventParams) :
  validateEventParams params = None ->
  Title params <> "" /\ IsZero (StartTime params) = false /\ 0 < Duration params.
Proof.
  unfold validateEventParams.
  destruct (String.eqb_spec (Title params) "") as [Ht|Ht]; [discriminate|].
  destruct (IsZero (StartTime params)); [discriminate|].
  destruct (Z.leb_spec (Duration params) 0); [discriminate|].
  auto.
Qed.

(** C3. A request with an empty title, a zero start or a duration that is
    not positive is refused with [ErrInvalidEventTime], the message naming
    the field, and nothing is sent to the provider.  A request that
    passes validation sends exactly one insertion, whose end is the
    RFC 3339 text of the instant [start + duration] (strictly after the
    start) and whose start is the text of [start]. *)
Theorem CreateEvent_validates_then_submits
        (K : Calendar) (c : Client) (ctx : Context) (params : EventParams) :
  (Title params = "" \/ IsZero (StartTime params) = true \/ Duration params <= 0
   -> exists detail,
      CreateEvent K c ctx params
      = ([], Return (inl (CalErr (mkErr ErrInvalidEventTime
                                ("invalid event time: " ++ detail)))))
      /\ List.In detail ["title is required"; "start time is required";
                         "duration must be positive"])
  /\ (Title params = ""
      -> CreateEvent K c ctx params
         = ([], Return (inl (CalErr (mkErr ErrInvalidEventTime
                                   "invalid event time: title is required")))))
  /\ (Title params <> "" -> IsZero (StartTime params) = true
      -> CreateEvent K c ctx params
         = ([], Return (inl (CalErr (mkErr ErrInvalidEventTime
                                   "invalid event time: start time is required")))))
  /\ (Title params <> "" -> IsZero (StartTime params) = false
      -> Duration params <= 0
      -> CreateEvent K c ctx params
         = ([], Return (inl (CalErr (mkErr ErrInvalidEventTime
                                   "invalid event time: duration must be positive")))))
  /\ (validateEventParams params = None
      -> exists ev endTime,
        fst (CreateEvent K c ctx params) = [EventsInsert (calendarID c) ev]
        /\ abs_ns endTime = abs_ns (StartTime params) + Duration params
        /\ tloc endTime = tloc (StartTime params)
        /\ abs_ns (StartTime params) < abs_ns endTime
        /\ option_map DateTime (End_ ev) = Some (Format K endTime RFC3339)
        /\ option_map DateTime (Start ev) = Some (Format K (StartTime params) RFC3339)
        /\ Summary ev = Title params).
Proof.
  split; [|repeat split].
  - intros H. destruct (validate_rejects _ H) as (detail & Hv & Hin).
    exists detail. unfold CreateEvent. rewrite Hv. auto.
  - intros H. unfold CreateEvent. now rewrite (validate_title _ H).
  - intros H1 H2. unfold CreateEvent. now rewrite (validate_start _ H1 H2).
  - intros H1 H2 H3. unfold CreateEvent. now rewrite (validate_duration _ H1 H2 H3).
  - intros Hv. destruct (validate_accepts _ Hv) as (_ & _ & Hd).
    exists (buildEvent K params), (Add (StartTime params) (Duration params)).
    unfold CreateEvent. rewrite Hv.
    repeat split; simpl; try lia.
    destruct (service c (calendarID c) (buildEvent K params) ctx); reflexivity.
Qed.

Lemma CreateEvent_validates_then_submits_witness :
  (exists detail,
      CreateEvent Samples.smallCalendar Samples.echoClient Canceled
                  Samples.instantaneous
      = ([], Return (inl (CalErr (mkErr ErrInvalidEventTime
                                ("invalid event time: " ++ detail))))))
  /\ CreateEvent Samples.smallCalendar Samples.echoClient Live Samples.untitled
  = ([], Return (inl (CalErr (mkErr ErrInvalidEventTime
                            "invalid event time: title is required"))))
  /\ CreateEvent Samples.smallCalendar Samples.echoClient Live Samples.unscheduled
     = ([], Return (inl (CalErr (mkErr ErrInvalidEventTime
                               "invalid event time: start time is required"))))
  /\ CreateEvent Samples.smallCalendar Samples.echoClient Live Samples.instantaneous
     = ([], Return (inl (CalErr (mkErr ErrInvalidEventTime
                               "invalid event time: duration must be positive"))))
  /\ exists ev endTime,
      fst (CreateEvent Samples.smallCalendar Samples.echoClient Live Samples.meeting)
      = [EventsInsert "primary" ev]
      /\ abs_ns endTime = abs_ns Samples.noon + 60 * Minute
      /\ option_map DateTime (End_ ev)
         = Some (Format Samples.smallCalendar endTime RFC3339).
Proof.
  split; [|split; [|split; [|split]]].
  - destruct (proj1 (CreateEvent_validates_then_submits
                    Samples.smallCalendar Samples.echoClient Canceled
                    Samples.instantaneous)) as (detail & H & _).
    + right; right. simpl. lia.
    + exists detail. exact H.
  - apply (proj1 (proj2 (CreateEvent_validates_then_submits
                    Samples.smallCalendar Samples.echoClient Live Samples.untitled))).
    reflexivity.
  - apply (proj1 (proj2 (proj2 (CreateEvent_validates_then_submits
                    Samples.smallCalendar Samples.echoClient Live
                    Samples.unscheduled))));
      [discriminate|reflexivity].
  - apply (proj1 (proj2 (proj2 (proj2 (CreateEvent_validates_then_submits
                    Samples.smallCalendar Samples.echoClient Live
                    Samples.instantaneous)))));
      [discriminate|reflexivity|simpl; lia].
  - destruct (proj2 (proj2 (proj2 (proj2 (CreateEvent_validates_then_submits
                    Samples.smallCalendar Samples.echoClient Live Samples.meeting))))
                eq_refl)
      as (ev & endTime & H1 & H2 & _ & _ & H5 & _).
    exists ev, endTime. repeat split; assumption.
Defined.

End ClientProperties.

Section ErrorMapping.
Import GoInt Client Spec.

Lemma isQuotaReason_spec (r : string) : isQuotaReason r = true <-> quotaReason r.
Proof.
  unfold isQuotaReason, quotaReason.
  rewrite !orb_true_iff, !String.eqb_eq. tauto.
Qed.

Lemma containsQuotaError_spec (apiErr : googleapi_Error) :
  containsQuotaError apiErr = true
  <-> exists item, List.In item (Errors apiErr) /\ quotaReason (Reason item).
Proof.
  unfold containsQuotaError.
  induction (Errors apiErr) as [|e rest IH]; simpl.
  - split; [discriminate|intros (? & [] & _)].
  - destruct (isQuotaReason (Reason e)) eqn:Hq.
    + split; [|reflexivity]. intros _. exists e. split; [now left|].
      now apply isQuotaReason_spec.
    + rewrite IH. split.
      * intros (item & Hin & Hr). exists item. auto.
      * intros (item & [->|Hin] & Hr).
        -- apply isQuotaReason_spec in Hr. congruence.
        -- exists item. auto.
Qed.

(** C4. The status of a structured provider error selects the failure:
    400 gives [ErrEventCreationFailed] with the provider's message, 401
    [ErrPermissionDenied], 403 [ErrQuotaExceeded] when one of the
    sub-errors has a quota or rate-limit reason and [ErrPermissionDenied]
    otherwise, 404 [ErrCalendarNotFound], 429 [ErrQuotaExceeded], every
    other status [ErrEventCreationFailed] with the message and the status
    code; an error with no structured provider error in its chain gives
    [ErrEventCreationFailed] with the text of that error. *)
Theorem wrapAPIError_mapping (err : goerror) :
  (forall apiErr, errors_As err = Some apiErr ->
     (Code apiErr = 400 ->
      wrapAPIError err
      = mkErr ErrEventCreationFailed
              ("failed to create event: invalid request - " ++ Message apiErr))
     /\ (Code apiErr = 401 ->
         wrapAPIError err
         = mkErr ErrPermissionDenied
             "permission denied: authentication expired, please re-authenticate")
     /\ (Code apiErr = 403 ->
         (exists item, List.In item (Errors apiErr) /\ quotaReason (Reason item)) ->
         wrapAPIError err
         = mkErr ErrQuotaExceeded "API quota exceeded: please try again later")
     /\ (Code apiErr = 403 ->
         (forall item, List.In item (Errors apiErr) -> ~ quotaReason (Reason item)) ->
         wrapAPIError err
         = mkErr ErrPermissionDenied
             "permission denied: you don't have permission to access this calendar")
     /\ (Code apiErr = 404 ->
         wrapAPIError err
         = mkErr ErrCalendarNotFound
             "calendar not found: check that the calendar ID is correct")
     /\ (Code apiErr = 429 ->
         wrapAPIError err
         = mkErr ErrQuotaExceeded
             "API quota exceeded: too many requests, please try again later")
     /\ (~ List.In (Code apiErr) [400; 401; 403; 404; 429] ->
         wrapAPIError err
         = mkErr ErrEventCreationFailed
             ("failed to create event: " ++ Message apiErr
              ++ " (code: " ++ itoa (Code apiErr) ++ ")")))
  /\ (errors_As err = None ->
      wrapAPIError err
      = mkErr ErrEventCreationFailed ("failed to create event: " ++ Error_text err)).
Proof.
  split.
  - intros apiErr HAs. unfold wrapAPIError. rewrite HAs.
    repeat split.
    + intros ->. reflexivity.
    + intros ->. reflexivity.
    + intros -> Hq. apply containsQuotaError_spec in Hq. simpl. now rewrite Hq.
    + intros -> Hq. simpl.
      destruct (containsQuotaError apiErr) eqn:Hc; [|reflexivity].
      apply containsQuotaError_spec in Hc. destruct Hc as (item & Hin & Hr).
      now destruct (Hq item Hin).
    + intros ->. reflexivity.
    + intros ->. reflexivity.
    + intros Hn. simpl in Hn.
      repeat match goal with
             | |- context [ (Code apiErr =? ?k) ] =>
                 destruct (Z.eqb_spec (Code apiErr) k); [exfalso; apply Hn; auto 10|]
             end.
      reflexivity.
  - intros HAs. unfold wrapAPIError. now rewrite HAs.
Qed.

Lemma wrapAPIError_mapping_witness :
  wrapAPIError (Wrap "Post: provider" (Samples.apiError 403 ["forbidden"; "quotaExceeded"]))
  = mkErr ErrQuotaExceeded "API quota exceeded: please try again later"
  /\ wrapAPIError (Samples.apiError 403 ["forbidden"])
     = mkErr ErrPermissionDenied
         "permission denied: you don't have permission to access this calendar"
  /\ wrapAPIError (Samples.apiError 400 [])
     = mkErr ErrEventCreationFailed
         "failed to create event: invalid request - provider says no"
  /\ wrapAPIError (Samples.apiError 401 [])
     = mkErr ErrPermissionDenied
         "permission denied: authentication expired, please re-authenticate"
  /\ wrapAPIError (Samples.apiError 404 [])
     = mkErr ErrCalendarNotFound
         "calendar not found: check that the calendar ID is correct"
  /\ wrapAPIError (Samples.apiError 429 [])
     = mkErr ErrQuotaExceeded
         "API quota exceeded: too many requests, please try again later"
  /\ wrapAPIError (Samples.apiError 500 [])
     = mkErr ErrEventCreationFailed
         "failed to create event: provider says no (code: 500)"
  /\ wrapAPIError (Leaf None "dial tcp: connection refused")
     = mkErr ErrEventCreationFailed
         "failed to create event: dial tcp: connection refused".
Proof.
  pose (at_ := fun code rs => proj1 (wrapAPIError_mapping (Samples.apiError code rs))
                                    _ eq_refl).
  split; [|split; [|split; [|split; [|split; [|split; [|split]]]]]].
  - apply (proj1 (wrapAPIError_mapping
                    (Wrap "Post: provider"
                          (Samples.apiError 403 ["forbidden"; "quotaExceeded"])))
                 _ eq_refl); [reflexivity|].
    eexists. split; [right; left; reflexivity|]. left. reflexivity.
  - apply (at_ 403 ["forbidden"]); [reflexivity|].
    intros item [<-|[]] [H|[H|H]]; discriminate H.
  - apply (at_ 400 []). reflexivity.
  - apply (at_ 401 []). reflexivity.
  - apply (at_ 404 []). reflexivity.
  - apply (at_ 429 []). reflexivity.
  - apply (at_ 500 []). simpl. intros H. decompose [or] H; discriminate || auto.
  - apply (proj2 (wrapAPIError_mapping (Leaf None "dial tcp: connection refused"))).
    reflexivity.
Defined.

End ErrorMapping.

(** ** Time zone resolution *)

Section ZoneResolution.
Import GoStrings GoTime TimeParse Spec.

Lemma getLocation_explicit (E : Env) (timezone : string) :
  timezone <> "" ->
  getLocation E timezone
  = match LoadLocation (cal E) timezone with
    | Some loc => inr loc
    | None => inl (mkErr ErrInvalidTimezone ("invalid timezone: " ++ timezone))
    end.
Proof.
  intros Hne. unfold getLocation.
  destruct (String.eqb_spec timezone "") as [e|_]; [contradiction|]. simpl.
  destruct (LoadLocation (cal E) timezone); reflexivity.
Qed.

(** C6. An explicit zone name that is not empty decides alone: the zone
    when the database knows the name, [ErrInvalidTimezone] when it does
    not, whatever [TZ] holds.  With no explicit name, a [TZ] that is set
    (not empty) decides in the same way.  With neither, the result is the
    system zone [time.Local], without error. *)
Theorem getLocation_priority (E : Env) (timezone : string) :
  (timezone <> "" ->
     (forall loc, LoadLocation (cal E) timezone = Some loc ->
                  getLocation E timezone = inr loc)
     /\ (LoadLocation (cal E) timezone = None ->
         getLocation E timezone
         = inl (mkErr ErrInvalidTimezone ("invalid timezone: " ++ timezone)))
     /\ (forall tz, getLocation (setTZ E tz) timezone = getLocation E timezone))
  /\ (timezone = "" -> Getenv E "TZ" <> "" ->
      (forall loc, LoadLocation (cal E) (Getenv E "TZ") = Some loc ->
                   getLocation E timezone = inr loc)
      /\ (LoadLocation (cal E) (Getenv E "TZ") = None ->
          getLocation E timezone
          = inl (mkErr ErrInvalidTimezone
                       ("invalid timezone: " ++ Getenv E "TZ"
                        ++ " (from TZ environment variable)"))))
  /\ (timezone = "" -> Getenv E "TZ" = "" ->
      getLocation E timezone = inr (Local E)).
Proof.
  split; [|split].
  - intros Hne. split; [|split].
    + intros loc H. rewrite getLocation_explicit, H; auto.
    + intros H. rewrite getLocation_explicit, H; auto.
    + intros tz. rewrite !getLocation_explicit; auto.
  - intros -> Hne. unfold getLocation. simpl.
    destruct (String.eqb_spec (Getenv E "TZ") "") as [e|_]; [contradiction|]. simpl.
    split; intros; [rewrite H|rewrite H]; reflexivity.
  - intros -> He. unfold getLocation. simpl. rewrite He. reflexivity.
Qed.

Lemma getLocation_priority_witness :
  (getLocation (Samples.envTZ "Mars/Olympus") "Europe/Lisbon" = inr (Loc "Europe/Lisbon")
   /\ getLocation (Samples.envTZ "UTC") "Mars/Olympus"
      = inl (mkErr ErrInvalidTimezone "invalid timezone: Mars/Olympus"))
  /\ (getLocation (Samples.envTZ "Europe/Lisbon") "" = inr (Loc "Europe/Lisbon")
      /\ getLocation (Samples.envTZ "Mars/Olympus") ""
         = inl (mkErr ErrInvalidTimezone
                      "invalid timezone: Mars/Olympus (from TZ environment variable)"))
  /\ getLocation (Samples.envTZ "") "" = inr (Loc "Local").
Proof.
  split; [split|split; [split|]].
  - apply (proj1 (proj1 (getLocation_priority (Samples.envTZ "Mars/Olympus")
                                              "Europe/Lisbon")
                        ltac:(discriminate))).
    reflexivity.
  - apply (proj1 (proj2 (proj1 (getLocation_priority (Samples.envTZ "UTC")
                                                     "Mars/Olympus")
                               ltac:(discriminate)))).
    reflexivity.
  - apply (proj1 (proj1 (proj2 (getLocation_priority (Samples.envTZ "Europe/Lisbon") ""))
                        eq_refl ltac:(discriminate))).
    reflexivity.
  - apply (proj2 (proj1 (proj2 (getLocation_priority (Samples.envTZ "Mars/Olympus") ""))
                        eq_refl ltac:(discriminate))).
    reflexivity.
  - apply (proj2 (proj2 (getLocation_priority (Samples.envTZ "") "")) eq_refl eq_refl).
Defined.

End ZoneResolution.

(** ** Facts about the string helpers *)

Section StringFacts.
Import GoInt GoStrings Spec.

Lemma append_cons (c : ascii) (s t : string) : String c s ++ t = String c (s ++ t).
Proof. reflexivity. Qed.

Lemma append_nil_l (t : string) : "" ++ t = t.
Proof. reflexivity. Qed.

Lemma append_nil_r (s : string) : s ++ "" = s.
Proof.
  induction s as [|c s IH]; [reflexivity|]. rewrite append_cons. congruence.
Qed.

Lemma rev_str_rev (s a b : string) : rev_str (rev_str s a) b = rev_str a (s ++ b).
Proof.
  revert a b. induction s as [|c s IH]; intros a b; simpl; [reflexivity|].
  now rewrite IH, append_cons.
Qed.

Lemma rev_str_involutive (s : string) : rev_str (rev_str s "") "" = s.
Proof. rewrite rev_str_rev. simpl. apply append_nil_r. Qed.

Lemma forallb_str_rev (p : ascii -> bool) (s acc : string) :
  forallb_str p (rev_str s acc) = forallb_str p s && forallb_str p acc.
Proof.
  revert acc. induction s as [|c s IH]; intros acc; simpl; [reflexivity|].
  rewrite IH. simpl. destruct (p c), (forallb_str p s); reflexivity.
Qed.

Lemma forallb_str_app (p : ascii -> bool) (a b : string) :
  forallb_str p (a ++ b) = forallb_str p a && forallb_str p b.
Proof.
  induction a as [|c a IH]; [reflexivity|].
  rewrite append_cons. simpl. rewrite IH. now rewrite andb_assoc.
Qed.

Lemma forallb_str_impl (p q : ascii -> bool) (s : string) :
  (forall c, p c = true -> q c = true) ->
  forallb_str p s = true -> forallb_str q s = true.
Proof.
  intros Hpq. induction s as [|c s IH]; simpl; [reflexivity|].
  rewrite !andb_true_iff. intros [H1 H2]. auto.
Qed.

(** [span] cuts the string in two, the first part satisfying the test. *)
Lemma span_spec (p : ascii -> bool) (s a b : string) :
  span p s = (a, b) ->
  s = a ++ b /\ forallb_str p a = true
  /\ match b with String c _ => p c = false | EmptyString => True end.
Proof.
  revert a b. induction s as [|c s IH]; intros a b; simpl.
  - intros [= <- <-]. auto.
  - destruct (p c) eqn:Hc.
    + destruct (span p s) as [a' b'] eqn:Hs. intros [= <- <-].
      destruct (IH _ _ eq_refl) as (-> & Ha & Hb).
      rewrite append_cons. simpl. rewrite Hc, Ha. auto.
    + intros [= <- <-]. rewrite append_nil_l. simpl. auto.
Qed.

Lemma span_all (p : ascii -> bool) (s : string) :
  forallb_str p s = true -> span p s = (s, "").
Proof.
  induction s as [|c s IH]; simpl; [reflexivity|].
  rewrite andb_true_iff. intros [-> Hs]. now rewrite (IH Hs).
Qed.

Lemma dropWhile_all (p : ascii -> bool) (s : string) :
  forallb_str p s = true -> dropWhile p s = "".
Proof. intros H. unfold dropWhile. now rewrite span_all. Qed.

Lemma dropWhile_stop (p : ascii -> bool) (c : ascii) (s : string) :
  p c = false -> dropWhile p (String c s) = String c s.
Proof. intros H. unfold dropWhile. simpl. now rewrite H. Qed.

Lemma lastByte_solid (s : string) :
  s <> "" -> forallb_str solid s = true ->
  exists d r, rev_str s "" = String d r /\ solid d = true.
Proof.
  intros Hne Hall.
  pose proof (forallb_str_rev solid s "") as Hr.
  rewrite Hall in Hr. simpl in Hr.
  destruct (rev_str s "") as [|d r] eqn:Hrev.
  - exfalso. apply Hne. rewrite <- (rev_str_involutive s), Hrev. reflexivity.
  - simpl in Hr. apply andb_true_iff in Hr. destruct Hr as [Hd _]. eauto.
Qed.

(** [TrimSpace] leaves alone a string of ASCII bytes with no white space. *)
Lemma TrimSpace_solid (U : Unicode) (s : string) :
  forallb_str solid s = true -> TrimSpace U s = s.
Proof.
  intros Hall. destruct s as [|c s]; [reflexivity|].
  assert (Hc : solid c = true) by (simpl in Hall; now apply andb_true_iff in Hall).
  unfold solid in Hc. apply andb_true_iff in Hc. destruct Hc as [Ha Hs].
  apply negb_true_iff in Hs.
  unfold TrimSpace. rewrite (dropWhile_stop _ _ _ Hs). rewrite Ha.
  destruct (lastByte_solid (String c s)) as (d & r & Hrev & Hd);
    [discriminate|assumption|].
  unfold solid in Hd. apply andb_true_iff in Hd. destruct Hd as [Hda Hds].
  apply negb_true_iff in Hds.
  assert (Hend : dropWhileEnd asciiSpace (String c s) = String c s).
  { unfold dropWhileEnd. rewrite Hrev, (dropWhile_stop _ _ _ Hds), <- Hrev.
    apply rev_str_involutive. }
  rewrite Hend. unfold lastByte. rewrite Hrev, Hda. reflexivity.
Qed.

(** [TrimSpace] empties a string of ASCII white space. *)
Lemma TrimSpace_blank (U : Unicode) (s : string) :
  forallb_str asciiSpace s = true -> TrimSpace U s = "".
Proof.
  intros H. unfold TrimSpace. now rewrite (dropWhile_all _ _ H).
Qed.

Lemma isDigit_range (c : ascii) :
  isDigit c = true -> 0 <= digitVal c <= 9.
Proof.
  unfold isDigit, digitVal. rewrite andb_true_iff, !Z.leb_le. lia.
Qed.

Lemma isDigit_solid (c : ascii) : isDigit c = true -> solid c = true.
Proof.
  unfold isDigit, solid, isASCIIbyte, asciiSpace.
  rewrite andb_true_iff, !Z.leb_le. intros [H1 H2].
  apply andb_true_iff. split; [apply Z.ltb_lt; lia|].
  apply negb_true_iff.
  repeat (apply orb_false_iff; split); apply Z.eqb_neq; lia.
Qed.

Lemma digitsVal_lower (s : string) (acc : Z) :
  forallb_str isDigit s = true -> 0 <= acc -> acc <= digitsVal acc s.
Proof.
  revert acc. induction s as [|c s IH]; intros acc; simpl; [lia|].
  rewrite andb_true_iff. intros [Hc Hs] Hacc.
  pose proof (isDigit_range _ Hc).
  specialize (IH (acc * 10 + digitVal c) Hs). lia.
Qed.

(** [Atoi] on a non-empty string of digits whose value fits an [int64]. *)
Lemma Atoi_digits (s : string) :
  s <> "" -> forallb_str isDigit s = true -> digitsVal 0 s <= maxInt64 ->
  Atoi s = Some (digitsVal 0 s).
Proof.
  intros Hne Hd Hmax. destruct s as [|c s]; [contradiction|].
  assert (Hc : isDigit c = true) by (simpl in Hd; now apply andb_true_iff in Hd).
  unfold Atoi.
  assert (Hm : Ascii.eqb c "-" = false).
  { apply Ascii.eqb_neq. intros ->. discriminate Hc. }
  assert (Hp : Ascii.eqb c "+" = false).
  { apply Ascii.eqb_neq. intros ->. discriminate Hc. }
  rewrite Hm, Hp, Hd.
  pose proof (digitsVal_lower _ 0 Hd ltac:(lia)) as Hlo.
  unfold inInt64.
  replace (minInt64 <=? digitsVal 0 (String c s)) with true
    by (symmetry; apply Z.leb_le; unfold minInt64; lia).
  replace (digitsVal 0 (String c s) <=? maxInt64) with true
    by (symmetry; now apply Z.leb_le).
  reflexivity.
Qed.

Lemma wrap64_small (z : Z) : minInt64 <= z <= maxInt64 -> wrap64 z = z.
Proof.
  unfold wrap64, minInt64, maxInt64. intros H.
  rewrite Z.mod_small; lia.
Qed.

End StringFacts.

(** ** The duration parser *)

Section DurationParser.
Import GoInt GoStrings GoTime TimeParse Spec.

Lemma digits_solid (s : string) :
  forallb_str isDigit s = true -> forallb_str solid s = true.
Proof. apply forallb_str_impl, isDigit_solid. Qed.

Lemma maxWholeMinutes_tight :
  maxWholeMinutes * Minute <= maxInt64 < (maxWholeMinutes + 1) * Minute.
Proof. vm_compute. split; [discriminate|reflexivity]. Qed.

(** C9, as the code has it.  A non-empty string of digits whose value [N]
    is at most [maxWholeMinutes] parses to the span of [N] minutes, and the
    whole minutes of that span are [N] again; ["30"] and ["30m"] both parse
    to 1800 seconds. *)
Theorem ParseDuration_bare_minutes (U : Unicode) (F : GoDuration.FracNs) (s : string) :
  (s <> "" -> forallb_str isDigit s = true -> digitsVal 0 s <= maxWholeMinutes ->
     ParseDuration U F s = inr (digitsVal 0 s * Minute)
     /\ wholeMinutes (digitsVal 0 s * Minute) = digitsVal 0 s)
  /\ ParseDuration U F "30" = inr (1800 * Second)
  /\ ParseDuration U F "30m" = inr (1800 * Second)
  /\ wholeMinutes (1800 * Second) = 30.
Proof.
  split; [|repeat split].
  intros Hne Hd Hmax.
  pose proof (digitsVal_lower _ 0 Hd ltac:(lia)) as Hlo.
  assert (HA : Atoi s = Some (digitsVal 0 s)).
  { apply Atoi_digits; auto. unfold maxWholeMinutes, maxInt64 in *. lia. }
  split.
  - unfold ParseDuration. rewrite (TrimSpace_solid U s (digits_solid _ Hd)).
    destruct (String.eqb_spec s "") as [e|_]; [contradiction|].
    rewrite HA. unfold mul64. rewrite wrap64_small; [reflexivity|].
    unfold minInt64, maxInt64, maxWholeMinutes, Minute, Second in *. lia.
  - unfold wholeMinutes, Minute, Second. rewrite Z.quot_mul; lia.
Qed.

Lemma ParseDuration_bare_minutes_witness :
  ParseDuration Samples.asciiOnly Samples.noFraction "90" = inr (90 * Minute)
  /\ wholeMinutes (90 * Minute) = 90.
Proof.
  apply (proj1 (ParseDuration_bare_minutes Samples.asciiOnly Samples.noFraction "90"));
    [discriminate|reflexivity|vm_compute; discriminate].
Defined.

(** C9 as stated fails: the digits of [maxWholeMinutes + 1] parse without
    error, and the product wraps around to a negative span. *)
Lemma ParseDuration_bare_minutes_overflow :
  forallb_str isDigit "153722868" = true
  /\ digitsVal 0 "153722868" = 153722868
  /\ ParseDuration Samples.asciiOnly Samples.noFraction "153722868"
     = inr (-9223371993709551616)
  /\ ParseDuration Samples.asciiOnly Samples.noFraction "153722868"
     <> inr (153722868 * Minute).
Proof.
  repeat split. vm_compute. discriminate.
Qed.

End DurationParser.

(** ** The time resolver: order of the stages *)

Section ResolverStages.
Import GoInt GoStrings GoTime TimeParse Spec.

Lemma parseRelative_stages (E : Env) (clock : Time) (input : string) (loc : Location) :
  parseRelative E clock input loc
  = match stageRelativeDuration E clock input loc with
    | Some t => Some t
    | None => stageRelativeDay E clock input loc
    end.
Proof. reflexivity. Qed.

Lemma ParseTime_resolved (E : Env) (clock1 clock2 : Time) (input timezone : string)
      (loc : Location) :
  TrimSpace (unicode E) input <> "" ->
  getLocation E timezone = inr loc ->
  ParseTime E clock1 clock2 input timezone
  = match parseRelative E clock1 (TrimSpace (unicode E) input) loc with
    | Some t => inr t
    | None =>
        match parseTimeOnly E clock2 (TrimSpace (unicode E) input) loc with
        | Some t => inr t
        | None => parseStandard E (TrimSpace (unicode E) input) loc
        end
    end.
Proof.
  intros Hne Hloc. unfold ParseTime.
  destruct (String.eqb_spec (TrimSpace (unicode E) input) "") as [e|_];
    [contradiction|].
  now rewrite Hloc.
Qed.

(** C7. On the trimmed input [s], once the zone is resolved, the stages
    are tried in the order relative duration, relative day, time only,
    general form, and the first one that matches gives the result: a later
    stage is consulted only when all the earlier ones have failed, and the
    general form decides alone when the three patterns have failed.  An
    empty [s] or an unresolved zone fails before any stage. *)
Theorem ParseTime_first_match_wins
        (E : Env) (clock1 clock2 : Time) (input timezone : string) :
  let s := TrimSpace (unicode E) input in
  (s = "" ->
   ParseTime E clock1 clock2 input timezone
   = inl (mkErr ErrInvalidDateFormat "invalid date/time format: empty input"))
  /\ (s <> "" -> forall err, getLocation E timezone = inl err ->
      ParseTime E clock1 clock2 input timezone = inl err)
  /\ (s <> "" -> forall loc, getLocation E timezone = inr loc ->
      (forall t, stageRelativeDuration E clock1 s loc = Some t ->
                 ParseTime E clock1 clock2 input timezone = inr t)
      /\ (stageRelativeDuration E clock1 s loc = None ->
          forall t, stageRelativeDay E clock1 s loc = Some t ->
                    ParseTime E clock1 clock2 input timezone = inr t)
      /\ (stageRelativeDuration E clock1 s loc = None ->
          stageRelativeDay E clock1 s loc = None ->
          forall t, parseTimeOnly E clock2 s loc = Some t ->
                    ParseTime E clock1 clock2 input timezone = inr t)
      /\ (stageRelativeDuration E clock1 s loc = None ->
          stageRelativeDay E clock1 s loc = None ->
          parseTimeOnly E clock2 s loc = None ->
          ParseTime E clock1 clock2 input timezone = parseStandard E s loc)).
Proof.
  intros s. split; [|split].
  - intros Hs. unfold ParseTime. fold s. now rewrite Hs.
  - intros Hne err Hloc. unfold ParseTime. fold s.
    destruct (String.eqb_spec s "") as [e|_]; [contradiction|]. now rewrite Hloc.
  - intros Hne loc Hloc.
    rewrite (ParseTime_resolved E clock1 clock2 input timezone loc Hne Hloc).
    fold s. rewrite parseRelative_stages.
    split; [|split; [|split]].
    + intros t H1. now rewrite H1.
    + intros H1 t H2. now rewrite H1, H2.
    + intros H1 H2 t H3. now rewrite H1, H2, H3.
    + intros H1 H2 H3. now rewrite H1, H2, H3.
Qed.

Lemma ParseTime_first_match_wins_witness :
  ParseTime (Samples.envTZ "") Samples.noon Samples.noon "" "UTC"
  = inl (mkErr ErrInvalidDateFormat "invalid date/time format: empty input")
  /\ ParseTime (Samples.envTZ "") Samples.noon Samples.noon "14:00" "Mars/Olympus"
     = inl (mkErr ErrInvalidTimezone "invalid timezone: Mars/Olympus")
  /\ ParseTime (Samples.envTZ "") Samples.noon Samples.noon " In 2 Hours " "UTC"
     = inr (Add Samples.noon (2 * Hour))
  /\ ParseTime (Samples.envTZ "") Samples.noon Samples.noon "Tomorrow at 9:30" "UTC"
     = inr (Date Samples.smallCalendar 2024 1 16 9 30 0 0 UTC)
  /\ ParseTime (Samples.envTZ "") Samples.noon Samples.noon "14:00" "UTC"
     = inr (Date Samples.smallCalendar 2024 1 15 14 0 0 0 UTC)
  /\ ParseTime (Samples.envTZ "") Samples.noon Samples.noon "next week" "UTC"
     = parseStandard (Samples.envTZ "") "next week" UTC.
Proof.
  pose (thm := fun input tz =>
          ParseTime_first_match_wins (Samples.envTZ "") Samples.noon Samples.noon
                                     input tz).
  split; [|split; [|split; [|split; [|split]]]].
  - apply (proj1 (thm "" "UTC")). reflexivity.
  - apply (proj1 (proj2 (thm "14:00" "Mars/Olympus"))); [discriminate|reflexivity].
  - apply (proj1 (proj2 (proj2 (thm " In 2 Hours " "UTC"))
                        ltac:(discriminate) UTC eq_refl)).
    reflexivity.
  - apply (proj1 (proj2 (proj2 (proj2 (thm "Tomorrow at 9:30" "UTC"))
                               ltac:(discriminate) UTC eq_refl)));
      reflexivity.
  - apply (proj1 (proj2 (proj2 (proj2 (proj2 (thm "14:00" "UTC"))
                                      ltac:(discriminate) UTC eq_refl))));
      reflexivity.
  - apply (proj2 (proj2 (proj2 (proj2 (proj2 (thm "next week" "UTC"))
                                      ltac:(discriminate) UTC eq_refl))));
      reflexivity.
Defined.

End ResolverStages.

(** ** White space beyond ASCII *)

Section UnicodeSpace.
Import GoInt GoStrings GoUTF8 Spec.

Lemma DecodeRune_ascii (c : ascii) (s : string) :
  isASCIIbyte c = true -> DecodeRuneInString (String c s) = (byte_of c, 1%nat).
Proof.
  unfold isASCIIbyte. rewrite Z.ltb_lt. intros Hc.
  unfold DecodeRuneInString. cbn [String.length Nat.ltb Nat.leb].
  change (byteAt (String c s) 0) with (byte_of c).
  unfold first. destruct (Z.leb_spec (byte_of c) 0x7F) as [_|H]; [reflexivity|lia].
Qed.

Lemma IsSpace_ascii (c : ascii) :
  isASCIIbyte c = true -> IsSpace (byte_of c) = asciiSpace c.
Proof.
  unfold isASCIIbyte. rewrite Z.ltb_lt. intros Hc. unfold IsSpace, asciiSpace.
  destruct (Z.leb_spec (byte_of c) 0xFF) as [_|H]; [|lia].
  destruct (Z.eqb_spec (byte_of c) 0x85) as [H|_]; [lia|].
  destruct (Z.eqb_spec (byte_of c) 0xA0) as [H|_]; [lia|].
  now rewrite !orb_false_r.
Qed.

Lemma asciiSpace_ascii (c : ascii) : asciiSpace c = true -> isASCIIbyte c = true.
Proof.
  unfold asciiSpace, isASCIIbyte. rewrite !orb_true_iff, !Z.eqb_eq, Z.ltb_lt. lia.
Qed.

(** The runes of a string that starts with an ASCII byte. *)
Lemma runes_ascii (c : ascii) (s : string) :
  isASCIIbyte c = true -> runes (String c s) = byte_of c :: runes s.
Proof.
  intros Hc. unfold runes. cbn [String.length runesOf].
  now rewrite (DecodeRune_ascii c s Hc).
Qed.

(** When [f] holds of every rune, [indexFunc] finds none to stop at. *)
Lemma indexFunc_all (f : Z -> bool) (fuel : nat) (s : string) :
  forallb f (runesOf fuel s) = true -> indexFunc f fuel s = None.
Proof.
  revert s. induction fuel as [|k IH]; intros s; [reflexivity|].
  destruct s as [|c s']; [reflexivity|]. cbn [runesOf indexFunc].
  destruct (DecodeRuneInString (String c s')) as [r size].
  cbn [forallb]. rewrite andb_true_iff. intros [Hr Hrest].
  rewrite Hr. now apply IH.
Qed.

(** [strings.TrimSpace] leaves nothing of a text made of white space, in
    ASCII or not. *)
Lemma TrimSpace_whiteSpaceOnly (U : Unicode) (s : string) :
  stdTrimming U -> whiteSpaceOnly s = true -> TrimSpace U s = "".
Proof.
  intros HU. induction s as [|c s' IH]; [reflexivity|].
  intros Hw. destruct (asciiSpace c) eqn:Hc.
  - assert (Hs' : whiteSpaceOnly s' = true).
    { unfold whiteSpaceOnly in *. rewrite (runes_ascii c s' (asciiSpace_ascii c Hc)) in Hw.
      cbn [forallb] in Hw. now apply andb_true_iff in Hw. }
    specialize (IH Hs'). unfold TrimSpace, dropWhile in *. cbn [span].
    rewrite Hc. destruct (span asciiSpace s') as [ws rest]. exact IH.
  - unfold TrimSpace. rewrite (dropWhile_stop _ _ _ Hc).
    destruct (isASCIIbyte c) eqn:Ha.
    + exfalso. unfold whiteSpaceOnly in Hw. rewrite (runes_ascii c s' Ha) in Hw.
      cbn [forallb] in Hw. apply andb_true_iff in Hw. destruct Hw as [Hw _].
      rewrite (IsSpace_ascii c Ha) in Hw. congruence.
    + rewrite (proj1 (HU (String c s'))). unfold TrimFunc, TrimLeftFunc.
      now rewrite (indexFunc_all IsSpace _ _ Hw).
Qed.

End UnicodeSpace.

(** ** The time resolver: rejected inputs *)

Section ResolverRejects.
Import GoInt GoStrings GoTime TimeParse Spec.

Lemma digit_clockByte (c : ascii) : isDigit c = true -> clockByte c = true.
Proof. unfold clockByte. now intros ->. Qed.

Lemma clockByte_cases (c : ascii) :
  clockByte c = true -> 48 <= byte_of c <= 58.
Proof.
  unfold clockByte, isDigit. rewrite orb_true_iff, andb_true_iff, !Z.leb_le.
  intros [H|H]; [lia|]. apply Ascii.eqb_eq in H. subst c. vm_compute.
  split; discriminate.
Qed.

Lemma clockByte_solid (c : ascii) : clockByte c = true -> solid c = true.
Proof.
  intros H. apply clockByte_cases in H.
  unfold solid, isASCIIbyte, asciiSpace.
  apply andb_true_iff. split; [apply Z.ltb_lt; lia|].
  apply negb_true_iff.
  repeat (apply orb_false_iff; split); apply Z.eqb_neq; lia.
Qed.

Lemma clockByte_lower (c : ascii) :
  clockByte c = true -> isASCIIbyte c = true /\ lowerByte c = c.
Proof.
  intros H. apply clockByte_cases in H. unfold isASCIIbyte, lowerByte.
  split; [apply Z.ltb_lt; lia|].
  replace (65 <=? byte_of c) with false by (symmetry; apply Z.leb_gt; lia).
  reflexivity.
Qed.

(** [ToLower] leaves alone a string of digits and colons. *)
Lemma ToLower_clock (U : Unicode) (s : string) :
  forallb_str clockByte s = true -> ToLower U s = s.
Proof.
  intros H. unfold ToLower.
  assert (Ha : forallb_str isASCIIbyte s = true).
  { revert H. apply forallb_str_impl. intros c Hc. now apply clockByte_lower. }
  rewrite Ha. clear Ha.
  induction s as [|c s IH]; [reflexivity|].
  simpl in *. apply andb_true_iff in H. destruct H as [Hc Hs].
  rewrite (proj2 (clockByte_lower _ Hc)), (IH Hs). reflexivity.
Qed.

Lemma HasPrefix_cons (c p : ascii) (s ps : string) :
  HasPrefix (String c s) (String p ps) = if Ascii.eqb p c then HasPrefix s ps else false.
Proof. reflexivity. Qed.

(** A string that starts with a digit has none of the three prefixes. *)
Lemma digit_no_keyword (c : ascii) (s : string) :
  isDigit c = true ->
  HasPrefix (String c s) "in " = false
  /\ HasPrefix (String c s) "today" = false
  /\ HasPrefix (String c s) "tomorrow" = false.
Proof.
  intros Hc.
  assert (Hi : Ascii.eqb "i" c = false)
    by (apply Ascii.eqb_neq; intros <-; discriminate Hc).
  assert (Ht : Ascii.eqb "t" c = false)
    by (apply Ascii.eqb_neq; intros <-; discriminate Hc).
  rewrite !HasPrefix_cons, Hi, Ht. auto.
Qed.

(** The groups of a string that has the shape of a time of day. *)
Lemma clockGroups_shape (s h m sec : string) :
  clockGroups s = Some (h, m, sec) ->
  forallb_str isDigit h = true /\ (1 <= String.length h <= 2)%nat
  /\ forallb_str isDigit m = true /\ String.length m = 2%nat
  /\ forallb_str isDigit sec = true /\ (String.length sec <= 2)%nat
  /\ forallb_str clockByte s = true
  /\ exists c s', s = String c s' /\ isDigit c = true.
Proof.
  unfold clockGroups.
  destruct (span isDigit s) as [h' r] eqn:H1.
  apply span_spec in H1. destruct H1 as (Hs & Hh & _).
  destruct ((String.length h' =? 1)%nat || (String.length h' =? 2)%nat) eqn:Hlen;
    [|discriminate].
  assert (Hl : (1 <= String.length h' <= 2)%nat).
  { apply orb_true_iff in Hlen. destruct Hlen as [e|e]; apply Nat.eqb_eq in e; lia. }
  destruct r as [|c1 r1]; [discriminate|].
  destruct (Ascii.eqb_spec c1 ":") as [->|]; [|discriminate].
  destruct (span isDigit r1) as [m' r2] eqn:H2.
  apply span_spec in H2. destruct H2 as (Hr1 & Hm & _).
  destruct (Nat.eqb_spec (String.length m') 2) as [Hlm|]; [|discriminate].
  assert (Hfirst : exists c s', s = String c s' /\ isDigit c = true).
  { destruct h' as [|c h'']; [simpl in Hl; lia|].
    exists c, (h'' ++ String ":" r1). split; [now rewrite Hs|].
    simpl in Hh. now apply andb_true_iff in Hh. }
  assert (Hcb : forall d, forallb_str isDigit d = true -> forallb_str clockByte d = true)
    by (intros d; apply forallb_str_impl, digit_clockByte).
  destruct r2 as [|c2 r3].
  - intros [= <- <- <-]. repeat split; auto; try lia.
    rewrite Hs, Hr1, forallb_str_app. simpl. rewrite forallb_str_app.
    rewrite (Hcb _ Hh), (Hcb _ Hm). reflexivity.
  - destruct (Ascii.eqb_spec c2 ":") as [->|]; [|discriminate].
    destruct (span isDigit r3) as [sec' r4] eqn:H3.
    apply span_spec in H3. destruct H3 as (Hr3 & Hsec & _).
    destruct (Nat.eqb_spec (String.length sec') 2) as [Hls|]; [|discriminate].
    destruct r4; [|discriminate].
    intros [= <- <- <-]. repeat split; auto; try lia.
    rewrite Hs, Hr1, Hr3, forallb_str_app. simpl. rewrite forallb_str_app. simpl.
    rewrite forallb_str_app. rewrite (Hcb _ Hh), (Hcb _ Hm), (Hcb _ Hsec). reflexivity.
Qed.

(** At most two digits make a number of at most 99, which [Atoi] returns. *)
Lemma Atoi_two_digits (d : string) :
  d <> "" -> forallb_str isDigit d = true -> (String.length d <= 2)%nat ->
  Atoi d = Some (digitsVal 0 d) /\ 0 <= digitsVal 0 d <= 99.
Proof.
  intros Hne Hd Hlen.
  assert (Hb : 0 <= digitsVal 0 d <= 99).
  { destruct d as [|a [|b [|]]]; simpl in *; try lia; try contradiction.
    - apply andb_true_iff in Hd. destruct Hd as [Ha _].
      pose proof (isDigit_range _ Ha). lia.
    - apply andb_true_iff in Hd. destruct Hd as [Ha Hd].
      apply andb_true_iff in Hd. destruct Hd as [Hb _].
      pose proof (isDigit_range _ Ha). pose proof (isDigit_range _ Hb). lia. }
  split; [|exact Hb].
  apply Atoi_digits; auto. unfold maxInt64. lia.
Qed.

(** The range checks refuse the groups when one of them is out of range. *)
Lemma clockFields_outOfRange (s h m sec : string) :
  clockGroups s = Some (h, m, sec) -> outOfRange (h, m, sec) ->
  clockFields (h, m, sec) = None.
Proof.
  intros Hg Hout.
  destruct (clockGroups_shape _ _ _ _ Hg)
    as (Hh & Hlh & Hm & Hlm & Hsec & Hls & _ & _).
  assert (Hhne : h <> "") by (intros ->; simpl in Hlh; lia).
  assert (Hmne : m <> "") by (intros ->; simpl in Hlm; lia).
  destruct (Atoi_two_digits h Hhne Hh ltac:(lia)) as [HAh Hbh].
  destruct (Atoi_two_digits m Hmne Hm ltac:(lia)) as [HAm Hbm].
  unfold clockFields. rewrite HAh.
  destruct (Z.ltb_spec (digitsVal 0 h) 0); [lia|].
  destruct (Z.gtb_spec (digitsVal 0 h) 23); [reflexivity|]. simpl.
  rewrite HAm.
  destruct (Z.ltb_spec (digitsVal 0 m) 0); [lia|].
  destruct (Z.gtb_spec (digitsVal 0 m) 59); [reflexivity|]. simpl.
  destruct (String.eqb_spec sec "") as [->|Hsne].
  - simpl in Hout. lia.
  - destruct (Atoi_two_digits sec Hsne Hsec Hls) as [HAs Hbs].
    rewrite HAs.
    destruct (Z.ltb_spec (digitsVal 0 sec) 0); [lia|].
    destruct (Z.gtb_spec (digitsVal 0 sec) 59); [reflexivity|].
    simpl in Hout. lia.
Qed.

Lemma tryFormats_none (K : Calendar) (input : string) (loc : Location)
      (fs : list string) :
  tryFormats K fs input loc = None
  <-> forall l, List.In l fs -> ParseInLocation K l input loc = None.
Proof.
  induction fs as [|f fs IH]; simpl.
  - split; [intros _ l []|reflexivity].
  - destruct (ParseInLocation K f input loc) eqn:Hf.
    + split; [discriminate|]. intros H. specialize (H f (or_introl eq_refl)). congruence.
    + rewrite IH. split.
      * intros H l [<-|Hin]; auto.
      * intros H l Hin. apply H. now right.
Qed.

Lemma parseStandard_rejects (E : Env) (input : string) (loc : Location) :
  generalFormRejects E input loc ->
  parseStandard E input loc = inl (couldNotParse input).
Proof.
  intros [Hd Hf]. unfold parseStandard. rewrite Hd.
  now rewrite (proj2 (tryFormats_none (cal E) input loc formats) Hf).
Qed.

(** The general form fails exactly when the flexible parser and every
    layout refuse the input, and then with one error. *)
Lemma parseStandard_error (E : Env) (input : string) (loc : Location)
      (e : parse_error) :
  parseStandard E input loc = inl e
  <-> generalFormRejects E input loc /\ e = couldNotParse input.
Proof.
  split.
  - unfold parseStandard, generalFormRejects.
    destruct (dateparse_ParseIn E input loc); [discriminate|].
    destruct (tryFormats (cal E) formats input loc) eqn:Ht; [discriminate|].
    intros [= <-]. split; [|reflexivity]. split; [reflexivity|].
    now apply tryFormats_none.
  - intros [Hrej ->]. now apply parseStandard_rejects.
Qed.

(** C8, as the code has it.  An input that is empty or made of white space
    only, in ASCII or not, fails at once with [ErrInvalidDateFormat],
    before the zone is looked at.  An input of the shape of a time of day
    with an hour above 23 or a minute or second above 59 fails with the
    error of the zone when the zone does not resolve.  When it resolves,
    the input is refused by the relative patterns and by the time-only
    pattern and goes unchanged to the general form, whose answer is the
    result: [ErrInvalidDateFormat] with the input in its message exactly
    when the flexible parser and every layout refuse the input too, and
    the time that the general form reads otherwise. *)
Theorem ParseTime_rejects
        (E : Env) (clock1 clock2 : Time) (input timezone : string) :
  (forallb_str asciiSpace input = true ->
   ParseTime E clock1 clock2 input timezone = inl emptyInput)
  /\ (GoUTF8.stdTrimming (unicode E) -> whiteSpaceOnly input = true ->
      ParseTime E clock1 clock2 input timezone = inl emptyInput)
  /\ (forall g,
        clockGroups input = Some g -> outOfRange g ->
        (forall err,
            getLocation E timezone = inl err ->
            ParseTime E clock1 clock2 input timezone = inl err
            /\ sentinel err = ErrInvalidTimezone)
        /\ (forall loc,
               getLocation E timezone = inr loc ->
               parseRelative E clock1 input loc = None
               /\ parseTimeOnly E clock2 input loc = None
               /\ ParseTime E clock1 clock2 input timezone = parseStandard E input loc
               /\ (generalFormRejects E input loc
                   <-> ParseTime E clock1 clock2 input timezone
                       = inl (couldNotParse input))
               /\ (~ generalFormRejects E input loc ->
                   exists t, ParseTime E clock1 clock2 input timezone = inr t))).
Proof.
  split; [|split].
  - intros Hb. unfold ParseTime. now rewrite (TrimSpace_blank _ _ Hb).
  - intros HU Hw. unfold ParseTime.
    now rewrite (TrimSpace_whiteSpaceOnly _ _ HU Hw).
  - intros [[h m] sec] Hg Hout.
    destruct (clockGroups_shape _ _ _ _ Hg)
      as (_ & _ & _ & _ & _ & _ & Hcb & c & s' & Hs & Hc).
    assert (Htrim : TrimSpace (unicode E) input = input).
    { apply TrimSpace_solid. revert Hcb. apply forallb_str_impl, clockByte_solid. }
    assert (Hne : input <> "") by (rewrite Hs; discriminate).
    split.
    + intros err Hloc. split.
      * unfold ParseTime. rewrite Htrim.
        destruct (String.eqb_spec input "") as [e|_]; [contradiction|].
        now rewrite Hloc.
      * revert Hloc. unfold getLocation.
        destruct (negb (String.eqb timezone "")).
        -- destruct (LoadLocation (cal E) timezone); [discriminate|]. now intros [= <-].
        -- destruct (negb (String.eqb (Getenv E "TZ") "")); [|discriminate].
           destruct (LoadLocation (cal E) (Getenv E "TZ")); [discriminate|].
           now intros [= <-].
    + intros loc Hloc.
      assert (Hrel : parseRelative E clock1 input loc = None).
      { unfold parseRelative. rewrite (ToLower_clock _ _ Hcb). rewrite Hs.
        destruct (digit_no_keyword c s' Hc) as (-> & -> & ->). reflexivity. }
      assert (Honly : parseTimeOnly E clock2 input loc = None).
      { unfold parseTimeOnly, timeOnlyRegex. rewrite Hg.
        now rewrite (clockFields_outOfRange _ _ _ _ Hg Hout). }
      assert (Hpt : ParseTime E clock1 clock2 input timezone = parseStandard E input loc).
      { rewrite (ParseTime_resolved E clock1 clock2 input timezone loc);
          rewrite ?Htrim; auto.
        now rewrite Hrel, Honly. }
      split; [exact Hrel|]. split; [exact Honly|]. split; [exact Hpt|].
      rewrite Hpt. split.
      * split; [apply parseStandard_rejects|].
        intros H. now apply (parseStandard_error E input loc (couldNotParse input)).
      * intros Hnot. destruct (parseStandard E input loc) as [e|t] eqn:Hps; [|eauto].
        apply parseStandard_error in Hps. now destruct Hps.
Qed.

Lemma ParseTime_rejects_witness :
  ParseTime (Samples.envTZ "") Samples.noon Samples.noon "   " "Mars/Olympus"
  = inl emptyInput
  /\ ParseTime Samples.envDates Samples.noon Samples.noon
               (" " ++ Samples.nbsp ++ " ") "Mars/Olympus"
     = inl emptyInput
  /\ ParseTime (Samples.envTZ "") Samples.noon Samples.noon "25:00" "Mars/Olympus"
     = inl (mkErr ErrInvalidTimezone "invalid timezone: Mars/Olympus")
  /\ (parseRelative (Samples.envTZ "") Samples.noon "25:00" UTC = None
      /\ parseTimeOnly (Samples.envTZ "") Samples.noon "25:00" UTC = None
      /\ ParseTime (Samples.envTZ "") Samples.noon Samples.noon "25:00" "UTC"
         = parseStandard (Samples.envTZ "") "25:00" UTC
      /\ ParseTime (Samples.envTZ "") Samples.noon Samples.noon "25:00" "UTC"
         = inl (couldNotParse "25:00"))
  /\ ParseTime (Samples.envTZ "") Samples.noon Samples.noon "14:60" "UTC"
     = inl (couldNotParse "14:60").
Proof.
  assert (Hrej : forall input, generalFormRejects (Samples.envTZ "") input UTC)
    by (intros input; split; [reflexivity|intros layout _; reflexivity]).
  split; [|split; [|split; [|split]]].
  - apply (proj1 (ParseTime_rejects (Samples.envTZ "") Samples.noon Samples.noon
                                    "   " "Mars/Olympus")).
    reflexivity.
  - apply (proj1 (proj2 (ParseTime_rejects Samples.envDates Samples.noon Samples.noon
                           (" " ++ Samples.nbsp ++ " ") "Mars/Olympus"))).
    + intros s. split; reflexivity.
    + vm_compute. reflexivity.
  - apply (proj1 (proj2 (proj2 (ParseTime_rejects (Samples.envTZ "") Samples.noon
                                  Samples.noon "25:00" "Mars/Olympus"))
                        ("25", "00", "") eq_refl
                        ltac:(left; vm_compute; reflexivity))).
    reflexivity.
  - destruct (proj2 (proj2 (proj2 (ParseTime_rejects (Samples.envTZ "") Samples.noon
                                     Samples.noon "25:00" "UTC"))
                           ("25", "00", "") eq_refl
                           ltac:(left; vm_compute; reflexivity))
                    UTC eq_refl)
      as (H1 & H2 & H3 & H4 & _).
    split; [exact H1|split; [exact H2|split; [exact H3|exact (proj1 H4 (Hrej _))]]].
  - destruct (proj2 (proj2 (proj2 (ParseTime_rejects (Samples.envTZ "") Samples.noon
                                     Samples.noon "14:60" "UTC"))
                           ("14", "60", "") eq_refl
                           ltac:(right; left; vm_compute; reflexivity))
                    UTC eq_refl)
      as (_ & _ & _ & H4 & _).
    exact (proj1 H4 (Hrej _)).
Defined.

(** C8 as stated fails.  A time of day with an out-of-range field does not
    always end in [ErrInvalidDateFormat]: ["1:01:60"] is refused by the
    time-only pattern for its seconds and then read by the flexible parser
    as the date 1 January 2060, so that no error is returned; and
    ["25:00"] with a zone that does not resolve ends in
    [ErrInvalidTimezone]. *)
Lemma ParseTime_reads_out_of_range_seconds_as_a_year :
  clockGroups "1:01:60" = Some ("1", "01", "60")
  /\ outOfRange ("1", "01", "60")
  /\ parseTimeOnly Samples.envDates Samples.noon "1:01:60" UTC = None
  /\ ParseTime Samples.envDates Samples.noon Samples.noon "1:01:60" "UTC"
     = inr (Date Samples.smallCalendar 2060 1 1 0 0 0 0 UTC)
  /\ ParseTime (Samples.envTZ "") Samples.noon Samples.noon "25:00" "Mars/Olympus"
     = inl (mkErr ErrInvalidTimezone "invalid timezone: Mars/Olympus").
Proof.
  split; [reflexivity|]. split; [right; right; vm_compute; reflexivity|].
  split; [reflexivity|]. split; reflexivity.
Qed.

End ResolverRejects.

(** ** The authenticator: the cached token *)

Section CachedToken.
Import GoInt GoStrings GoTime GoError Auth Spec.

Lemma Valid_spec (now : Time) (t : Token) :
  Valid now t = true
  <-> AccessToken t <> ""
      /\ (abs_ns (Expiry t) = 0
          \/ abs_ns now <= abs_ns (Expiry t) - defaultExpiryDelta).
Proof.
  unfold Valid, expired, IsZero, Before, Add. simpl.
  rewrite andb_true_iff, !negb_true_iff.
  destruct (String.eqb_spec (AccessToken t) "") as [e|n].
  - split; [intros [H _]; discriminate|intros [H _]; contradiction].
  - destruct (Z.eqb_spec (abs_ns (Expiry t)) 0) as [z|nz].
    + split; [intros _; split; [exact n|now left]|intros _; split; reflexivity].
    + rewrite Z.ltb_ge. split.
      * intros [_ H]. split; [exact n|]. right. lia.
      * intros [_ [H|H]]; [contradiction|]. split; [reflexivity|]. lia.
Qed.

(** [GetToken] when the credentials are at hand and the token file
    decodes to [tok]: the authenticator [a1] and the file reads [fx1] of
    the first step, then the branch on [token.Valid()]. *)
Lemma GetToken_with_token (E : Env) (a : Authenticator) (cfg : Config) (tok : Token) :
  credentials E a = Some cfg -> storedToken E a = Some tok ->
  exists a1 fx1,
    forallb isFileRead fx1 = true
    /\ forall now ctx reqs sched,
      GetToken E a now ctx reqs sched
      = if Valid now tok then (a1, (fx1 ++ [FileRead (tokenPath a)])%list, inr tok)
        else
          match TokenSource_Token E cfg ctx tok with
          | inr newToken =>
              let '(fx3, saveErr) := saveToken E a1 newToken in
              (a1,
               (fx1 ++ [FileRead (tokenPath a)] ++ [RefreshCall ctx tok] ++ fx3
                ++ match saveErr with
                   | Some e =>
                       [Stderr ("Warning: failed to save refreshed token: " +:+ e)]
                   | None => []
                   end)%list,
               inr newToken)
          | inl _ =>
              let '(a2, fx4, r) := authenticate E a1 cfg ctx reqs sched in
              (a2,
               (fx1 ++ [FileRead (tokenPath a)]
                ++ [RefreshCall ctx tok;
                    Stdout "Token refresh failed. Re-authentication required."]
                ++ fx4)%list,
               r)
          end.
Proof.
  intros Hcred Htok. unfold credentials in Hcred. unfold storedToken in Htok.
  destruct (ReadFile E (tokenPath a)) as [e|tdata] eqn:Hread; [discriminate|].
  destruct (Unmarshal E tdata) as [e|t] eqn:Hum; [discriminate|].
  injection Htok as ->.
  destruct (config a) as [c|] eqn:Hc.
  - injection Hcred as ->. exists a, []. split; [reflexivity|].
    intros now ctx reqs sched. unfold GetToken, loadToken.
    rewrite Hc. simpl. rewrite Hc, Hread, Hum. reflexivity.
  - destruct (ReadFile E (credentialsPath a)) as [e|data] eqn:Hcr; [discriminate|].
    destruct (ConfigFromJSON E data) as [e|c] eqn:Hcj; [discriminate|].
    injection Hcred as ->.
    exists (set_config a cfg), [FileRead (credentialsPath a)]. split; [reflexivity|].
    intros now ctx reqs sched. unfold GetToken, LoadCredentials, loadToken.
    rewrite Hc, Hcr, Hcj. simpl. rewrite Hread, Hum. reflexivity.
Qed.

(** C1, as the code has it.  With the credentials at hand and a token file
    that decodes to [tok], [GetToken] returns [tok] from the cache exactly
    when the access token is not empty and either the expiry is the zero
    time (a token that does not expire) or [now] is no later than ten
    seconds before the expiry. *)
Theorem GetToken_cache_iff_valid
        (E : Env) (a : Authenticator) (now : Time) (ctx : Context)
        (reqs : list Arrival) (sched : nat) (cfg : Config) (tok : Token) :
  credentials E a = Some cfg -> storedToken E a = Some tok ->
  (fromCache (GetToken E a now ctx reqs sched) tok
   <-> AccessToken tok <> ""
       /\ (abs_ns (Expiry tok) = 0
           \/ abs_ns now <= abs_ns (Expiry tok) - 10 * Second)).
Proof.
  intros Hcred Htok.
  destruct (GetToken_with_token E a cfg tok Hcred Htok) as (a1 & fx1 & Hfx & Heq).
  change (10 * Second) with defaultExpiryDelta. rewrite <- Valid_spec.
  rewrite Heq. unfold fromCache.
  destruct (Valid now tok) eqn:Hv.
  - split; [reflexivity|]. intros _. simpl.
    split; [reflexivity|]. rewrite forallb_app, Hfx. reflexivity.
  - split; [|discriminate]. intros [_ Hreads]. exfalso. revert Hreads.
    destruct (TokenSource_Token E cfg ctx tok) as [e|newToken].
    + destruct (authenticate E a1 cfg ctx reqs sched) as [[a2 fx4] r]. simpl.
      rewrite forallb_app. simpl. rewrite andb_false_r. discriminate.
    + destruct (saveToken E a1 newToken) as [fx3 saveErr]. simpl.
      rewrite forallb_app. simpl. rewrite andb_false_r. discriminate.
Qed.

Lemma GetToken_cache_iff_valid_witness :
  fromCache (GetToken (Samples.machine (Samples.mkToken "cached" zeroTime) 8080)
                      Samples.freshAuth Samples.noon Live [] 0)
            (Samples.mkToken "cached" zeroTime)
  <-> "cached" <> ""
      /\ (0 = 0 \/ abs_ns Samples.noon <= 0 - 10 * Second).
Proof.
  apply (GetToken_cache_iff_valid
           (Samples.machine (Samples.mkToken "cached" zeroTime) 8080)
           Samples.freshAuth Samples.noon Live [] 0 Samples.sampleConfig
           (Samples.mkToken "cached" zeroTime));
    reflexivity.
Defined.

(** C1 as stated fails: a stored token with an access token and the zero
    expiry is not valid in the words of the specification, and [GetToken]
    returns it from the cache. *)
Lemma GetToken_returns_token_without_expiry :
  validAsSpecified Samples.noon (Samples.mkToken "cached" zeroTime) = false
  /\ fromCache (GetToken (Samples.machine (Samples.mkToken "cached" zeroTime) 8080)
                         Samples.readyAuth Samples.noon Live [] 0)
               (Samples.mkToken "cached" zeroTime).
Proof.
  split; [reflexivity|]. split; reflexivity.
Qed.

(** The other side of the difference: a token that expires in five seconds
    is valid in the words of the specification, and [GetToken] goes on to
    refresh it. *)
Lemma GetToken_refreshes_token_about_to_expire :
  let tok := Samples.mkToken "cached" (Add Samples.noon (5 * Second)) in
  validAsSpecified Samples.noon tok = true
  /\ Valid Samples.noon tok = false
  /\ ~ fromCache (GetToken (Samples.machine tok 8080)
                           Samples.readyAuth Samples.noon Live [] 0) tok.
Proof.
  repeat split. intros [H _]. discriminate H.
Qed.

(** C10 as stated fails: a persisted token that is valid is not returned
    when the credentials cannot be loaded.  [GetToken] loads the
    credentials first and returns the error of [LoadCredentials] without
    looking at the token file, under a live context as under a cancelled
    one. *)
Lemma GetToken_valid_token_without_credentials :
  let tok := Samples.mkToken "context-test-token" (Add Samples.noon Hour) in
  let E := Samples.machineWithoutCredentials tok 8080 in
  storedToken E Samples.freshAuth = Some tok
  /\ Valid Samples.noon tok = true
  /\ GetToken E Samples.freshAuth Samples.noon Canceled [] 0
     = (Samples.freshAuth, [FileRead "credentials.json"],
        inl (mkErr WrapsOS
               ("failed to read credentials file: "
                ++ "open credentials.json: no such file or directory")))
  /\ GetToken E Samples.freshAuth Samples.noon Live [] 0
     = GetToken E Samples.freshAuth Samples.noon Canceled [] 0.
Proof.
  split; [reflexivity|]. split; [reflexivity|]. split; reflexivity.
Qed.

(** C10, as the code has it.  With the credentials at hand and a stored
    token that is valid, [GetToken] returns that token whatever the
    context is, cancelled or not: the call does nothing but read files, and
    its outcome is the same for every context, whatever reaches the
    listener and whatever the scheduling. *)
Theorem GetToken_cached_ignores_context
        (E : Env) (a : Authenticator) (now : Time) (ctx : Context)
        (reqs : list Arrival) (sched : nat) (cfg : Config) (tok : Token) :
  credentials E a = Some cfg -> storedToken E a = Some tok ->
  Valid now tok = true ->
  snd (GetToken E a now ctx reqs sched) = inr tok
  /\ forallb isFileRead (snd (fst (GetToken E a now ctx reqs sched))) = true
  /\ forall ctx' reqs' sched',
      GetToken E a now ctx' reqs' sched' = GetToken E a now ctx reqs sched.
Proof.
  intros Hcred Htok Hv.
  destruct (GetToken_with_token E a cfg tok Hcred Htok) as (a1 & fx1 & Hfx & Heq).
  rewrite Heq, Hv. simpl. split; [reflexivity|]. split.
  - rewrite forallb_app, Hfx. reflexivity.
  - intros ctx' reqs' sched'. rewrite Heq, Hv. reflexivity.
Qed.

Lemma GetToken_cached_ignores_context_witness :
  let tok := Samples.mkToken "context-test-token" (Add Samples.noon Hour) in
  snd (GetToken (Samples.machine tok 8080) Samples.freshAuth Samples.noon Canceled [] 0)
  = inr tok
  /\ forallb isFileRead
             (snd (fst (GetToken (Samples.machine tok 8080) Samples.freshAuth
                                 Samples.noon Canceled [] 0))) = true
  /\ forall ctx' reqs' sched',
      GetToken (Samples.machine tok 8080) Samples.freshAuth Samples.noon ctx' reqs' sched'
      = GetToken (Samples.machine tok 8080) Samples.freshAuth Samples.noon Canceled [] 0.
Proof.
  intros tok.
  apply (GetToken_cached_ignores_context
           (Samples.machine tok 8080) Samples.freshAuth Samples.noon Canceled [] 0
           Samples.sampleConfig tok);
    reflexivity.
Defined.

End CachedToken.

(** ** The callback listener *)

Section CallbackListener.
Import GoInt GoStrings GoError Auth Spec.

Lemma Get_first (q : Values) (key v : string) (rest : list string) :
  q !! key = Some (v :: rest) -> Get q key = v.
Proof. intros H. unfold Get. now rewrite H. Qed.

Lemma Get_absent (q : Values) (key : string) :
  q !! key = None -> Get q key = "".
Proof. intros H. unfold Get. now rewrite H. Qed.

(** C5, as the code has it.  For a request that finds free the slot of the
    channel it writes to: when the first value [X] of [code] is not empty,
    [X] goes to the success channel and the response is 200 with the
    content type [text/html]; when [code] is absent or empty and [error] is
    absent or empty, the literal message goes to the error channel and the
    response is 400; when [code] is absent or empty and the first value [Y]
    of [error] is not empty, [Y] goes to the error channel and the response
    is 400. *)
Theorem handler_delivers (chans : Chans) (q : Values) :
  (forall X rest,
      q !! "code" = Some (X :: rest) -> X <> "" -> codeChan chans = None ->
      exists resp,
        handler chans q
        = Some ({| codeChan := Some X; errChan := errChan chans |}, resp)
        /\ StatusCode resp = 200 /\ ContentType resp = "text/html")
  /\ (Get q "code" = "" -> Get q "error" = "" -> errChan chans = None ->
      exists resp,
        handler chans q
        = Some ({| codeChan := codeChan chans;
                   errChan := Some "no authorization code received" |}, resp)
        /\ StatusCode resp = 400)
  /\ (forall Y rest,
         Get q "code" = "" -> q !! "error" = Some (Y :: rest) -> Y <> "" ->
         errChan chans = None ->
         exists resp,
           handler chans q
           = Some ({| codeChan := codeChan chans; errChan := Some Y |}, resp)
           /\ StatusCode resp = 400).
Proof.
  split; [|split].
  - intros X rest Hq HX Hfree. unfold handler. rewrite (Get_first _ _ _ _ Hq).
    destruct (String.eqb_spec X "") as [e|_]; [contradiction|].
    rewrite Hfree. eexists. split; [reflexivity|]. split; reflexivity.
  - intros Hcode Herr Hfree. unfold handler. rewrite Hcode, Herr. simpl.
    rewrite Hfree. eexists. split; reflexivity.
  - intros Y rest Hcode Hq HY Hfree. unfold handler.
    rewrite Hcode, (Get_first _ _ _ _ Hq). simpl.
    destruct (String.eqb_spec Y "") as [e|_]; [contradiction|].
    rewrite Hfree. eexists. split; reflexivity.
Qed.

Lemma handler_delivers_witness :
  (exists resp,
      handler emptyChans (Samples.query [("code", ["test-auth-code"])])
      = Some ({| codeChan := Some "test-auth-code"; errChan := None |}, resp)
      /\ StatusCode resp = 200 /\ ContentType resp = "text/html")
  /\ (exists resp,
         handler emptyChans (Samples.query [])
         = Some ({| codeChan := None;
                    errChan := Some "no authorization code received" |}, resp)
         /\ StatusCode resp = 400)
  /\ (exists resp,
         handler emptyChans (Samples.query [("error", ["access_denied"])])
         = Some ({| codeChan := None; errChan := Some "access_denied" |}, resp)
         /\ StatusCode resp = 400).
Proof.
  split; [|split].
  - apply (proj1 (handler_delivers emptyChans
                    (Samples.query [("code", ["test-auth-code"])]))
                 "test-auth-code" []);
      [vm_compute; reflexivity|discriminate|reflexivity].
  - apply (proj1 (proj2 (handler_delivers emptyChans (Samples.query []))));
      vm_compute; reflexivity.
  - apply (proj2 (proj2 (handler_delivers emptyChans
                           (Samples.query [("error", ["access_denied"])])))
                 "access_denied" []);
      [vm_compute; reflexivity|vm_compute; reflexivity|discriminate|reflexivity].
Defined.

(** C5 as stated fails: a request whose [code] parameter is present with
    the empty value delivers nothing on the success channel; the literal
    message goes to the error channel and the response is 400. *)
Lemma handler_empty_code_is_an_error :
  Samples.query [("code", [""])] !! "code" = Some [""]
  /\ exists chans resp,
      handler emptyChans (Samples.query [("code", [""])]) = Some (chans, resp)
      /\ codeChan chans = None
      /\ errChan chans = Some "no authorization code received"
      /\ StatusCode resp = 400.
Proof.
  split; [vm_compute; reflexivity|].
  eexists _, _. split; [vm_compute; reflexivity|]. repeat split.
Qed.

End CallbackListener.

(** ** The interactive flow: the state value *)

Section StateValue.
Import GoInt GoStrings GoError Auth Spec.

Lemma authURLs_app (fx gx : list Effect) :
  authURLs (fx ++ gx) = (authURLs fx ++ authURLs gx)%list.
Proof. unfold authURLs. apply flat_map_app. Qed.

Lemma saveToken_no_url (E : Env) (a : Authenticator) (t : Token) :
  authURLs (fst (saveToken E a t)) = [].
Proof.
  unfold saveToken. destruct (MarshalIndent E t); [reflexivity|].
  destruct (WriteFile E (tokenPath a) s 384); reflexivity.
Qed.

(** The authorization URLs of a run of [authenticate] whose listener is
    bound to [port]: the single URL built from the configuration with the
    redirect address of that port, the constant state and offline access. *)
Lemma authenticate_urls (E : Env) (a : Authenticator) (cfg : Config) (ctx : Context)
      (reqs : list Arrival) (sched : nat) (port : Z) :
  net_Listen E = inr port ->
  authURLs (snd (fst (authenticate E a cfg ctx reqs sched)))
  = [AuthCodeURL (set_RedirectURL cfg ("http://localhost:" ++ itoa port))
                 "state-token" AccessTypeOffline].
Proof.
  intros Hl. unfold authenticate. rewrite Hl.
  set (cfg' := set_RedirectURL cfg _).
  set (u := AuthCodeURL cfg' stateToken AccessTypeOffline).
  assert (Hpre : forall tail,
             authURLs tail = [] ->
             authURLs
               (([ListenLoopback; Stdout "Opening browser for authentication...";
                  StdoutURL u; Browser u]
                 ++ match openBrowser E u with
                    | Some e => [Stderr ("Warning: failed to open browser: " +:+ e)]
                    | None => []
                    end
                 ++ [Stdout "Waiting for authorization..."; Select ctx]) ++ tail)
             = [u]).
  { intros tail Ht. rewrite !authURLs_app, Ht.
    destruct (openBrowser E u); reflexivity. }
  destruct (select sched (serve emptyChans reqs) ctx) as [code|e| |];
    try (simpl; apply Hpre; reflexivity).
  destruct (Exchange E cfg' ctx code) as [e|token].
  - simpl; apply Hpre; reflexivity.
  - pose proof (saveToken_no_url E (set_config a cfg') token) as Hs.
    destruct (saveToken E (set_config a cfg') token) as [fx saveErr].
    cbn [fst snd] in Hs |- *. apply Hpre.
    rewrite !authURLs_app, Hs. destruct saveErr; reflexivity.
Qed.

(** C2, as the code has it.  Every run of the interactive flow whose
    listener binds a port opens exactly one authorization URL; its state
    value is the constant ["state-token"], the same in every run, its
    redirect address is [http://localhost:<port>] and it asks for offline
    access. *)
Theorem authenticate_state_is_constant
        (E : Env) (a : Authenticator) (cfg : Config) (ctx : Context)
        (reqs : list Arrival) (sched : nat) (port : Z) :
  net_Listen E = inr port ->
  authStates (snd (fst (authenticate E a cfg ctx reqs sched))) = ["state-token"]
  /\ exists u,
      authURLs (snd (fst (authenticate E a cfg ctx reqs sched))) = [u]
      /\ url_state u = "state-token"
      /\ url_redirect_uri u = "http://localhost:" ++ itoa port
      /\ url_access_type u = "offline"
      /\ url_client_id u = ClientID cfg.
Proof.
  intros Hl. unfold authStates.
  rewrite (authenticate_urls E a cfg ctx reqs sched port Hl).
  split; [reflexivity|]. eexists. split; [reflexivity|]. repeat split.
Qed.

Lemma authenticate_state_is_constant_witness :
  authStates
    (snd (fst (authenticate (Samples.machine (Samples.mkToken "" GoTime.zeroTime) 8080)
                            Samples.readyAuth Samples.sampleConfig Live
                            [Request (Samples.query [("code", ["abc"])])] 0)))
  = ["state-token"].
Proof.
  apply (proj1 (authenticate_state_is_constant
                  (Samples.machine (Samples.mkToken "" GoTime.zeroTime) 8080)
                  Samples.readyAuth Samples.sampleConfig Live
                  [Request (Samples.query [("code", ["abc"])])] 0 8080 eq_refl)).
Defined.

(** C2 as stated fails: two runs of the flow, on different ports and with
    different callbacks, build their URLs with the same state value. *)
Lemma authenticate_state_repeats :
  let run1 := authenticate (Samples.machine (Samples.mkToken "" GoTime.zeroTime) 8080)
                           Samples.readyAuth Samples.sampleConfig Live
                           [Request (Samples.query [("code", ["abc"])])] 0 in
  let run2 := authenticate (Samples.machine (Samples.mkToken "" GoTime.zeroTime) 9090)
                           Samples.readyAuth Samples.sampleConfig Canceled
                           [Request (Samples.query [("error", ["access_denied"])])] 1 in
  authStates (snd (fst run1)) = ["state-token"]
  /\ authStates (snd (fst run2)) = ["state-token"]
  /\ ~ (authStates (snd (fst run1)) <> authStates (snd (fst run2))).
Proof.
  vm_compute. split; [reflexivity|]. split; [reflexivity|].
  intros H. now apply H.
Qed.

End StateValue.

(** ** The patterns: every text of the described shape is matched *)

Section PatternShapes.
Import GoInt GoStrings GoTime TimeParse Spec.

Lemma span_app_stop (p : ascii -> bool) (a b : string) :
  forallb_str p a = true ->
  match b with String c _ => p c = false | EmptyString => True end ->
  span p (a ++ b) = (a, b).
Proof.
  intros Ha Hb. induction a as [|c a IH].
  - rewrite append_nil_l. destruct b as [|c b]; [reflexivity|]. simpl. now rewrite Hb.
  - rewrite append_cons. simpl in *. apply andb_true_iff in Ha. destruct Ha as [Hc Ha].
    rewrite Hc, (IH Ha). reflexivity.
Qed.

Lemma cutPrefix_app (prefix rest : string) : cutPrefix (prefix ++ rest) prefix = Some rest.
Proof.
  induction prefix as [|c p IH]; [now destruct rest|].
  rewrite append_cons. simpl. now rewrite Ascii.eqb_refl.
Qed.

Lemma colon_not_digit : isDigit ":" = false.
Proof. reflexivity. Qed.

(** [H:MM] and [H:MM:SS], with one or two digits for the hour and two for
    the minute and the second, are matched, with these groups. *)
Lemma clockGroups_complete (h m sec : string) :
  forallb_str isDigit h = true -> (1 <= String.length h <= 2)%nat ->
  forallb_str isDigit m = true -> String.length m = 2%nat ->
  forallb_str isDigit sec = true -> String.length sec = 2%nat ->
  clockGroups (h ++ ":" ++ m) = Some (h, m, "")
  /\ clockGroups (h ++ ":" ++ m ++ ":" ++ sec) = Some (h, m, sec).
Proof.
  intros Hh Hlh Hm Hlm Hs Hls.
  assert (Hlen : ((String.length h =? 1) || (String.length h =? 2))%nat = true).
  { apply orb_true_iff. destruct Hlh as [H1 H2].
    destruct (Nat.eqb_spec (String.length h) 1); [now left|right].
    apply Nat.eqb_eq. lia. }
  split; unfold clockGroups.
  - rewrite (span_app_stop isDigit h (":" ++ m)); [|assumption|reflexivity].
    rewrite Hlen. rewrite append_cons, append_nil_l. rewrite Ascii.eqb_refl.
    rewrite <- (append_nil_r m) at 1.
    rewrite (span_app_stop isDigit m ""); [|assumption|exact I].
    now rewrite Hlm.
  - rewrite (span_app_stop isDigit h (":" ++ m ++ ":" ++ sec));
      [|assumption|reflexivity].
    rewrite Hlen. rewrite append_cons, append_nil_l. rewrite Ascii.eqb_refl.
    rewrite (span_app_stop isDigit m (":" ++ sec)); [|assumption|reflexivity].
    rewrite Hlm. cbn [Nat.eqb]. rewrite append_cons, append_nil_l. rewrite Ascii.eqb_refl.
    rewrite <- (append_nil_r sec) at 1.
    rewrite (span_app_stop isDigit sec ""); [|assumption|exact I].
    now rewrite Hls.
Qed.

Lemma reSpace_not_digit (c : ascii) : reSpace c = true -> isDigit c = false.
Proof.
  unfold reSpace, isDigit. rewrite !orb_true_iff, !Z.eqb_eq. intros H.
  apply andb_false_iff. left. apply Z.leb_gt. lia.
Qed.

Lemma isDigit_not_reSpace (c : ascii) : isDigit c = true -> reSpace c = false.
Proof.
  intros H. destruct (reSpace c) eqn:Hr; [|reflexivity].
  apply reSpace_not_digit in Hr. congruence.
Qed.

Lemma isUnitWord_head (unit : string) :
  isUnitWord unit = true ->
  exists c rest, unit = String c rest /\ reSpace c = false /\ isDigit c = false.
Proof.
  unfold isUnitWord. rewrite !orb_true_iff, !String.eqb_eq.
  intros H. decompose [or] H; subst unit; eexists _, _; repeat split.
Qed.

(** ["in"], white space, digits, optional white space and one of the eight
    unit words are matched, with the digits and the unit as groups. *)
Lemma inDurationRegex_complete (ws digits ws' unit : string) :
  ws <> "" -> forallb_str reSpace ws = true ->
  digits <> "" -> forallb_str isDigit digits = true ->
  forallb_str reSpace ws' = true -> isUnitWord unit = true ->
  inDurationRegex ("in" ++ ws ++ digits ++ ws' ++ unit) = Some (digits, unit).
Proof.
  intros Hws Hwsp Hd Hdig Hws' Hu.
  destruct (isUnitWord_head unit Hu) as (u & urest & -> & Hus & Hud).
  unfold inDurationRegex. rewrite cutPrefix_app.
  destruct digits as [|d drest]; [contradiction|].
  assert (Hd0 : isDigit d = true) by (simpl in Hdig; now apply andb_true_iff in Hdig).
  rewrite (span_app_stop reSpace ws); [|assumption|].
  2:{ rewrite append_cons. now apply isDigit_not_reSpace. }
  destruct ws as [|w wrest]; [contradiction|].
  rewrite (span_app_stop isDigit (String d drest)); [|assumption|].
  2:{ destruct ws' as [|w' wrest'].
      - rewrite append_nil_l. exact Hud.
      - rewrite append_cons. apply reSpace_not_digit.
        simpl in Hws'. now apply andb_true_iff in Hws'. }
  unfold dropWhile. rewrite (span_app_stop reSpace ws'); [|assumption|exact Hus].
  simpl. now rewrite Hu.
Qed.

(** The cases of the repository's tests of the patterns. *)
Example inDurationRegex_tests :
  inDurationRegex "in 2 hours" = Some ("2", "hours")
  /\ inDurationRegex "in 1 hour" = Some ("1", "hour")
  /\ inDurationRegex "in 30 minutes" = Some ("30", "minutes")
  /\ inDurationRegex "in 45 mins" = Some ("45", "mins")
  /\ inDurationRegex "in 2 days" = None
  /\ inDurationRegex "in hours" = None.
Proof. repeat split. Qed.

Example dayTimeRegex_tests :
  dayTimeRegex "today 14:00" = Some ("14", "00", "")
  /\ dayTimeRegex "today at 14:00" = Some ("14", "00", "")
  /\ dayTimeRegex "tomorrow 10:30" = Some ("10", "30", "")
  /\ dayTimeRegex "tomorrow at 9:00" = Some ("9", "00", "")
  /\ dayTimeRegex "tomorrow at noon" = None
  /\ dayTimeRegex "yesterday 9:00" = None.
Proof. repeat split. Qed.

Example timeOnlyRegex_tests :
  timeOnlyRegex "14:00" = Some ("14", "00", "")
  /\ timeOnlyRegex "09:30:15" = Some ("09", "30", "15")
  /\ timeOnlyRegex "9:00" = Some ("9", "00", "")
  /\ timeOnlyRegex "-1:00" = None
  /\ timeOnlyRegex "14:0" = None
  /\ timeOnlyRegex "14:00 " = None.
Proof. repeat split. Qed.

Example parseTimeOnly_invalid_times :
  parseTimeOnly (Samples.envTZ "") Samples.noon "24:00" (Local (Samples.envTZ "")) = None
  /\ parseTimeOnly (Samples.envTZ "") Samples.noon "14:60" (Local (Samples.envTZ "")) = None
  /\ parseTimeOnly (Samples.envTZ "") Samples.noon "14:00:60" (Local (Samples.envTZ ""))
     = None
  /\ parseTimeOnly (Samples.envTZ "") Samples.noon "-1:00" (Local (Samples.envTZ "")) = None.
Proof. repeat split. Qed.

Example ParseDuration_tests :
  ParseDuration Samples.asciiOnly Samples.noFraction "30" = inr (30 * Minute)
  /\ ParseDuration Samples.asciiOnly Samples.noFraction "30m" = inr (30 * Minute)
  /\ ParseDuration Samples.asciiOnly Samples.noFraction "2h" = inr (2 * Hour)
  /\ ParseDuration Samples.asciiOnly Samples.noFraction "1h30m" = inr (90 * Minute)
  /\ ParseDuration Samples.asciiOnly Samples.noFraction "90s" = inr (90 * Second)
  /\ ParseDuration Samples.asciiOnly Samples.noFraction "" = inl "empty duration".
Proof. repeat split. Qed.

End PatternShapes.

(** * Further properties *)

(** ** White space around the input *)

Section Trimming.
Import GoInt GoStrings GoTime TimeParse Spec Shapes.

Lemma rev_str_app (a b acc : string) :
  rev_str (a ++ b) acc = rev_str b (rev_str a acc).
Proof.
  revert acc. induction a as [|c a IH]; intros acc; [reflexivity|].
  rewrite append_cons. simpl. apply IH.
Qed.

Lemma append_assoc_s (a b c : string) : (a ++ b) ++ c = a ++ b ++ c.
Proof.
  induction a as [|x a IH]; [reflexivity|]. rewrite !append_cons. congruence.
Qed.

Lemma rev_str_acc (s acc : string) : rev_str s acc = rev_str s "" ++ acc.
Proof.
  revert acc. induction s as [|c s IH]; intros acc; [reflexivity|].
  simpl. rewrite (IH (String c acc)), (IH (String c "")).
  rewrite append_assoc_s. reflexivity.
Qed.

Lemma solidEnds_inv (s : string) :
  solidEnds s = true ->
  exists c body d r,
    s = String c body /\ solid c = true
    /\ rev_str s "" = String d r /\ solid d = true.
Proof.
  unfold solidEnds, lastByte. destruct s as [|c body]; [discriminate|].
  destruct (rev_str (String c body) "") as [|d r] eqn:Hr; [discriminate|].
  intros H. apply andb_true_iff in H. destruct H as [Hc Hd].
  exists c, body, d, r. auto.
Qed.

Lemma solid_parts (c : ascii) :
  solid c = true -> isASCIIbyte c = true /\ asciiSpace c = false.
Proof.
  unfold solid. rewrite andb_true_iff, negb_true_iff. auto.
Qed.

(** [TrimSpace] removes the ASCII white space around a string whose two
    ends are ASCII bytes that are no white space, and nothing else. *)
Lemma TrimSpace_surrounded (U : Unicode) (ws s ws' : string) :
  forallb_str asciiSpace ws = true -> forallb_str asciiSpace ws' = true ->
  solidEnds s = true ->
  TrimSpace U (ws ++ s ++ ws') = s.
Proof.
  intros Hws Hws' Hs.
  destruct (solidEnds_inv s Hs) as (c & body & d & r & -> & Hc & Hrev & Hd).
  destruct (solid_parts _ Hc) as [Hca Hcs].
  destruct (solid_parts _ Hd) as [Hda Hds].
  unfold TrimSpace.
  assert (H1 : dropWhile asciiSpace (ws ++ String c body ++ ws') = String c body ++ ws').
  { unfold dropWhile. rewrite (span_app_stop asciiSpace ws); [reflexivity|assumption|].
    rewrite append_cons. exact Hcs. }
  rewrite H1, append_cons, Hca, <- append_cons.
  assert (H2 : dropWhileEnd asciiSpace (String c body ++ ws') = String c body).
  { unfold dropWhileEnd. rewrite rev_str_app, Hrev, (rev_str_acc ws' (String d r)).
    unfold dropWhile. rewrite (span_app_stop asciiSpace (rev_str ws' ""));
      [|now rewrite forallb_str_rev, Hws'|exact Hds].
    cbn [snd]. rewrite <- Hrev. apply rev_str_involutive. }
  rewrite H2. unfold lastByte. rewrite Hrev, Hda. reflexivity.
Qed.

Lemma TrimSpace_solidEnds (U : Unicode) (s : string) :
  solidEnds s = true -> TrimSpace U s = s.
Proof.
  intros Hs. pose proof (TrimSpace_surrounded U "" s "" eq_refl eq_refl Hs) as H.
  now rewrite append_nil_l, append_nil_r in H.
Qed.

(** X1. ASCII white space before and after the text changes nothing: when
    the text starts and ends with ASCII bytes that are no white space,
    [ParseTime] and [ParseDuration] give for the padded text what they give
    for the text itself. *)
Theorem surrounding_space_is_ignored
        (E : Env) (F : GoDuration.FracNs) (clock1 clock2 : Time)
        (ws s ws' timezone : string) :
  forallb_str asciiSpace ws = true -> forallb_str asciiSpace ws' = true ->
  solidEnds s = true ->
  ParseTime E clock1 clock2 (ws ++ s ++ ws') timezone
  = ParseTime E clock1 clock2 s timezone
  /\ ParseDuration (unicode E) F (ws ++ s ++ ws') = ParseDuration (unicode E) F s.
Proof.
  intros Hws Hws' Hs. unfold ParseTime, ParseDuration.
  rewrite (TrimSpace_surrounded _ ws s ws' Hws Hws' Hs), (TrimSpace_solidEnds _ s Hs).
  split; reflexivity.
Qed.

Lemma surrounding_space_is_ignored_witness :
  ParseTime (Samples.envTZ "") Samples.noon Samples.noon "  in 2 hours " "UTC"
  = ParseTime (Samples.envTZ "") Samples.noon Samples.noon "in 2 hours" "UTC"
  /\ ParseDuration Samples.asciiOnly Samples.noFraction "  in 2 hours "
     = ParseDuration Samples.asciiOnly Samples.noFraction "in 2 hours".
Proof.
  apply (surrounding_space_is_ignored (Samples.envTZ "") Samples.noFraction
           Samples.noon Samples.noon "  " "in 2 hours" " " "UTC");
    reflexivity.
Defined.

End Trimming.

(** ** The time resolver: what the pattern stages return *)

Section ResolverResults.
Import GoInt GoStrings GoTime TimeParse Spec Shapes.

Lemma clockFields_inRange (s h m sec : string) :
  clockGroups s = Some (h, m, sec) -> inRange (h, m, sec) ->
  clockFields (h, m, sec) = Some (digitsVal 0 h, digitsVal 0 m, digitsVal 0 sec).
Proof.
  intros Hg (Hrh & Hrm & Hrs).
  destruct (clockGroups_shape _ _ _ _ Hg)
    as (Hh & Hlh & Hm & Hlm & Hsec & Hls & _ & _).
  assert (Hhne : h <> "") by (intros ->; simpl in Hlh; lia).
  assert (Hmne : m <> "") by (intros ->; simpl in Hlm; lia).
  destruct (Atoi_two_digits h Hhne Hh ltac:(lia)) as [HAh Hbh].
  destruct (Atoi_two_digits m Hmne Hm ltac:(lia)) as [HAm Hbm].
  unfold clockFields. rewrite HAh.
  destruct (Z.ltb_spec (digitsVal 0 h) 0); [lia|].
  destruct (Z.gtb_spec (digitsVal 0 h) 23); [lia|]. simpl.
  rewrite HAm.
  destruct (Z.ltb_spec (digitsVal 0 m) 0); [lia|].
  destruct (Z.gtb_spec (digitsVal 0 m) 59); [lia|]. simpl.
  destruct (String.eqb_spec sec "") as [->|Hsne]; [reflexivity|].
  destruct (Atoi_two_digits sec Hsne Hsec Hls) as [HAs Hbs].
  rewrite HAs.
  destruct (Z.ltb_spec (digitsVal 0 sec) 0); [lia|].
  destruct (Z.gtb_spec (digitsVal 0 sec) 59); [lia|]. reflexivity.
Qed.

(** A text of the shape of a time of day is matched by no relative form. *)
Lemma clock_not_relative (E : Env) (clock : Time) (s : string) (loc : Location)
      (g : string * string * string) :
  clockGroups s = Some g -> parseRelative E clock s loc = None.
Proof.
  destruct g as [[h m] sec]. intros Hg.
  destruct (clockGroups_shape _ _ _ _ Hg)
    as (_ & _ & _ & _ & _ & _ & Hcb & c & s' & Hs & Hc).
  unfold parseRelative. rewrite (ToLower_clock _ _ Hcb). rewrite Hs.
  destruct (digit_no_keyword c s' Hc) as (-> & -> & ->). reflexivity.
Qed.

Lemma clock_trimmed (U : Unicode) (s : string) (g : string * string * string) :
  clockGroups s = Some g -> TrimSpace U s = s /\ s <> "".
Proof.
  destruct g as [[h m] sec]. intros Hg.
  destruct (clockGroups_shape _ _ _ _ Hg)
    as (_ & _ & _ & _ & _ & _ & Hcb & c & s' & Hs & Hc).
  split; [|rewrite Hs; discriminate].
  apply TrimSpace_solid. revert Hcb. apply forallb_str_impl, clockByte_solid.
Qed.

(** X2. A time of day [H:MM] or [H:MM:SS] with the hour at most 23 and the
    minute and the second at most 59 resolves, once the zone is resolved,
    to the date that the clock shows in that zone, at that time of day, in
    that zone; a missing second is zero. *)
Theorem ParseTime_time_of_day
        (E : Env) (clock1 clock2 : Time) (input timezone : string)
        (g : string * string * string) (loc : Location) :
  clockGroups input = Some g -> inRange g ->
  getLocation E timezone = inr loc ->
  ParseTime E clock1 clock2 input timezone
  = inr (onTheDayOf (cal E) (In clock2 loc) g loc).
Proof.
  intros Hg Hr Hloc.
  destruct (clock_trimmed (unicode E) input g Hg) as [Htrim Hne].
  rewrite (ParseTime_resolved E clock1 clock2 input timezone loc);
    rewrite ?Htrim; auto.
  rewrite (clock_not_relative E clock1 input loc g Hg).
  destruct g as [[h m] sec].
  unfold parseTimeOnly, timeOnlyRegex. rewrite Hg.
  rewrite (clockFields_inRange _ _ _ _ Hg Hr). reflexivity.
Qed.

Lemma ParseTime_time_of_day_witness :
  ParseTime (Samples.envTZ "Europe/Lisbon") GoTime.zeroTime Samples.noon "09:30:15" ""
  = inr (Date Samples.smallCalendar 2024 1 15 9 30 15 0 (Loc "Europe/Lisbon")).
Proof.
  apply (ParseTime_time_of_day (Samples.envTZ "Europe/Lisbon") GoTime.zeroTime
           Samples.noon "09:30:15" "" ("09", "30", "15") (Loc "Europe/Lisbon"));
    [reflexivity|vm_compute; repeat split; discriminate|reflexivity].
Defined.

Lemma HasPrefix_i_not_t (s : string) :
  HasPrefix s "in " = true ->
  HasPrefix s "today" = false /\ HasPrefix s "tomorrow" = false.
Proof.
  destruct s as [|c s]; [discriminate|]. rewrite !HasPrefix_cons.
  destruct (Ascii.eqb_spec "i" c) as [<-|]; [|discriminate].
  intros _. split; reflexivity.
Qed.

(** X3. The three patterns exclude one another: an input matched by the
    relative-duration form is matched neither by the relative-day form nor
    by the time-only form, and an input matched by the relative-day form is
    not matched by the time-only form.  The order in which [ParseTime]
    tries them does not change any result. *)
Theorem pattern_stages_are_exclusive
        (E : Env) (clock1 clock2 : Time) (s : string) (loc : Location) :
  (stageRelativeDuration E clock1 s loc <> None ->
   stageRelativeDay E clock1 s loc = None /\ parseTimeOnly E clock2 s loc = None)
  /\ (stageRelativeDay E clock1 s loc <> None ->
      parseTimeOnly E clock2 s loc = None).
Proof.
  assert (Honly : parseTimeOnly E clock2 s loc <> None ->
                  parseRelative E clock1 s loc = None).
  { unfold parseTimeOnly, timeOnlyRegex.
    destruct (clockGroups s) as [g|] eqn:Hg; [|congruence].
    intros _. now apply (clock_not_relative E clock1 s loc g). }
  split.
  - intros H1. split.
    + unfold stageRelativeDuration in H1. unfold stageRelativeDay.
      destruct (HasPrefix (ToLower (unicode E) s) "in ") eqn:Hp; [|congruence].
      destruct (HasPrefix_i_not_t _ Hp) as [-> ->]. reflexivity.
    + destruct (parseTimeOnly E clock2 s loc) eqn:Ho; [|reflexivity].
      exfalso. apply H1.
      assert (Hrel : parseRelative E clock1 s loc = None)
        by (apply Honly; congruence).
      rewrite parseRelative_stages in Hrel.
      destruct (stageRelativeDuration E clock1 s loc); [discriminate|reflexivity].
  - intros H2.
    destruct (parseTimeOnly E clock2 s loc) eqn:Ho; [|reflexivity].
    exfalso. apply H2.
    assert (Hrel : parseRelative E clock1 s loc = None)
      by (apply Honly; congruence).
    rewrite parseRelative_stages in Hrel.
    destruct (stageRelativeDuration E clock1 s loc); [discriminate|exact Hrel].
Qed.

Lemma pattern_stages_are_exclusive_witness :
  (stageRelativeDay (Samples.envTZ "") Samples.noon "in 2 hours" UTC = None
   /\ parseTimeOnly (Samples.envTZ "") Samples.noon "in 2 hours" UTC = None)
  /\ parseTimeOnly (Samples.envTZ "") Samples.noon "today 9:30" UTC = None.
Proof.
  split.
  - apply (proj1 (pattern_stages_are_exclusive (Samples.envTZ "") Samples.noon
                    Samples.noon "in 2 hours" UTC)).
    discriminate.
  - apply (proj2 (pattern_stages_are_exclusive (Samples.envTZ "") Samples.noon
                    Samples.noon "today 9:30" UTC)).
    discriminate.
Defined.

End ResolverResults.

(** ** The time resolver: the relative forms *)

Section RelativeForms.
Import GoInt GoStrings GoTime TimeParse Spec Shapes.

Lemma ToLower_lowerSafe (U : Unicode) (s : string) :
  forallb_str lowerSafe s = true -> ToLower U s = s.
Proof.
  intros H. unfold ToLower.
  assert (Ha : forallb_str isASCIIbyte s = true).
  { revert H. apply forallb_str_impl. intros c Hc.
    unfold lowerSafe in Hc. now apply andb_true_iff in Hc. }
  rewrite Ha. clear Ha.
  induction s as [|c s IH]; [reflexivity|].
  simpl in *. apply andb_true_iff in H. destruct H as [Hc Hs].
  rewrite (IH Hs). f_equal. unfold lowerSafe in Hc. unfold lowerByte.
  apply andb_true_iff in Hc. destruct Hc as [_ Hc]. apply negb_true_iff in Hc.
  now rewrite Hc.
Qed.

Lemma byte_range_lowerSafe (c : ascii) :
  0 <= byte_of c < 65 -> lowerSafe c = true.
Proof.
  intros H. unfold lowerSafe, isASCIIbyte.
  apply andb_true_iff. split; [apply Z.ltb_lt; lia|].
  apply negb_true_iff, andb_false_iff. left. apply Z.leb_gt. lia.
Qed.

Lemma reSpace_lowerSafe (c : ascii) : reSpace c = true -> lowerSafe c = true.
Proof.
  unfold reSpace. rewrite !orb_true_iff, !Z.eqb_eq. intros H.
  apply byte_range_lowerSafe. lia.
Qed.

Lemma clockByte_lowerSafe (c : ascii) : clockByte c = true -> lowerSafe c = true.
Proof.
  intros H. apply clockByte_cases in H. apply byte_range_lowerSafe. lia.
Qed.

Lemma reSpace_solid_false (c : ascii) : reSpace c = true -> asciiSpace c = true.
Proof.
  unfold reSpace, asciiSpace. rewrite !orb_true_iff, !Z.eqb_eq. tauto.
Qed.

Lemma HasPrefix_app (p r : string) : HasPrefix (p ++ r) p = true.
Proof.
  induction p as [|c p IH]; [now destruct r|].
  rewrite append_cons, HasPrefix_cons, Ascii.eqb_refl. exact IH.
Qed.

Lemma lastByte_app (a : string) (c : ascii) (b : string) :
  lastByte (a ++ String c b) = lastByte (String c b).
Proof.
  unfold lastByte. rewrite rev_str_app, rev_str_acc.
  destruct (rev_str (String c b) "") as [|d r] eqn:Hr; [|reflexivity].
  exfalso. pose proof (rev_str_involutive (String c b)) as Hi.
  rewrite Hr in Hi. discriminate Hi.
Qed.

Lemma solidEnds_app (c : ascii) (a b : string) (d : ascii) :
  solid c = true -> b <> "" -> lastByte b = Some d -> solid d = true ->
  solidEnds (String c a ++ b) = true.
Proof.
  intros Hc Hb Hl Hd. unfold solidEnds. rewrite append_cons.
  destruct b as [|x b]; [contradiction|].
  rewrite <- append_cons, lastByte_app, Hl, Hc, Hd. reflexivity.
Qed.

(** The unit words: lower case, ending in a letter, and the stage that
    each one selects. *)
Lemma unit_word_facts (unit : string) :
  isUnitWord unit = true ->
  unit <> "" /\ forallb_str lowerSafe unit = true
  /\ (exists d, lastByte unit = Some d /\ solid d = true)
  /\ (hourWord unit = true ->
      HasPrefix unit "hour" || HasPrefix unit "hr" = true)
  /\ (minuteWord unit = true ->
      HasPrefix unit "hour" || HasPrefix unit "hr" = false
      /\ HasPrefix unit "min" = true)
  /\ (hourWord unit = true \/ minuteWord unit = true).
Proof.
  intros H. unfold isUnitWord in H. rewrite !orb_true_iff, !String.eqb_eq in H.
  decompose [or] H; subst unit;
    (split; [discriminate|]); (split; [reflexivity|]);
    (split; [eexists; split; reflexivity|]);
    (split; [intros Hw; first [reflexivity|vm_compute in Hw; discriminate Hw]|]);
    (split; [intros Hw; first [split; reflexivity|vm_compute in Hw; discriminate Hw]|]);
    ((left; reflexivity) || (right; reflexivity)).
Qed.

(** X4. ["in"], a space, a count [N] in digits and a unit word resolve to
    the clock reading, shown in the resolved zone, plus [N] hours for
    [hour], [hours], [hr], [hrs] and plus [N] minutes for [minute],
    [minutes], [min], [mins], as long as the span fits 64 bits.  More
    white space may follow the first space, and white space may separate
    the count from the unit. *)
Theorem ParseTime_in_duration
        (E : Env) (clock1 clock2 : Time) (ws digits ws' unit timezone : string)
        (loc : Location) :
  forallb_str reSpace ws = true ->
  digits <> "" -> forallb_str isDigit digits = true ->
  forallb_str reSpace ws' = true -> isUnitWord unit = true ->
  getLocation E timezone = inr loc ->
  (hourWord unit = true -> digitsVal 0 digits * Hour <= maxInt64 ->
   ParseTime E clock1 clock2 ("in " ++ ws ++ digits ++ ws' ++ unit) timezone
   = inr (Add (In clock1 loc) (digitsVal 0 digits * Hour)))
  /\ (minuteWord unit = true -> digitsVal 0 digits * Minute <= maxInt64 ->
      ParseTime E clock1 clock2 ("in " ++ ws ++ digits ++ ws' ++ unit) timezone
      = inr (Add (In clock1 loc) (digitsVal 0 digits * Minute))).
Proof.
  intros Hws Hne Hdig Hws' Hu Hloc.
  destruct (unit_word_facts unit Hu) as (Hune & Hul & (d & Hlast & Hd) & Hhour & Hmin & _).
  set (input := "in " ++ ws ++ digits ++ ws' ++ unit).
  pose proof (digitsVal_lower _ 0 Hdig ltac:(lia)) as Hlo.
  assert (Hends : solidEnds input = true).
  { unfold input.
    replace ("in " ++ ws ++ digits ++ ws' ++ unit)
      with (String "i" ("n " ++ ws ++ digits ++ ws') ++ unit).
    - apply (solidEnds_app _ _ _ d); auto.
    - rewrite append_cons. unfold append at 1. simpl.
      rewrite !append_assoc_s. reflexivity. }
  assert (Hlower : ToLower (unicode E) input = input).
  { apply ToLower_lowerSafe. unfold input. rewrite !forallb_str_app.
    rewrite (forallb_str_impl _ _ ws reSpace_lowerSafe Hws).
    rewrite (forallb_str_impl _ _ ws' reSpace_lowerSafe Hws').
    rewrite (forallb_str_impl _ lowerSafe digits
               (fun c H => clockByte_lowerSafe c (digit_clockByte c H)) Hdig).
    rewrite Hul. reflexivity. }
  assert (Hmatch : inDurationRegex input = Some (digits, unit)).
  { apply (inDurationRegex_complete (String " " ws) digits ws' unit);
      auto; discriminate. }
  assert (Hstage : forall span,
             (HasPrefix unit "hour" || HasPrefix unit "hr" = true /\ span = Hour)
             \/ (HasPrefix unit "hour" || HasPrefix unit "hr" = false
                 /\ HasPrefix unit "min" = true /\ span = Minute) ->
             digitsVal 0 digits * span <= maxInt64 -> 0 < span ->
             ParseTime E clock1 clock2 input timezone
             = inr (Add (In clock1 loc) (digitsVal 0 digits * span))).
  { intros span Hcase Hfit Hpos.
    rewrite (ParseTime_resolved E clock1 clock2 input timezone loc);
      rewrite ?(TrimSpace_solidEnds _ _ Hends); auto;
      try (unfold input; discriminate).
    unfold parseRelative. rewrite Hlower.
    replace (HasPrefix input "in ") with true
      by (symmetry; apply (HasPrefix_app "in " (ws ++ digits ++ ws' ++ unit))).
    unfold parseInDuration. rewrite Hmatch.
    rewrite (Atoi_digits digits Hne Hdig) by nia.
    assert (Hw : mul64 (digitsVal 0 digits) span = digitsVal 0 digits * span).
    { unfold mul64. apply wrap64_small. unfold minInt64. split; [nia|exact Hfit]. }
    destruct Hcase as [[Hh ->]|(Hh & Hm & ->)].
    - rewrite Hh, Hw. reflexivity.
    - rewrite Hh, Hm, Hw. reflexivity. }
  split.
  - intros Hw Hfit. apply Hstage; [left; auto|exact Hfit|reflexivity].
  - intros Hw Hfit. destruct (Hmin Hw) as [H1 H2].
    apply Hstage; [right; auto|exact Hfit|reflexivity].
Qed.

Lemma ParseTime_in_duration_witness :
  ParseTime (Samples.envTZ "") Samples.noon GoTime.zeroTime "in  45mins" "UTC"
  = inr (Add Samples.noon (45 * Minute)).
Proof.
  apply (proj2 (ParseTime_in_duration (Samples.envTZ "") Samples.noon GoTime.zeroTime
                  " " "45" "" "mins" "UTC" UTC
                  eq_refl ltac:(discriminate) eq_refl eq_refl eq_refl eq_refl));
    [reflexivity|vm_compute; discriminate].
Defined.

End RelativeForms.

Section RelativeDay.
Import GoInt GoStrings GoTime TimeParse Spec Shapes.

Lemma separator_facts (sep : string) :
  daySeparator sep -> forallb_str lowerSafe sep = true.
Proof.
  intros [ws Hws|ws ws1 Hws Hne Hws1].
  - exact (forallb_str_impl _ _ ws reSpace_lowerSafe Hws).
  - rewrite !forallb_str_app.
    rewrite (forallb_str_impl _ _ ws reSpace_lowerSafe Hws).
    rewrite (forallb_str_impl _ _ ws1 reSpace_lowerSafe Hws1). reflexivity.
Qed.

(** After the day word, the separator is skipped and the rest is read as a
    time of day. *)
Lemma separator_then_clock (sep clk : string) (g : string * string * string) :
  daySeparator sep -> clockGroups clk = Some g ->
  match cutPrefix (dropWhile reSpace (sep ++ clk)) "at" with
  | Some r2 =>
      let '(ws, r3) := span reSpace r2 in
      match ws with
      | EmptyString => None
      | _ => clockGroups r3
      end
  | None => clockGroups (dropWhile reSpace (sep ++ clk))
  end = Some g.
Proof.
  intros Hsep Hg. destruct g as [[h m] sec].
  destruct (clockGroups_shape _ _ _ _ Hg)
    as (_ & _ & _ & _ & _ & _ & _ & c & s' & Hs & Hc).
  pose proof (isDigit_not_reSpace c Hc) as Hcs.
  assert (Hca : Ascii.eqb "a" c = false)
    by (apply Ascii.eqb_neq; intros <-; discriminate Hc).
  destruct Hsep as [ws Hws|ws ws1 Hws Hne Hws1].
  - unfold dropWhile. rewrite (span_app_stop reSpace ws clk); [|assumption|].
    2:{ rewrite Hs. exact Hcs. }
    cbn [snd]. rewrite Hs at 1.
    change (cutPrefix (String c s') "at")
      with (if Ascii.eqb "a" c then cutPrefix s' "t" else None).
    rewrite Hca. exact Hg.
  - unfold dropWhile. rewrite !append_assoc_s.
    rewrite (span_app_stop reSpace ws ("at" ++ ws1 ++ clk)); [|assumption|reflexivity].
    cbn [snd]. rewrite (cutPrefix_app "at" (ws1 ++ clk)).
    rewrite (span_app_stop reSpace ws1 clk); [|assumption|].
    2:{ rewrite Hs. exact Hcs. }
    destruct ws1; [contradiction|exact Hg].
Qed.

Lemma clock_last_solid (clk : string) (g : string * string * string) :
  clockGroups clk = Some g ->
  clk <> "" /\ forallb_str lowerSafe clk = true
  /\ exists d, lastByte clk = Some d /\ solid d = true.
Proof.
  destruct g as [[h m] sec]. intros Hg.
  destruct (clockGroups_shape _ _ _ _ Hg)
    as (_ & _ & _ & _ & _ & _ & Hcb & c & s' & Hs & Hc).
  assert (Hne : clk <> "") by (rewrite Hs; discriminate).
  split; [exact Hne|]. split.
  - revert Hcb. apply forallb_str_impl, clockByte_lowerSafe.
  - assert (Hsol : forallb_str solid clk = true)
      by (revert Hcb; apply forallb_str_impl, clockByte_solid).
    destruct (lastByte_solid clk Hne Hsol) as (d & r & Hrev & Hd).
    exists d. unfold lastByte. rewrite Hrev. auto.
Qed.

(** X5. [today] or [tomorrow], white space (or none), an optional [at]
    followed by white space, and a time of day in range resolve to that
    time of day, in the resolved zone, on the date of the clock reading for
    [today] and on the date one day later ([AddDate(0, 0, 1)]) for
    [tomorrow]. *)
Theorem ParseTime_relative_day
        (E : Env) (clock1 clock2 : Time) (sep clk timezone : string)
        (g : string * string * string) (loc : Location) :
  daySeparator sep -> clockGroups clk = Some g -> inRange g ->
  getLocation E timezone = inr loc ->
  ParseTime E clock1 clock2 ("today" ++ sep ++ clk) timezone
  = inr (onTheDayOf (cal E) (AddDate (cal E) (In clock1 loc) 0 0 0) g loc)
  /\ ParseTime E clock1 clock2 ("tomorrow" ++ sep ++ clk) timezone
     = inr (onTheDayOf (cal E) (AddDate (cal E) (In clock1 loc) 0 0 1) g loc).
Proof.
  intros Hsep Hg Hr Hloc.
  destruct (clock_last_solid clk g Hg) as (Hcne & Hcl & d & Hlast & Hd).
  pose proof (separator_facts sep Hsep) as Hsl.
  pose proof (separator_then_clock sep clk g Hsep Hg) as Hrest.
  assert (Hfields : clockFields g
                    = Some (let '(h, m, sec) := g in
                            (digitsVal 0 h, digitsVal 0 m, digitsVal 0 sec))).
  { destruct g as [[h m] sec]. exact (clockFields_inRange _ _ _ _ Hg Hr). }
  assert (Hday : forall (day : string) (c : ascii) (rest : string),
             day = String c rest -> solid c = true ->
             forallb_str lowerSafe day = true ->
             TrimSpace (unicode E) (day ++ sep ++ clk) = day ++ sep ++ clk
             /\ ToLower (unicode E) (day ++ sep ++ clk) = day ++ sep ++ clk).
  { intros day c rest -> Hc Hdl. split.
    - apply TrimSpace_solidEnds.
      replace (String c rest ++ sep ++ clk) with (String c (rest ++ sep) ++ clk)
        by (rewrite !append_cons, append_assoc_s; reflexivity).
      apply (solidEnds_app _ _ _ d); auto.
    - apply ToLower_lowerSafe. rewrite !forallb_str_app, Hdl, Hsl, Hcl. reflexivity. }
  split.
  - destruct (Hday "today" "t"%char "oday" eq_refl eq_refl eq_refl) as [Htrim Hlow].
    rewrite (ParseTime_resolved E clock1 clock2 _ timezone loc);
      rewrite ?Htrim; auto; try discriminate.
    unfold parseRelative. rewrite Hlow.
    replace (HasPrefix ("today" ++ sep ++ clk) "in ") with false by reflexivity.
    replace (HasPrefix ("today" ++ sep ++ clk) "today") with true
      by (symmetry; apply HasPrefix_app).
    unfold parseDayWithTime, dayTimeRegex.
    rewrite (cutPrefix_app "today" (sep ++ clk)).
    rewrite Hrest, Hfields. destruct g as [[h m] sec]. reflexivity.
  - destruct (Hday "tomorrow" "t"%char "omorrow" eq_refl eq_refl eq_refl) as [Htrim Hlow].
    rewrite (ParseTime_resolved E clock1 clock2 _ timezone loc);
      rewrite ?Htrim; auto; try discriminate.
    unfold parseRelative. rewrite Hlow.
    replace (HasPrefix ("tomorrow" ++ sep ++ clk) "in ") with false by reflexivity.
    replace (HasPrefix ("tomorrow" ++ sep ++ clk) "today") with false by reflexivity.
    replace (HasPrefix ("tomorrow" ++ sep ++ clk) "tomorrow") with true
      by (symmetry; apply HasPrefix_app).
    unfold parseDayWithTime, dayTimeRegex.
    replace (cutPrefix ("tomorrow" ++ sep ++ clk) "today") with (@None string)
      by reflexivity.
    rewrite (cutPrefix_app "tomorrow" (sep ++ clk)).
    rewrite Hrest, Hfields. destruct g as [[h m] sec]. reflexivity.
Qed.

Lemma ParseTime_relative_day_witness :
  ParseTime (Samples.envTZ "") Samples.noon GoTime.zeroTime "today at 14:00" "UTC"
  = inr (Date Samples.smallCalendar 2024 1 15 14 0 0 0 UTC)
  /\ ParseTime (Samples.envTZ "") Samples.noon GoTime.zeroTime "tomorrow at 14:00" "UTC"
     = inr (Date Samples.smallCalendar 2024 1 16 14 0 0 0 UTC).
Proof.
  apply (ParseTime_relative_day (Samples.envTZ "") Samples.noon GoTime.zeroTime
           " at " "14:00" "UTC" ("14", "00", "") UTC).
  - apply (sep_at " " " "); [reflexivity|discriminate|reflexivity].
  - reflexivity.
  - vm_compute. repeat split; discriminate.
  - reflexivity.
Defined.

End RelativeDay.

(** ** The time resolver: the general form and the errors *)

Section GeneralForm.
Import GoInt GoStrings GoTime TimeParse Spec Shapes.

Lemma tryFormats_first (K : Calendar) (input : string) (loc : Location)
      (before after : list string) (layout : string) (t : Time) :
  (forall l, List.In l before -> ParseInLocation K l input loc = None) ->
  ParseInLocation K layout input loc = Some t ->
  tryFormats K (before ++ layout :: after) input loc = Some t.
Proof.
  intros Hb Hl. induction before as [|b before IH]; simpl.
  - now rewrite Hl.
  - rewrite (Hb b (or_introl eq_refl)). apply IH. intros l Hin. apply Hb. now right.
Qed.

(** X6. In the general form the flexible parser is asked first and its
    answer is final when it has one; otherwise the layouts are tried in the
    order of the list and the first that parses decides; the stage fails
    exactly when the flexible parser and every layout refuse the input, and
    the error then is [ErrInvalidDateFormat] with the input in its text. *)
Theorem parseStandard_first_success (E : Env) (input : string) (loc : Location) :
  (forall t, dateparse_ParseIn E input loc = Some t -> parseStandard E input loc = inr t)
  /\ (forall before layout after t,
         dateparse_ParseIn E input loc = None ->
         formats = (before ++ layout :: after)%list ->
         (forall l, List.In l before -> ParseInLocation (cal E) l input loc = None) ->
         ParseInLocation (cal E) layout input loc = Some t ->
         parseStandard E input loc = inr t)
  /\ (forall e, parseStandard E input loc = inl e
                <-> generalFormRejects E input loc /\ e = couldNotParse input).
Proof.
  split; [|split].
  - intros t H. unfold parseStandard. now rewrite H.
  - intros before layout after t Hd Hf Hb Hl. unfold parseStandard.
    rewrite Hd, Hf, (tryFormats_first _ _ _ before after layout t Hb Hl). reflexivity.
  - intros e. apply parseStandard_error.
Qed.

Lemma parseStandard_first_success_witness :
  let E := {| unicode := Samples.asciiOnly;
              cal := {| Format := Format Samples.smallCalendar;
                        Parse := Parse Samples.smallCalendar;
                        ParseInLocation := fun layout _ _ =>
                          if String.eqb layout "2006-01-02" then Some Samples.noon
                          else None;
                        Date := Date Samples.smallCalendar;
                        Year := Year Samples.smallCalendar;
                        Month := Month Samples.smallCalendar;
                        Day := Day Samples.smallCalendar;
                        Clock := Clock Samples.smallCalendar;
                        Nanosecond_of := Nanosecond_of Samples.smallCalendar;
                        LoadLocation := LoadLocation Samples.smallCalendar |};
              Getenv := fun _ => "";
              Local := UTC;
              dateparse_ParseIn := fun _ _ => None |} in
  parseStandard E "2024-01-15" UTC = inr Samples.noon.
Proof.
  intros E.
  apply (proj1 (proj2 (parseStandard_first_success E "2024-01-15" UTC))
               (removelast formats) "2006-01-02" [] Samples.noon).
  - reflexivity.
  - reflexivity.
  - intros l Hin. simpl in Hin. decompose [or] Hin; subst; (reflexivity || contradiction).
  - reflexivity.
Defined.

Lemma getLocation_error (E : Env) (timezone : string) (e : parse_error) :
  getLocation E timezone = inl e -> sentinel e = ErrInvalidTimezone.
Proof.
  unfold getLocation.
  destruct (negb (String.eqb timezone "")).
  - destruct (LoadLocation (cal E) timezone); [discriminate|]. now intros [= <-].
  - destruct (negb (String.eqb (Getenv E "TZ") "")); [|discriminate].
    destruct (LoadLocation (cal E) (Getenv E "TZ")); [discriminate|]. now intros [= <-].
Qed.

(** X7. [ParseTime] fails in exactly three ways: on an input that is empty
    once trimmed, with the empty-input error of [ErrInvalidDateFormat]; on
    a zone that does not resolve, with the error of [getLocation], which is
    [ErrInvalidTimezone], whatever the input says; and, the zone resolved,
    when the three patterns and the general form all refuse the trimmed
    input, with [ErrInvalidDateFormat] and that input in the text. *)
Theorem ParseTime_failures
        (E : Env) (clock1 clock2 : Time) (input timezone : string) (e : parse_error) :
  let s := TrimSpace (unicode E) input in
  ParseTime E clock1 clock2 input timezone = inl e
  <-> (s = ""
       /\ e = mkErr ErrInvalidDateFormat "invalid date/time format: empty input")
      \/ (s <> "" /\ getLocation E timezone = inl e
          /\ sentinel e = ErrInvalidTimezone)
      \/ (s <> ""
          /\ exists loc,
            getLocation E timezone = inr loc
            /\ parseRelative E clock1 s loc = None
            /\ parseTimeOnly E clock2 s loc = None
            /\ generalFormRejects E s loc
            /\ e = couldNotParse s).
Proof.
  intros s. unfold ParseTime. fold s.
  destruct (String.eqb_spec s "") as [Hs|Hs].
  - split.
    + intros [= <-]. left. auto.
    + intros [[_ ->]|[[H _]|[H _]]]; [reflexivity|contradiction|contradiction].
  - destruct (getLocation E timezone) as [err|loc] eqn:Hloc.
    + split.
      * intros [= <-]. right. left. repeat split; auto.
        now apply (getLocation_error E timezone).
      * intros [[H _]|[(_ & H & _)|(_ & loc & H & _)]];
          [contradiction|congruence|discriminate].
    + split.
      * intros H. right. right. split; [exact Hs|]. exists loc.
        destruct (parseRelative E clock1 s loc); [discriminate|].
        destruct (parseTimeOnly E clock2 s loc); [discriminate|].
        apply parseStandard_error in H.
        destruct H as [Hrej ->]. auto.
      * intros [[H _]|[(_ & H & _)|(_ & loc' & H & Hr & Ho & Hrej & ->)]];
          [contradiction|discriminate|].
        injection H as <-. rewrite Hr, Ho. now apply parseStandard_rejects.
Qed.

Lemma ParseTime_failures_witness :
  ParseTime (Samples.envTZ "") Samples.noon Samples.noon "14:00" "Mars/Olympus"
  = inl (mkErr ErrInvalidTimezone "invalid timezone: Mars/Olympus").
Proof.
  apply (proj2 (ParseTime_failures (Samples.envTZ "") Samples.noon Samples.noon
                  "14:00" "Mars/Olympus"
                  (mkErr ErrInvalidTimezone "invalid timezone: Mars/Olympus"))).
  right. left. split; [discriminate|]. split; reflexivity.
Defined.

End GeneralForm.

(** ** The duration parser: components *)

Section DurationComponents.
Import GoInt GoStrings GoTime GoDuration Spec Shapes.

Lemma length_append (a b : string) :
  String.length (a ++ b) = (String.length a + String.length b)%nat.
Proof.
  induction a as [|c a IH]; [reflexivity|]. rewrite append_cons. simpl. now rewrite IH.
Qed.

Lemma leadingInt_digits (digits rest : string) (acc : Z) :
  forallb_str isDigit digits = true -> 0 <= acc ->
  digitsVal acc digits <= two63 ->
  match rest with String c _ => isDigit c = false | EmptyString => True end ->
  leadingInt acc (digits ++ rest) = Some (digitsVal acc digits, rest).
Proof.
  revert acc. induction digits as [|c digits IH]; intros acc Hd Hacc Hmax Hrest.
  - rewrite append_nil_l. simpl.
    destruct rest as [|c r]; [reflexivity|]. simpl. now rewrite Hrest.
  - rewrite append_cons. simpl in *. apply andb_true_iff in Hd. destruct Hd as [Hc Hd].
    rewrite Hc. pose proof (isDigit_range _ Hc) as Hr.
    pose proof (digitsVal_lower digits (acc * 10 + digitVal c) Hd ltac:(lia)) as Hlo.
    assert (H10 : two63 / 10 = 922337203685477580) by reflexivity.
    assert (H63 : two63 = 9223372036854775808) by reflexivity.
    destruct (Z.gtb_spec acc (two63 / 10)); [lia|].
    destruct (Z.gtb_spec (acc * 10 + digitVal c) two63); [lia|].
    apply IH; auto. lia.
Qed.

(** The facts about a unit written in ASCII: it is known to [unitMap], it
    has no digit and no point, and its bytes are ASCII and no white
    space. *)
Lemma asciiUnit_facts (u : string) (k : Z) :
  List.In (u, k) asciiUnits ->
  unitMap u = Some k /\ 0 < k /\ k <= Hour
  /\ forallb_str (fun c => negb (isUnitStop c)) u = true
  /\ forallb_str solid u = true
  /\ exists c r, u = String c r /\ isDigit c = false /\ Ascii.eqb c "." = false.
Proof.
  intros H. simpl in H.
  decompose [or] H; try contradiction;
    match goal with Heq : (_, _) = (_, _) |- _ => injection Heq as <- <- end;
    repeat split; try reflexivity; try discriminate;
    eexists _, _; repeat split.
Qed.

Lemma components_nil (F : FracNs) (fuel : nat) (d : Z) : components F fuel d "" = Some d.
Proof. destruct fuel; reflexivity. Qed.

(** One round of the loop on a whole component. *)
Lemma components_step (F : FracNs) (fuel : nat) (d : Z) (digits u rest : string) (k : Z) :
  digits <> "" -> forallb_str isDigit digits = true ->
  List.In (u, k) asciiUnits ->
  match rest with String c _ => isUnitStop c = true | EmptyString => True end ->
  0 <= d -> d + digitsVal 0 digits * k <= two63 - 1 ->
  components F (S fuel) d (digits ++ u ++ rest)
  = components F fuel (d + digitsVal 0 digits * k) rest.
Proof.
  intros Hne Hd Hu Hrest Hd0 Hsum.
  destruct (asciiUnit_facts u k Hu) as (Hmap & Hk & HkH & Hstop & _ & c & r & -> & Hcd & Hcp).
  pose proof (digitsVal_lower _ 0 Hd ltac:(lia)) as Hlo.
  set (V := digitsVal 0 digits) in *.
  assert (H63 : two63 = 9223372036854775808) by reflexivity.
  assert (HVk : V * 1 <= V * k) by (apply Z.mul_le_mono_nonneg_l; lia).
  assert (HV : V <= two63 / k).
  { apply Z.div_le_lower_bound; [lia|]. rewrite Z.mul_comm. lia. }
  assert (Hex : exists c0 digits', digits = String c0 digits')
    by (destruct digits; [contradiction|eauto]).
  destruct Hex as (c0 & digits' & Hdig).
  assert (Hc0 : isDigit c0 = true).
  { pose proof Hd as Hd'. rewrite Hdig in Hd'. simpl in Hd'.
    now apply andb_true_iff in Hd'. }
  assert (Hshape : digits ++ String c r ++ rest
                   = String c0 (digits' ++ String c r ++ rest))
    by (rewrite Hdig; apply append_cons).
  unfold components; fold components. rewrite Hshape at 1. cbv beta iota.
  rewrite Hc0, orb_true_r. cbn [negb].
  rewrite (leadingInt_digits digits (String c r ++ rest) 0 Hd ltac:(lia));
    [|fold V; lia|rewrite append_cons; exact Hcd].
  fold V.
  assert (Hpre : (String.length (digits ++ String c r ++ rest)
                  =? String.length (String c r ++ rest))%nat = false).
  { apply Nat.eqb_neq. rewrite (length_append digits). rewrite Hdig. simpl. lia. }
  rewrite Hpre. cbn [negb].
  rewrite (append_cons c r rest), Hcp. cbn [negb andb].
  rewrite <- (append_cons c r rest).
  rewrite (span_app_stop (fun c => negb (isUnitStop c)) (String c r) rest);
    [|exact Hstop|].
  2:{ destruct rest as [|x rest']; [exact I|]. now rewrite Hrest. }
  rewrite Hmap.
  destruct (Z.gtb_spec V (two63 / k)); [lia|].
  replace (0 >? 0) with false by reflexivity. cbn [andb].
  assert (Hw : wrapU64 (d + V * k) = d + V * k).
  { unfold wrapU64. apply Z.mod_small. split; lia. }
  rewrite Hw. destruct (Z.gtb_spec (d + V * k) two63); [lia|]. reflexivity.
Qed.

Lemma render_head (cs : list component) :
  Forall wellFormed cs ->
  match render cs with String c _ => isUnitStop c = true | EmptyString => True end.
Proof.
  intros H. destruct H as [|[digits [u k]] rest (Hne & Hd & _) _]; [exact I|].
  simpl. destruct digits as [|c digits]; [contradiction|].
  rewrite append_cons. simpl in Hd. apply andb_true_iff in Hd. destruct Hd as [Hc _].
  unfold isUnitStop. now rewrite Hc, orb_true_r.
Qed.

Lemma total_nonneg (cs : list component) : Forall wellFormed cs -> 0 <= total cs.
Proof.
  induction 1 as [|[digits [u k]] rest (Hne & Hd & Hu) _ IH]; simpl; [lia|].
  destruct (asciiUnit_facts u k Hu) as (_ & Hk & _).
  pose proof (digitsVal_lower _ 0 Hd ltac:(lia)). nia.
Qed.

Lemma components_render (F : FracNs) (cs : list component) (fuel : nat) (d : Z) :
  Forall wellFormed cs -> (length cs <= fuel)%nat ->
  0 <= d -> d + total cs <= two63 - 1 ->
  components F fuel d (render cs) = Some (d + total cs).
Proof.
  intros Hwf. revert fuel d.
  induction Hwf as [|[digits [u k]] rest (Hne & Hd & Hu) Hrest IH]; intros fuel d Hf Hd0 Hsum.
  - simpl. rewrite components_nil. f_equal. lia.
  - simpl in *. destruct fuel as [|fuel]; [lia|].
    pose proof (total_nonneg rest Hrest) as Htn.
    destruct (asciiUnit_facts u k Hu) as (_ & Hk & _).
    pose proof (digitsVal_lower _ 0 Hd ltac:(lia)) as Hlo.
    rewrite (components_step F fuel d digits u (render rest) k); auto.
    + rewrite IH; [f_equal; lia|lia|nia|lia].
    + now apply render_head.
    + lia.
Qed.

End DurationComponents.

Section DurationTexts.
Import GoInt GoStrings GoTime Spec Shapes.

Lemma render_solid (cs : list component) :
  Forall wellFormed cs -> forallb_str solid (render cs) = true.
Proof.
  induction 1 as [|[digits [u k]] rest (Hne & Hd & Hu) _ IH]; [reflexivity|].
  simpl. destruct (asciiUnit_facts u k Hu) as (_ & _ & _ & _ & Hsolid & _).
  rewrite !forallb_str_app, (digits_solid _ Hd), Hsolid, IH. reflexivity.
Qed.

Lemma render_length (cs : list component) :
  Forall wellFormed cs -> (2 * length cs <= String.length (render cs))%nat.
Proof.
  induction 1 as [|[digits [u k]] rest (Hne & Hd & Hu) _ IH]; [simpl; lia|].
  destruct (asciiUnit_facts u k Hu) as (_ & _ & _ & _ & _ & c & r & -> & _).
  destruct digits as [|c0 digits]; [contradiction|].
  cbn [render length]. rewrite !length_append. simpl. lia.
Qed.

(** A text of whole components is no integer for [Atoi]. *)
Lemma render_not_integer (cs : list component) :
  cs <> [] -> Forall wellFormed cs ->
  Atoi (render cs) = None
  /\ exists c0 r0, render cs = String c0 r0 /\ isDigit c0 = true.
Proof.
  intros Hne Hwf. destruct Hwf as [|[digits [u k]] rest (Hdne & Hd & Hu) _];
    [contradiction|].
  destruct (asciiUnit_facts u k Hu) as (_ & _ & _ & _ & _ & c & r & -> & Hcd & _).
  destruct digits as [|c0 digits]; [contradiction|].
  assert (Hc0 : isDigit c0 = true) by (simpl in Hd; now apply andb_true_iff in Hd).
  split; [|cbn [render]; rewrite append_cons; eauto].
  assert (Hall : forallb_str isDigit (render ((String c0 digits, (String c r, k)) :: rest))
                 = false).
  { cbn [render]. rewrite !forallb_str_app. simpl. rewrite Hcd.
    now rewrite andb_false_r. }
  unfold Atoi. cbn [render] in *. rewrite append_cons in *.
  assert (Hm : Ascii.eqb c0 "-" = false)
    by (apply Ascii.eqb_neq; intros ->; discriminate Hc0).
  assert (Hp : Ascii.eqb c0 "+" = false)
    by (apply Ascii.eqb_neq; intros ->; discriminate Hc0).
  rewrite Hm, Hp, Hall. reflexivity.
Qed.

(** The duration of a text made of whole components. *)
Lemma ParseDuration_of_components
        (U : Unicode) (F : GoDuration.FracNs) (cs : list component) :
  cs <> [] -> Forall wellFormed cs -> total cs <= maxInt64 ->
  TimeParse.ParseDuration U F (render cs) = inr (total cs).
Proof.
  intros Hne Hwf Hmax.
  destruct (render_not_integer cs Hne Hwf) as (Hatoi & c0 & r0 & Hr & Hc0).
  pose proof (render_length cs Hwf) as Hlen.
  pose proof (total_nonneg cs Hwf) as Htn.
  assert (Hcs : (1 <= length cs)%nat) by (destruct cs; [contradiction|simpl; lia]).
  unfold TimeParse.ParseDuration.
  rewrite (TrimSpace_solid U _ (render_solid cs Hwf)).
  destruct (String.eqb_spec (render cs) "") as [e|_];
    [rewrite e in Hlen; simpl in Hlen; lia|].
  rewrite Hatoi. unfold GoDuration.ParseDuration.
  assert (Hm : Ascii.eqb c0 "-" = false)
    by (apply Ascii.eqb_neq; intros ->; discriminate Hc0).
  assert (Hp : Ascii.eqb c0 "+" = false)
    by (apply Ascii.eqb_neq; intros ->; discriminate Hc0).
  rewrite Hr at 1. rewrite Hm, Hp.
  destruct (String.eqb_spec (render cs) "0") as [e|_];
    [rewrite e in Hlen; simpl in Hlen; lia|].
  destruct (String.eqb_spec (render cs) "") as [e|_];
    [rewrite e in Hlen; simpl in Hlen; lia|].
  rewrite (components_render F cs (String.length (render cs)) 0 Hwf);
    [|lia|lia|unfold GoDuration.two63, maxInt64 in *; lia].
  destruct (Z.gtb_spec (0 + total cs) (GoDuration.two63 - 1)) as [Hgt|_].
  - unfold GoDuration.two63, maxInt64 in *. lia.
  - now rewrite Z.add_0_l.
Qed.

(** X8. A duration text made of whole components, each a count in digits
    and one of the units [h], [m], [s], [ms], [us], [ns], in any order and
    with repetitions, parses to the sum of the components, as long as the
    sum fits 64 bits: ["1h30m"] is 90 minutes, and ["Nm"] is [N] minutes
    like the bare ["N"]. *)
Theorem ParseDuration_sums_components
        (U : Unicode) (F : GoDuration.FracNs) (cs : list component) :
  cs <> [] -> Forall wellFormed cs -> total cs <= maxInt64 ->
  TimeParse.ParseDuration U F (render cs) = inr (total cs).
Proof. exact (ParseDuration_of_components U F cs). Qed.

Lemma ParseDuration_sums_components_witness :
  TimeParse.ParseDuration Samples.asciiOnly Samples.noFraction "1h30m"
  = inr (90 * Minute).
Proof.
  apply (ParseDuration_sums_components Samples.asciiOnly Samples.noFraction
           [("1", ("h", Hour)); ("30", ("m", Minute))]).
  - discriminate.
  - constructor; [split; [discriminate|split; [reflexivity|simpl; auto 10]]|].
    constructor; [split; [discriminate|split; [reflexivity|simpl; auto 10]]|].
    constructor.
  - vm_compute. discriminate.
Defined.

(** A bare count of minutes, by the helper lemmas. *)
Lemma ParseDuration_digits (U : Unicode) (F : GoDuration.FracNs) (digits : string) :
  digits <> "" -> forallb_str isDigit digits = true ->
  digitsVal 0 digits <= maxWholeMinutes ->
  TimeParse.ParseDuration U F digits = inr (digitsVal 0 digits * Minute).
Proof.
  intros Hne Hd Hmax.
  pose proof (digitsVal_lower _ 0 Hd ltac:(lia)) as Hlo.
  unfold TimeParse.ParseDuration. rewrite (TrimSpace_solid U _ (digits_solid _ Hd)).
  destruct (String.eqb_spec digits "") as [e|_]; [contradiction|].
  rewrite (Atoi_digits digits Hne Hd)
    by (unfold maxWholeMinutes, maxInt64 in *; lia).
  unfold mul64. rewrite wrap64_small; [reflexivity|].
  unfold minInt64, maxInt64, maxWholeMinutes, Minute, Second in *. lia.
Qed.

(** X9. The suffix [m] is the default: for a count [N] of at most
    [maxWholeMinutes], ["Nm"] and the bare ["N"] parse to the same span. *)
Theorem ParseDuration_minutes_suffix_is_default
        (U : Unicode) (F : GoDuration.FracNs) (digits : string) :
  digits <> "" -> forallb_str isDigit digits = true ->
  digitsVal 0 digits <= maxWholeMinutes ->
  TimeParse.ParseDuration U F (digits ++ "m") = TimeParse.ParseDuration U F digits.
Proof.
  intros Hne Hd Hmax.
  pose proof (digitsVal_lower _ 0 Hd ltac:(lia)) as Hlo.
  rewrite (ParseDuration_digits U F digits Hne Hd Hmax).
  pose proof (ParseDuration_of_components U F [(digits, ("m", Minute))]) as H.
  cbn [render total] in H. rewrite append_nil_r, Z.add_0_r in H. apply H.
  - discriminate.
  - constructor; [split; [exact Hne|split; [exact Hd|simpl; auto 10]]|].
    constructor.
  - unfold maxWholeMinutes, maxInt64, Minute, Second in *. lia.
Qed.

Lemma ParseDuration_minutes_suffix_is_default_witness :
  TimeParse.ParseDuration Samples.asciiOnly Samples.noFraction ("045" ++ "m")
  = TimeParse.ParseDuration Samples.asciiOnly Samples.noFraction "045".
Proof.
  apply (ParseDuration_minutes_suffix_is_default Samples.asciiOnly Samples.noFraction
           "045");
    [discriminate|reflexivity|vm_compute; discriminate].
Defined.

End DurationTexts.

(** ** From the duration parser to event submission *)

Section DurationToEvent.
Import GoInt GoStrings GoTime GoError Spec Shapes.

(** X10. A bare integer that is zero or negative (["0"], ["-15"]) is no
    error for [ParseDuration]: it parses to a span of that many minutes,
    which is not positive, and [CreateEvent] refuses every request with
    such a duration with [ErrInvalidEventTime], sending nothing. *)
Theorem nonpositive_minutes_parse_but_are_refused
        (U : Unicode) (F : GoDuration.FracNs) (K : Calendar) (c : Client.Client)
        (ctx : Context) (input : string) (n : Z) (params : Client.EventParams) :
  Atoi (TrimSpace U input) = Some n -> - maxWholeMinutes <= n <= 0 ->
  Client.Duration params = n * Minute ->
  TimeParse.ParseDuration U F input = inr (n * Minute)
  /\ exists detail,
      Client.CreateEvent K c ctx params
      = ([], Client.Return (inl (Client.CalErr
                    (Client.mkErr Client.ErrInvalidEventTime
                                  ("invalid event time: " ++ detail))))).
Proof.
  intros HA Hn Hdur. split.
  - unfold TimeParse.ParseDuration.
    destruct (String.eqb_spec (TrimSpace U input) "") as [e|_].
    + rewrite e in HA. discriminate HA.
    + rewrite HA. unfold mul64. rewrite wrap64_small; [reflexivity|].
      unfold minInt64, maxInt64, maxWholeMinutes, Minute, Second in *. lia.
  - destruct (validate_rejects params) as (detail & Hv & _).
    + right. right. rewrite Hdur. unfold Minute, Second. lia.
    + exists detail. unfold Client.CreateEvent. now rewrite Hv.
Qed.

Lemma nonpositive_minutes_parse_but_are_refused_witness :
  TimeParse.ParseDuration Samples.asciiOnly Samples.noFraction " -15 "
  = inr (-15 * Minute)
  /\ exists detail,
      Client.CreateEvent Samples.smallCalendar Samples.echoClient Live
        {| Client.Title := "Team Meeting"; Client.StartTime := Samples.noon;
           Client.Duration := -15 * Minute; Client.Description := "";
           Client.Location := "" |}
      = ([], Client.Return (inl (Client.CalErr
                    (Client.mkErr Client.ErrInvalidEventTime
                                  ("invalid event time: " ++ detail))))).
Proof.
  apply (nonpositive_minutes_parse_but_are_refused
           Samples.asciiOnly Samples.noFraction Samples.smallCalendar
           Samples.echoClient Live " -15 " (-15));
    [reflexivity|vm_compute; split; discriminate|reflexivity].
Defined.

End DurationToEvent.

(** ** Event submission: requests and errors *)

Section Submission.
Import GoInt GoStrings GoTime GoError Client ClientSetup Spec.

Lemma wrapAPIError_sentinel (err : goerror) :
  sentinel (wrapAPIError err) <> ErrInvalidEventTime.
Proof.
  unfold wrapAPIError. destruct (errors_As err) as [apiErr|]; [|discriminate].
  repeat match goal with
         | |- context [ if ?b then _ else _ ] => destruct b
         end; discriminate.
Qed.

(** X11. [CreateEvent] sends at most one request: none when validation
    fails, exactly one otherwise, whatever the provider answers.  A failure
    of the provider comes back as [wrapAPIError] of it, and an error that
    is [ErrInvalidEventTime] always means that nothing was sent. *)
Theorem CreateEvent_sends_at_most_once
        (K : Calendar) (c : Client) (ctx : Context) (params : EventParams) :
  (validateEventParams params <> None -> fst (CreateEvent K c ctx params) = [])
  /\ (validateEventParams params = None ->
      fst (CreateEvent K c ctx params)
      = [EventsInsert (calendarID c) (buildEvent K params)])
  /\ (forall err,
         validateEventParams params = None ->
         service c (calendarID c) (buildEvent K params) ctx = inl err ->
         snd (CreateEvent K c ctx params) = Return (inl (CalErr (wrapAPIError err))))
  /\ (forall e,
         snd (CreateEvent K c ctx params) = Return (inl (CalErr e)) ->
         sentinel e = ErrInvalidEventTime ->
         fst (CreateEvent K c ctx params) = []).
Proof.
  unfold CreateEvent.
  destruct (validateEventParams params) as [verr|] eqn:Hv.
  - repeat split; try reflexivity; intros; congruence.
  - split; [congruence|].
    destruct (service c (calendarID c) (buildEvent K params) ctx) as [err|ev] eqn:Hs.
    + split; [reflexivity|]. split.
      * intros err' _ [= <-]. reflexivity.
      * simpl. intros e [= <-] He. now destruct (wrapAPIError_sentinel err).
    + split; [reflexivity|]. split; [discriminate|].
      simpl. unfold parseEventResult. intros e He Hsent. exfalso.
      repeat match type of He with
             | context [ match ?x with _ => _ end ] => destruct x
             end; discriminate.
Qed.

Lemma CreateEvent_sends_at_most_once_witness :
  fst (CreateEvent Samples.smallCalendar Samples.echoClient Live Samples.untitled) = []
  /\ fst (CreateEvent Samples.smallCalendar Samples.echoClient Live Samples.meeting)
     = [EventsInsert "primary" (buildEvent Samples.smallCalendar Samples.meeting)]
  /\ snd (CreateEvent Samples.smallCalendar
            {| service := fun _ _ _ => inl (Samples.apiError 404 []);
               calendarID := "team" |} Live Samples.meeting)
     = Return (inl (CalErr (wrapAPIError (Samples.apiError 404 [])))).
Proof.
  split; [|split].
  - apply (proj1 (CreateEvent_sends_at_most_once
                    Samples.smallCalendar Samples.echoClient Live Samples.untitled)).
    discriminate.
  - apply (proj1 (proj2 (CreateEvent_sends_at_most_once
                    Samples.smallCalendar Samples.echoClient Live Samples.meeting))).
    reflexivity.
  - apply (proj1 (proj2 (proj2 (CreateEvent_sends_at_most_once
                    Samples.smallCalendar
                    {| service := fun _ _ _ => inl (Samples.apiError 404 []);
                       calendarID := "team" |} Live Samples.meeting))));
      reflexivity.
Defined.

(** X12. A client made by [NewClient] never has an empty calendar: the
    empty identifier stands for ["primary"], any other is kept; so a valid
    request through a client made with the empty identifier is sent to the
    calendar ["primary"]. *)
Theorem NewClient_defaults_to_primary
        (K : Calendar) (svc : Service) (calendarID : string) (ctx : Context)
        (params : EventParams) :
  exists c,
    NewClient (inr svc) calendarID = inr c
    /\ Client.calendarID c <> ""
    /\ (calendarID <> "" -> Client.calendarID c = calendarID)
    /\ (calendarID = "" -> validateEventParams params = None ->
        fst (CreateEvent K c ctx params)
        = [EventsInsert "primary" (buildEvent K params)]).
Proof.
  unfold NewClient.
  destruct (String.eqb_spec calendarID "") as [->|Hne]; eexists; split;
    try reflexivity; cbn [Client.calendarID].
  - split; [discriminate|]. split; [contradiction|].
    intros _ Hv. unfold CreateEvent. rewrite Hv. simpl.
    destruct (svc "primary" (buildEvent K params) ctx); reflexivity.
  - split; [exact Hne|]. split; [reflexivity|contradiction].
Qed.

Lemma NewClient_defaults_to_primary_witness :
  exists c,
    NewClient (inr (fun _ ev _ => inr ev)) "" = inr c
    /\ Client.calendarID c <> ""
    /\ fst (CreateEvent Samples.smallCalendar c Live Samples.meeting)
       = [EventsInsert "primary" (buildEvent Samples.smallCalendar Samples.meeting)].
Proof.
  destruct (NewClient_defaults_to_primary Samples.smallCalendar
              (fun _ ev _ => inr ev) "" Live Samples.meeting)
    as (c & H1 & H2 & _ & H4).
  exists c. split; [exact H1|]. split; [exact H2|]. apply H4; reflexivity.
Defined.

End Submission.

(** ** The callback listener: the channels *)

Section Channels.
Import GoInt GoStrings GoError Auth Spec Shapes.

(** X13. A request is answered exactly when the slot it writes to is free.
    An answered request wrote one channel and left the other alone: with
    200 it put its non-empty code on the success channel, with 400 it had
    no code and put a non-empty message on the error channel.  No other
    status is ever written. *)
Theorem handler_outcomes (chans : Chans) (q : Values) :
  (handler chans q = None
   <-> (Get q "code" <> "" /\ codeChan chans <> None)
       \/ (Get q "code" = "" /\ errChan chans <> None))
  /\ forall chans' resp,
      handler chans q = Some (chans', resp) ->
      (StatusCode resp = 200
       /\ Get q "code" <> "" /\ codeChan chans = None
       /\ codeChan chans' = Some (Get q "code") /\ errChan chans' = errChan chans)
      \/ (StatusCode resp = 400
          /\ Get q "code" = "" /\ errChan chans = None
          /\ codeChan chans' = codeChan chans
          /\ exists msg, errChan chans' = Some msg /\ msg <> "").
Proof.
  unfold handler.
  destruct (String.eqb_spec (Get q "code") "") as [Hc|Hc].
  - destruct (errChan chans) as [x|] eqn:He.
    + split.
      * split; [intros _; right; split; [exact Hc|discriminate]|reflexivity].
      * discriminate.
    + split.
      * split; [discriminate|]. intros [[H _]|[_ H]]; [contradiction|now destruct H].
      * intros chans' resp [= <- <-]. right. repeat split; auto.
        destruct (String.eqb_spec (Get q "error") "") as [e|n]; eexists; split;
          try reflexivity; [discriminate|exact n].
  - destruct (codeChan chans) as [x|] eqn:He.
    + split.
      * split; [intros _; left; split; [exact Hc|discriminate]|reflexivity].
      * discriminate.
    + split.
      * split; [discriminate|]. intros [[_ H]|[H _]]; [now destruct H|contradiction].
      * intros chans' resp [= <- <-]. left. repeat split; auto.
Qed.

Lemma handler_outcomes_witness :
  (Get (Samples.query [("code", ["abc"])]) "code" <> ""
   /\ codeChan {| codeChan := Some "first"; errChan := None |} <> None)
  \/ (Get (Samples.query [("code", ["abc"])]) "code" = ""
      /\ errChan {| codeChan := Some "first"; errChan := None |} <> None).
Proof.
  apply (proj1 (proj1 (handler_outcomes {| codeChan := Some "first"; errChan := None |}
                                        (Samples.query [("code", ["abc"])])))).
  vm_compute. reflexivity.
Defined.

Lemma serve_from (chans : Chans) (reqs : list Arrival) :
  codeChan (serve chans reqs)
  = match codeChan chans with Some x => Some x | None => firstCode reqs end
  /\ errChan (serve chans reqs)
     = match errChan chans with Some x => Some x | None => firstError reqs end.
Proof.
  revert chans. induction reqs as [|[q|err] rest IH]; intros chans.
  - simpl. split; [now destruct (codeChan chans)|now destruct (errChan chans)].
  - cbn [serve arrive firstCode firstError]. unfold handler.
    destruct (String.eqb_spec (Get q "code") "") as [Hc|Hc].
    + destruct (errChan chans) as [x|] eqn:He.
      * destruct (IH chans) as [H1 H2]. rewrite H1, H2, He. split; reflexivity.
      * destruct (IH {| codeChan := codeChan chans;
                        errChan := Some (if String.eqb (Get q "error") ""
                                         then "no authorization code received"
                                         else Get q "error") |}) as [H1 H2].
        rewrite H1, H2. split; reflexivity.
    + destruct (codeChan chans) as [x|] eqn:He.
      * destruct (IH chans) as [H1 H2]. rewrite H1, H2, He. split; reflexivity.
      * destruct (IH {| codeChan := Some (Get q "code"); errChan := errChan chans |})
          as [H1 H2].
        rewrite H1, H2. split; reflexivity.
  - cbn [serve arrive firstCode firstError].
    destruct (errChan chans) as [x|] eqn:He.
    + destruct (IH chans) as [H1 H2]. rewrite H1, H2, He. split; reflexivity.
    + destruct (IH {| codeChan := codeChan chans; errChan := Some err |}) as [H1 H2].
      rewrite H1, H2. split; reflexivity.
Qed.

(** X14. First write wins.  Whatever is sent afterwards, a value waiting in
    a channel is never replaced.  Starting from empty channels, the success
    channel ends up holding the code of the first handler to send one, and
    the error channel the first error sent: the message of a handler whose
    request carries no code, or the failure of [server.Serve] when that is
    sent before. *)
Theorem serve_first_write_wins (chans : Chans) (reqs : list Arrival) :
  (forall x, codeChan chans = Some x -> codeChan (serve chans reqs) = Some x)
  /\ (forall x, errChan chans = Some x -> errChan (serve chans reqs) = Some x)
  /\ codeChan (serve emptyChans reqs) = firstCode reqs
  /\ errChan (serve emptyChans reqs) = firstError reqs.
Proof.
  destruct (serve_from chans reqs) as [H1 H2].
  destruct (serve_from emptyChans reqs) as [H3 H4].
  split; [|split; [|split]].
  - intros x Hx. now rewrite H1, Hx.
  - intros x Hx. now rewrite H2, Hx.
  - exact H3.
  - exact H4.
Qed.

Lemma serve_first_write_wins_witness :
  codeChan (serve {| codeChan := Some "first"; errChan := None |}
                  [Request (Samples.query [("code", ["second"])])]) = Some "first"
  /\ errChan (serve {| codeChan := None; errChan := Some "accept: closed" |}
                    [Request (Samples.query [("error", ["access_denied"])])])
     = Some "accept: closed".
Proof.
  split.
  - apply (proj1 (serve_first_write_wins {| codeChan := Some "first"; errChan := None |}
                    [Request (Samples.query [("code", ["second"])])])).
    reflexivity.
  - apply (proj1 (proj2 (serve_first_write_wins
                           {| codeChan := None; errChan := Some "accept: closed" |}
                           [Request (Samples.query [("error", ["access_denied"])])]))).
    reflexivity.
Defined.

End Channels.

(** ** The interactive flow: listener, wait and exchange *)

Section InteractiveFlow.
Import GoInt GoStrings GoTime GoError Auth Spec Shapes.

Lemma select_cases (sched : nat) (chans : Chans) (ctx : Context) :
  (select sched chans ctx = Timeout /\ ready chans ctx = [])
  \/ List.In (select sched chans ctx) (ready chans ctx).
Proof.
  unfold select. destruct (ready chans ctx) as [|c cs] eqn:Hr; [left; auto|right].
  apply nth_In. apply Nat.mod_upper_bound. simpl. lia.
Qed.

Lemma ready_members (chans : Chans) (ctx : Context) (c : SelectCase) :
  List.In c (ready chans ctx) ->
  match c with
  | GotCode x => codeChan chans = Some x
  | GotErr x => errChan chans = Some x
  | CtxDone => ctx_Done ctx = true
  | Timeout => False
  end.
Proof.
  unfold ready. rewrite !in_app_iff.
  destruct (codeChan chans), (errChan chans), (ctx_Done ctx); simpl;
    intros H; decompose [or] H; subst; auto; try contradiction.
Qed.

Lemma saveToken_effects (E : Env) (a : Authenticator) (t : Token)
      (p : Effect -> bool) :
  (forall path data perm, p (FileWrite path data perm) = true) ->
  forallb p (fst (saveToken E a t)) = true.
Proof.
  intros Hp. unfold saveToken. destruct (MarshalIndent E t); [reflexivity|].
  destruct (WriteFile E (tokenPath a) s 384); simpl; now rewrite Hp.
Qed.

(** The effects of [authenticate] before it returns, when the listener is
    bound: everything but the closing of the listener. *)
Lemma authenticate_shape (E : Env) (a : Authenticator) (cfg : Config) (ctx : Context)
      (reqs : list Arrival) (sched : nat) (port : Z) :
  net_Listen E = inr port ->
  exists body r,
    authenticate E a cfg ctx reqs sched
    = (set_config a (set_RedirectURL cfg ("http://localhost:" ++ itoa port)),
       (body ++ [ServerClose])%list, r)
    /\ forallb (fun e => negb (isServerClose e)) body = true
    /\ (forallb (fun e => negb (isExchangeCall e)) body = false ->
        exists code, select sched (serve emptyChans reqs) ctx = GotCode code).
Proof.
  intros Hl. unfold authenticate. rewrite Hl.
  set (cfg' := set_RedirectURL cfg _).
  set (u := AuthCodeURL cfg' stateToken AccessTypeOffline).
  set (pre := ([ListenLoopback; Stdout "Opening browser for authentication...";
                StdoutURL u; Browser u]
               ++ match openBrowser E u with
                  | Some e => [Stderr ("Warning: failed to open browser: " +:+ e)]
                  | None => []
                  end
               ++ [Stdout "Waiting for authorization..."; Select ctx])%list).
  assert (Hpre : forallb (fun e => negb (isServerClose e)) pre = true
                 /\ forallb (fun e => negb (isExchangeCall e)) pre = true).
  { unfold pre. destruct (openBrowser E u); split; reflexivity. }
  destruct Hpre as [Hp1 Hp2].
  destruct (select sched (serve emptyChans reqs) ctx) as [code|e| |] eqn:Hsel.
  - destruct (Exchange E cfg' ctx code) as [e|token].
    + exists (pre ++ [ExchangeCall ctx code])%list. eexists. split.
      * rewrite <- app_assoc. reflexivity.
      * split; [rewrite forallb_app, Hp1; reflexivity|]. eauto.
    + pose proof (saveToken_effects E (set_config a cfg') token
                    (fun e => negb (isServerClose e)) (fun _ _ _ => eq_refl)) as Hs.
      destruct (saveToken E (set_config a cfg') token) as [fx saveErr].
      cbn [fst] in Hs.
      exists (pre ++ [ExchangeCall ctx code] ++ fx
              ++ match saveErr with
                 | Some e => [Stderr ("Warning: failed to save token: " +:+ e)]
                 | None => []
                 end
              ++ [Stdout "Authentication successful!"])%list.
      eexists. split.
      * rewrite <- !app_assoc. reflexivity.
      * split; [|eauto]. rewrite !forallb_app, Hp1, Hs.
        destruct saveErr; reflexivity.
  - exists pre. eexists. split; [reflexivity|]. split; [exact Hp1|].
    intros H. rewrite Hp2 in H. discriminate H.
  - exists pre. eexists. split; [reflexivity|]. split; [exact Hp1|].
    intros H. rewrite Hp2 in H. discriminate H.
  - exists pre. eexists. split; [reflexivity|]. split; [exact Hp1|].
    intros H. rewrite Hp2 in H. discriminate H.
Qed.

(** X15. The listener is released on every path.  A run whose listener is
    bound ends by closing it, closes it once, and leaves the redirect
    address of that port in the configuration; a run whose listener cannot
    be bound fails at once, having opened no browser and with nothing to
    close. *)
Theorem authenticate_closes_listener
        (E : Env) (a : Authenticator) (cfg : Config) (ctx : Context)
        (reqs : list Arrival) (sched : nat) :
  (forall port, net_Listen E = inr port ->
     exists body,
       snd (fst (authenticate E a cfg ctx reqs sched)) = (body ++ [ServerClose])%list
       /\ forallb (fun e => negb (isServerClose e)) body = true
       /\ config (fst (fst (authenticate E a cfg ctx reqs sched)))
          = Some (set_RedirectURL cfg ("http://localhost:" ++ itoa port)))
  /\ (forall e, net_Listen E = inl e ->
        authenticate E a cfg ctx reqs sched
        = (a, [ListenLoopback],
           inl (mkErr WrapsOS ("failed to start callback server: " ++ e)))).
Proof.
  split.
  - intros port Hl.
    destruct (authenticate_shape E a cfg ctx reqs sched port Hl)
      as (body & r & Heq & Hclose & _).
    exists body. rewrite Heq. auto.
  - intros e Hl. unfold authenticate. now rewrite Hl.
Qed.

Lemma authenticate_closes_listener_witness :
  exists body,
    snd (fst (authenticate (Samples.machine (Samples.mkToken "" zeroTime) 8080)
                           Samples.readyAuth Samples.sampleConfig Canceled [] 0))
    = (body ++ [ServerClose])%list
    /\ forallb (fun e => negb (isServerClose e)) body = true.
Proof.
  destruct (proj1 (authenticate_closes_listener
                     (Samples.machine (Samples.mkToken "" zeroTime) 8080)
                     Samples.readyAuth Samples.sampleConfig Canceled [] 0)
                  8080 eq_refl) as (body & H1 & H2 & _).
  exists body. split; assumption.
Defined.

(** X16. Without a code there is no exchange.  When no handler has sent a
    code before the wait ends, the flow fails, whatever the context and
    the scheduling, and the token endpoint is never called.  With nothing
    sent at all it fails with the timeout of [ErrAuthenticationFailed]
    under a live context and with the error of the context, unwrapped,
    under a context that is done.  With an error sent and a live context
    it fails with the first error sent, wrapped in
    [ErrAuthenticationFailed]: the message of a handler, or the failure of
    [server.Serve]. *)
Theorem authenticate_without_code
        (E : Env) (a : Authenticator) (cfg : Config) (ctx : Context)
        (reqs : list Arrival) (sched : nat) :
  firstCode reqs = None ->
  (exists err, snd (authenticate E a cfg ctx reqs sched) = inl err)
  /\ forallb (fun e => negb (isExchangeCall e))
             (snd (fst (authenticate E a cfg ctx reqs sched))) = true
  /\ (reqs = [] -> forall port, net_Listen E = inr port ->
      snd (authenticate E a cfg ctx reqs sched)
      = inl (if ctx_Done ctx then mkErr (CtxErr ctx) (ctx_Err_text ctx)
             else Errorf_w ErrAuthenticationFailed
                           ": timeout waiting for authorization"))
  /\ (forall e port, firstError reqs = Some e -> ctx_Done ctx = false ->
                     net_Listen E = inr port ->
      snd (authenticate E a cfg ctx reqs sched)
      = inl (Errorf_w ErrAuthenticationFailed (": " ++ e))).
Proof.
  intros Hnone.
  destruct (serve_from emptyChans reqs) as [Hcode Herr].
  cbn [codeChan errChan emptyChans] in Hcode, Herr. rewrite Hnone in Hcode.
  assert (Hsel : forall code, select sched (serve emptyChans reqs) ctx <> GotCode code).
  { intros code Hs. destruct (select_cases sched (serve emptyChans reqs) ctx) as [[H _]|H].
    - congruence.
    - rewrite Hs in H. apply ready_members in H. congruence. }
  destruct (net_Listen E) as [e|port] eqn:Hl.
  - unfold authenticate. rewrite Hl. simpl. split; [eauto|]. split; [reflexivity|].
    split; [intros _ port Hp; discriminate Hp|intros e' port _ _ Hp; discriminate Hp].
  - destruct (authenticate_shape E a cfg ctx reqs sched port Hl)
      as (body & r & Heq & _ & Hex).
    assert (Hbody : forallb (fun e => negb (isExchangeCall e)) body = true).
    { destruct (forallb (fun e => negb (isExchangeCall e)) body) eqn:Hb; [reflexivity|].
      destruct (Hex eq_refl) as (code & Hc). now destruct (Hsel code). }
    split; [|split; [|split]].
    + unfold authenticate. rewrite Hl.
      destruct (select sched (serve emptyChans reqs) ctx) as [code|e| |] eqn:Hs;
        simpl; eauto.
      now destruct (Hsel code).
    + rewrite Heq. simpl. rewrite forallb_app, Hbody. reflexivity.
    + intros -> port' _. unfold authenticate. rewrite Hl.
      unfold select, ready. simpl. destruct ctx; reflexivity.
    + intros e port' He Hlive _. rewrite He in Herr.
      unfold authenticate. rewrite Hl.
      unfold select, ready. rewrite Hcode, Herr, Hlive.
      cbn [app length nth]. rewrite Nat.mod_1_r. reflexivity.
Qed.

Lemma authenticate_without_code_witness :
  (exists err,
      snd (authenticate (Samples.machine (Samples.mkToken "" zeroTime) 8080)
                        Samples.readyAuth Samples.sampleConfig Live
                        [Request (Samples.query [("error", ["access_denied"])])] 3)
      = inl err)
  /\ forallb (fun e => negb (isExchangeCall e))
             (snd (fst (authenticate (Samples.machine (Samples.mkToken "" zeroTime) 8080)
                                     Samples.readyAuth Samples.sampleConfig Live
                                     [Request (Samples.query
                                                 [("error", ["access_denied"])])] 3)))
     = true
  /\ snd (authenticate (Samples.machine (Samples.mkToken "" zeroTime) 8080)
                       Samples.readyAuth Samples.sampleConfig Live
                       [ServeFailed "accept tcp 127.0.0.1:8080: too many open files"] 5)
     = inl (Errorf_w ErrAuthenticationFailed
                     ": accept tcp 127.0.0.1:8080: too many open files").
Proof.
  destruct (authenticate_without_code
              (Samples.machine (Samples.mkToken "" zeroTime) 8080)
              Samples.readyAuth Samples.sampleConfig Live
              [Request (Samples.query [("error", ["access_denied"])])] 3)
    as (H1 & H2 & _).
  - vm_compute. reflexivity.
  - split; [exact H1|]. split; [exact H2|].
    apply (proj2 (proj2 (proj2 (authenticate_without_code
             (Samples.machine (Samples.mkToken "" zeroTime) 8080)
             Samples.readyAuth Samples.sampleConfig Live
             [ServeFailed "accept tcp 127.0.0.1:8080: too many open files"] 5
             eq_refl)))
             "accept tcp 127.0.0.1:8080: too many open files" 8080);
      reflexivity.
Defined.

End InteractiveFlow.

Section CodeExchange.
Import GoInt GoStrings GoTime GoError Auth Spec Shapes.

Lemma select_single (sched : nat) (chans : Chans) (code : string) :
  codeChan chans = Some code -> errChan chans = None ->
  select sched chans Live = GotCode code.
Proof.
  intros Hc He. unfold select, ready. rewrite Hc, He.
  cbn [app ctx_Done length]. now rewrite Nat.mod_1_r.
Qed.

(** X17. Under a live context, when all that has been sent before the
    wait ends are codes (no handler has sent an error and [server.Serve]
    has not failed), the code of the first handler to send is what is
    exchanged, whatever the scheduling.  If the exchange succeeds its token
    is returned, also when the token cannot be saved; if it fails the error
    is [ErrAuthenticationFailed] with the text of the failure. *)
Theorem authenticate_exchanges_first_code
        (E : Env) (a : Authenticator) (cfg : Config)
        (reqs : list Arrival) (sched : nat) (port : Z) (code : string) :
  net_Listen E = inr port ->
  firstCode reqs = Some code -> firstError reqs = None ->
  let cfg' := set_RedirectURL cfg ("http://localhost:" ++ itoa port) in
  existsb isExchangeCall (snd (fst (authenticate E a cfg Live reqs sched))) = true
  /\ (forall code', List.In (ExchangeCall Live code')
                            (snd (fst (authenticate E a cfg Live reqs sched))) ->
                    code' = code)
  /\ (forall token, Exchange E cfg' Live code = inr token ->
                    snd (authenticate E a cfg Live reqs sched) = inr token)
  /\ (forall e, Exchange E cfg' Live code = inl e ->
                snd (authenticate E a cfg Live reqs sched)
                = inl (Errorf_w ErrAuthenticationFailed (": " ++ e))).
Proof.
  intros Hl Hc He cfg'.
  destruct (serve_from emptyChans reqs) as [H1 H2].
  cbn [codeChan errChan emptyChans] in H1, H2.
  rewrite Hc in H1. rewrite He in H2.
  pose proof (select_single sched _ code H1 H2) as Hsel.
  unfold authenticate. rewrite Hl. fold cfg'. rewrite Hsel.
  set (u := AuthCodeURL cfg' stateToken AccessTypeOffline).
  destruct (Exchange E cfg' Live code) as [e|token] eqn:Hex.
  - cbn [fst snd]. repeat split.
    + rewrite !existsb_app. simpl. now rewrite !orb_true_r.
    + intros code' Hin. rewrite !in_app_iff in Hin. simpl in Hin.
      destruct (openBrowser E u); simpl in Hin;
        decompose [or] Hin; try discriminate; try contradiction; congruence.
    + discriminate.
    + now intros e' [= <-].
  - pose proof (saveToken_effects E (set_config a cfg') token
                  (fun e => negb (isExchangeCall e)) (fun _ _ _ => eq_refl)) as Hs.
    destruct (saveToken E (set_config a cfg') token) as [fx saveErr].
    cbn [fst snd] in *. repeat split.
    + rewrite !existsb_app. simpl. now rewrite !orb_true_r.
    + intros code' Hin. rewrite !in_app_iff in Hin. simpl in Hin.
      assert (Hfx : ~ List.In (ExchangeCall Live code') fx).
      { intros Hi. rewrite forallb_forall in Hs. specialize (Hs _ Hi). discriminate Hs. }
      destruct (openBrowser E u), saveErr; simpl in Hin;
        decompose [or] Hin; try discriminate; try contradiction; congruence.
    + now intros token' [= <-].
    + discriminate.
Qed.

Lemma authenticate_exchanges_first_code_witness :
  snd (authenticate
         {| ReadFile := ReadFile (Samples.machine (Samples.mkToken "" zeroTime) 8080);
            WriteFile := fun _ _ _ => Some "read-only file system";
            ConfigFromJSON :=
              ConfigFromJSON (Samples.machine (Samples.mkToken "" zeroTime) 8080);
            Unmarshal := Unmarshal (Samples.machine (Samples.mkToken "" zeroTime) 8080);
            MarshalIndent := fun _ => inr "token";
            TokenSource_Token := fun _ _ _ => inl "unreachable";
            Exchange := fun _ _ code => inr (Samples.mkToken code Samples.noon);
            net_Listen := inr 8080;
            openBrowser := fun _ => Some "no display" |}
         Samples.readyAuth Samples.sampleConfig Live
         [Request (Samples.query [("code", ["abc"])]);
          Request (Samples.query [("code", ["def"])])] 7)
  = inr (Samples.mkToken "abc" Samples.noon).
Proof.
  apply (proj1 (proj2 (proj2 (authenticate_exchanges_first_code
           {| ReadFile := ReadFile (Samples.machine (Samples.mkToken "" zeroTime) 8080);
              WriteFile := fun _ _ _ => Some "read-only file system";
              ConfigFromJSON :=
                ConfigFromJSON (Samples.machine (Samples.mkToken "" zeroTime) 8080);
              Unmarshal := Unmarshal (Samples.machine (Samples.mkToken "" zeroTime) 8080);
              MarshalIndent := fun _ => inr "token";
              TokenSource_Token := fun _ _ _ => inl "unreachable";
              Exchange := fun _ _ code => inr (Samples.mkToken code Samples.noon);
              net_Listen := inr 8080;
              openBrowser := fun _ => Some "no display" |}
           Samples.readyAuth Samples.sampleConfig
           [Request (Samples.query [("code", ["abc"])]);
          Request (Samples.query [("code", ["def"])])] 7
           8080 "abc" eq_refl ltac:(vm_compute; reflexivity)
           ltac:(vm_compute; reflexivity))))).
  reflexivity.
Defined.

End CodeExchange.

(** ** [GetToken]: credentials, refresh and errors *)

Section TokenPaths.
Import GoInt GoStrings GoTime GoError Auth Spec Shapes.

(** X18. When the configuration is not loaded and the credentials cannot
    be read or do not have the expected shape, [GetToken] fails after
    reading the credentials file and nothing else: the token file is not
    opened, no endpoint is called, no listener is started.  An unreadable
    file gives the error of the read, a wrong shape
    [ErrInvalidCredentials]. *)
Theorem GetToken_without_credentials
        (E : Env) (a : Authenticator) (now : Time) (ctx : Context)
        (reqs : list Arrival) (sched : nat) :
  config a = None ->
  (forall e, ReadFile E (credentialsPath a) = inl e ->
     GetToken E a now ctx reqs sched
     = (a, [FileRead (credentialsPath a)],
        inl (mkErr WrapsOS ("failed to read credentials file: " ++ e))))
  /\ (forall data e,
         ReadFile E (credentialsPath a) = inr data ->
         ConfigFromJSON E data = inl e ->
         GetToken E a now ctx reqs sched
         = (a, [FileRead (credentialsPath a)],
            inl (mkErr (Wraps ErrInvalidCredentials)
                       ("invalid credentials file format: " ++ e)))).
Proof.
  intros Hc. split.
  - intros e Hr. unfold GetToken, LoadCredentials. now rewrite Hc, Hr.
  - intros data e Hr Hj. unfold GetToken, LoadCredentials. now rewrite Hc, Hr, Hj.
Qed.

Lemma GetToken_without_credentials_witness :
  GetToken (Samples.machine (Samples.mkToken "cached" zeroTime) 8080)
           (NewAuthenticator "missing.json" "token.json") Samples.noon Live [] 0
  = (NewAuthenticator "missing.json" "token.json", [FileRead "missing.json"],
     inl (mkErr WrapsOS
                "failed to read credentials file: no such file or directory")).
Proof.
  apply (proj1 (GetToken_without_credentials
                  (Samples.machine (Samples.mkToken "cached" zeroTime) 8080)
                  (NewAuthenticator "missing.json" "token.json") Samples.noon Live [] 0
                  eq_refl)).
  reflexivity.
Defined.

(** [GetToken_with_token], with what the first step leaves in the
    authenticator. *)
Lemma GetToken_first_step (E : Env) (a : Authenticator) (cfg : Config) (tok : Token) :
  credentials E a = Some cfg -> storedToken E a = Some tok ->
  exists a1 fx1,
    forallb isFileRead fx1 = true
    /\ tokenPath a1 = tokenPath a /\ config a1 = Some cfg
    /\ forall now ctx reqs sched,
      GetToken E a now ctx reqs sched
      = if Valid now tok then (a1, (fx1 ++ [FileRead (tokenPath a)])%list, inr tok)
        else
          match TokenSource_Token E cfg ctx tok with
          | inr newToken =>
              let '(fx3, saveErr) := saveToken E a1 newToken in
              (a1,
               (fx1 ++ [FileRead (tokenPath a)] ++ [RefreshCall ctx tok] ++ fx3
                ++ match saveErr with
                   | Some e =>
                       [Stderr ("Warning: failed to save refreshed token: " +:+ e)]
                   | None => []
                   end)%list,
               inr newToken)
          | inl _ =>
              let '(a2, fx4, r) := authenticate E a1 cfg ctx reqs sched in
              (a2,
               (fx1 ++ [FileRead (tokenPath a)]
                ++ [RefreshCall ctx tok;
                    Stdout "Token refresh failed. Re-authentication required."]
                ++ fx4)%list,
               r)
          end.
Proof.
  intros Hcred Htok. unfold credentials in Hcred. unfold storedToken in Htok.
  destruct (ReadFile E (tokenPath a)) as [e|tdata] eqn:Hread; [discriminate|].
  destruct (Unmarshal E tdata) as [e|t] eqn:Hum; [discriminate|].
  injection Htok as ->.
  destruct (config a) as [c|] eqn:Hc.
  - injection Hcred as ->. exists a, []. repeat split; auto.
    intros now ctx reqs sched. unfold GetToken, loadToken.
    rewrite Hc. simpl. rewrite Hc, Hread, Hum. reflexivity.
  - destruct (ReadFile E (credentialsPath a)) as [e|data] eqn:Hcr; [discriminate|].
    destruct (ConfigFromJSON E data) as [e|c] eqn:Hcj; [discriminate|].
    injection Hcred as ->.
    exists (set_config a cfg), [FileRead (credentialsPath a)]. repeat split; auto.
    intros now ctx reqs sched. unfold GetToken, LoadCredentials, loadToken.
    rewrite Hc, Hcr, Hcj. simpl. rewrite Hread, Hum. reflexivity.
Qed.

Lemma reads_are_quiet (p : Effect -> bool) (fx : list Effect) :
  (forall path, p (FileRead path) = true) ->
  forallb isFileRead fx = true -> forallb p fx = true.
Proof.
  intros Hp. induction fx as [|e fx IH]; [reflexivity|]. simpl.
  rewrite andb_true_iff. intros [He Hfx]. rewrite (IH Hfx).
  destruct e; try discriminate He. now rewrite Hp.
Qed.

(** X19. When the stored token is no longer valid and the token source
    returns a new one, [GetToken] returns the new token without starting
    the interactive flow.  It saves the new token to the token file with
    mode 0600 when the token encodes, and returns it all the same when the
    file cannot be written. *)
Theorem GetToken_refreshes
        (E : Env) (a : Authenticator) (now : Time) (ctx : Context)
        (reqs : list Arrival) (sched : nat) (cfg : Config) (tok newToken : Token) :
  credentials E a = Some cfg -> storedToken E a = Some tok ->
  Valid now tok = false ->
  TokenSource_Token E cfg ctx tok = inr newToken ->
  snd (GetToken E a now ctx reqs sched) = inr newToken
  /\ forallb (fun e => negb (isListen e))
             (snd (fst (GetToken E a now ctx reqs sched))) = true
  /\ List.In (RefreshCall ctx tok) (snd (fst (GetToken E a now ctx reqs sched)))
  /\ (forall data, MarshalIndent E newToken = inr data ->
        List.In (FileWrite (tokenPath a) data 384)
                (snd (fst (GetToken E a now ctx reqs sched)))).
Proof.
  intros Hcred Htok Hv Hrefresh.
  destruct (GetToken_first_step E a cfg tok Hcred Htok)
    as (a1 & fx1 & Hfx & Hpath & _ & Heq).
  rewrite Heq, Hv, Hrefresh.
  pose proof (reads_are_quiet (fun e => negb (isListen e)) fx1 (fun _ => eq_refl) Hfx)
    as Hq.
  pose proof (saveToken_effects E a1 newToken (fun e => negb (isListen e))
                (fun _ _ _ => eq_refl)) as Hs.
  unfold saveToken in *. rewrite Hpath in *.
  destruct (MarshalIndent E newToken) as [e|data] eqn:Hm.
  - cbn [fst snd] in *. repeat split.
    + rewrite !forallb_app, Hq. reflexivity.
    + rewrite !in_app_iff. right. right. left. now left.
    + discriminate.
  - destruct (WriteFile E (tokenPath a) data 384) as [e|];
      cbn [fst snd] in *; repeat split;
      try (rewrite !forallb_app, Hq; reflexivity);
      try (rewrite !in_app_iff; right; right; left; now left);
      intros data' [= <-]; rewrite !in_app_iff; right; right; right; left; now left.
Qed.

Lemma GetToken_refreshes_witness :
  let stale := Samples.mkToken "stale" (Add Samples.noon (- Hour)) in
  let fresh := Samples.mkToken "fresh" (Add Samples.noon Hour) in
  let E :=
    {| ReadFile := ReadFile (Samples.machine stale 8080);
       WriteFile := fun _ _ _ => Some "read-only file system";
       ConfigFromJSON := ConfigFromJSON (Samples.machine stale 8080);
       Unmarshal := Unmarshal (Samples.machine stale 8080);
       MarshalIndent := fun _ => inr "token";
       TokenSource_Token := fun _ _ _ => inr fresh;
       Exchange := fun _ _ _ => inl "not reached";
       net_Listen := inl "not reached";
       openBrowser := fun _ => None |} in
  snd (GetToken E Samples.freshAuth Samples.noon Canceled [] 0) = inr fresh
  /\ List.In (FileWrite "token.json" "token" 384)
             (snd (fst (GetToken E Samples.freshAuth Samples.noon Canceled [] 0))).
Proof.
  intros stale fresh E.
  destruct (GetToken_refreshes E Samples.freshAuth Samples.noon Canceled [] 0
              Samples.sampleConfig stale fresh eq_refl eq_refl eq_refl eq_refl)
    as (H1 & _ & _ & H4).
  split; [exact H1|exact (H4 "token" eq_refl)].
Defined.

End TokenPaths.

Section TokenErrors.
Import GoInt GoStrings GoTime GoError Auth Spec Shapes.

Lemma authenticate_result (E : Env) (a : Authenticator) (cfg : Config) (ctx : Context)
      (reqs : list Arrival) (sched : nat) :
  (forall err, snd (authenticate E a cfg ctx reqs sched) = inl err ->
               kind err <> Wraps ErrTokenRefreshFailed)
  /\ (forall t, snd (authenticate E a cfg ctx reqs sched) = inr t ->
                config (fst (fst (authenticate E a cfg ctx reqs sched))) <> None).
Proof.
  unfold authenticate.
  destruct (net_Listen E) as [e|port]; [split; [intros err [= <-]|]; discriminate|].
  destruct (select sched (serve emptyChans reqs) ctx) as [code|e| |];
    try (split; [intros err [= <-]|]; discriminate).
  destruct (Exchange E _ ctx code) as [e|token];
    [split; [intros err [= <-]|]; discriminate|].
  destruct (saveToken E _ token) as [fx saveErr].
  split; [discriminate|]. intros t _. discriminate.
Qed.

(** X20. A failed refresh is never what the caller sees.  When the token
    source fails, the outcome of [GetToken] is the outcome of the
    interactive flow; no error of [GetToken] wraps
    [ErrTokenRefreshFailed]; and a call that returns a token leaves the
    configuration loaded in the authenticator. *)
Theorem GetToken_hides_refresh_failure
        (E : Env) (a : Authenticator) (now : Time) (ctx : Context)
        (reqs : list Arrival) (sched : nat) :
  (forall cfg tok e,
      credentials E a = Some cfg -> storedToken E a = Some tok ->
      Valid now tok = false -> TokenSource_Token E cfg ctx tok = inl e ->
      exists a1,
        config a1 = Some cfg /\ tokenPath a1 = tokenPath a
        /\ snd (GetToken E a now ctx reqs sched)
           = snd (authenticate E a1 cfg ctx reqs sched))
  /\ (forall err, snd (GetToken E a now ctx reqs sched) = inl err ->
                  kind err <> Wraps ErrTokenRefreshFailed)
  /\ (forall t, snd (GetToken E a now ctx reqs sched) = inr t ->
                config (fst (fst (GetToken E a now ctx reqs sched))) <> None).
Proof.
  split.
  - intros cfg tok e Hcred Htok Hv Hr.
    destruct (GetToken_first_step E a cfg tok Hcred Htok)
      as (a1 & fx1 & _ & Hpath & Hcfg & Heq).
    exists a1. rewrite Heq, Hv, Hr.
    destruct (authenticate E a1 cfg ctx reqs sched) as [[a2 fx4] r]. auto.
  - assert (Hbody : forall a1 fx1 cfg,
               config a1 = Some cfg ->
               let r := (let '(fx2, loaded) := loadToken E a1 in
                         match loaded with
                         | inr token =>
                             if Valid now token then (a1, (fx1 ++ fx2)%list, inr token)
                             else
                               match TokenSource_Token E cfg ctx token with
                               | inr newToken =>
                                   let '(fx3, saveErr) := saveToken E a1 newToken in
                                   (a1,
                                    (fx1 ++ fx2 ++ [RefreshCall ctx token] ++ fx3
                                     ++ match saveErr with
                                        | Some e =>
                                            [Stderr ("Warning: failed to save refreshed token: " +:+ e)]
                                        | None => []
                                        end)%list,
                                    inr newToken)
                               | inl _ =>
                                   let '(a2, fx4, r) :=
                                     authenticate E a1 cfg ctx reqs sched in
                                   (a2,
                                    (fx1 ++ fx2
                                     ++ [RefreshCall ctx token;
                                         Stdout "Token refresh failed. Re-authentication required."]
                                     ++ fx4)%list,
                                    r)
                               end
                         | inl _ =>
                             let '(a2, fx4, r) := authenticate E a1 cfg ctx reqs sched in
                             (a2, (fx1 ++ fx2 ++ fx4)%list, r)
                         end) in
               (forall err, snd r = inl err -> kind err <> Wraps ErrTokenRefreshFailed)
               /\ (forall t, snd r = inr t -> config (fst (fst r)) <> None)).
    { intros a1 fx1 cfg Hcfg.
      pose proof (authenticate_result E a1 cfg ctx reqs sched) as [Ha1 Ha2].
      destruct (loadToken E a1) as [fx2 loaded]. cbv zeta.
      destruct loaded as [e|token].
      - destruct (authenticate E a1 cfg ctx reqs sched) as [[a2 fx4] r]. auto.
      - destruct (Valid now token).
        + split; [discriminate|]. intros t _. simpl. rewrite Hcfg. discriminate.
        + destruct (TokenSource_Token E cfg ctx token) as [e|newToken].
          * destruct (authenticate E a1 cfg ctx reqs sched) as [[a2 fx4] r]. auto.
          * destruct (saveToken E a1 newToken) as [fx3 saveErr].
            split; [discriminate|]. intros t _. simpl. rewrite Hcfg. discriminate. }
    unfold GetToken.
    destruct (config a) as [cfg|] eqn:Hc.
    + rewrite Hc. apply (Hbody a [] cfg Hc).
    + unfold LoadCredentials.
      destruct (ReadFile E (credentialsPath a)) as [e|data];
        [split; [intros err [= <-]|]; discriminate|].
      destruct (ConfigFromJSON E data) as [e|cfg];
        [split; [intros err [= <-]|]; discriminate|].
      cbn [config set_config]. apply (Hbody (set_config a cfg) _ cfg eq_refl).
Qed.

Lemma GetToken_hides_refresh_failure_witness :
  exists a1,
    config a1 = Some Samples.sampleConfig /\ tokenPath a1 = "token.json"
    /\ snd (GetToken (Samples.machine (Samples.mkToken "" zeroTime) 8080)
                     Samples.readyAuth Samples.noon Live [] 0)
       = snd (authenticate (Samples.machine (Samples.mkToken "" zeroTime) 8080)
                           a1 Samples.sampleConfig Live [] 0).
Proof.
  apply (proj1 (GetToken_hides_refresh_failure
                  (Samples.machine (Samples.mkToken "" zeroTime) 8080)
                  Samples.readyAuth Samples.noon Live [] 0)
               Samples.sampleConfig (Samples.mkToken "" zeroTime) "unreachable");
    reflexivity.
Defined.

End TokenErrors.

(** ** The token file *)

Section TokenFile.
Import GoInt GoStrings GoTime GoError Auth TokenStore Spec Shapes.

Lemma saveToken_on_disk (d : Disk) (E : Env) (a : Authenticator) (t : Token)
      (data : string) :
  MarshalIndent E t = inr data ->
  saveToken (onDisk d E) a t
  = ([FileWrite (tokenPath a) data 384],
     if writable d (tokenPath a) then None
     else Some ("failed to write token file: "
                ++ os_error_text "open" (tokenPath a) EACCES))
  /\ files (written (fst (saveToken (onDisk d E) a t)) d)
     = if writable d (tokenPath a)
       then <[tokenPath a := (data, modeAfterWrite d (tokenPath a) 384)]> (files d)
       else files d.
Proof.
  intros Hm. unfold saveToken, onDisk. cbn [MarshalIndent WriteFile]. rewrite Hm.
  unfold writable, modeAfterWrite, os_WriteFile.
  destruct (locked d (tokenPath a)) eqn:Hl; cbn [negb andb snd].
  - split; [reflexivity|]. cbn [fst written]. unfold os_WriteFile. now rewrite Hl.
  - destruct (files d !! tokenPath a) as [[old mode]|] eqn:Hf.
    + destruct (ownerWrite mode) eqn:Hw; cbn [snd]; (split; [reflexivity|]);
        cbn [fst written]; unfold os_WriteFile; now rewrite Hl, Hf, Hw.
    + cbn [snd]. split; [reflexivity|].
      cbn [fst written]. unfold os_WriteFile. now rewrite Hl, Hf.
Qed.



(** After a [ClearToken] that returned no error there is no token file. *)
Lemma ClearToken_removes (d : Disk) (a : Authenticator) :
  snd (ClearToken d a) = None -> HasSavedToken (fst (ClearToken d a)) a = false.
Proof.
  unfold ClearToken, os_Remove, HasSavedToken, os_Stat.
  destruct (files d !! tokenPath a) as [f|] eqn:Hf.
  - destruct (locked d (tokenPath a)); cbn [fst snd negb IsNotExist files];
      [discriminate|]. intros _. now rewrite lookup_delete_eq.
  - cbn [fst snd negb IsNotExist]. now rewrite Hf.
Qed.

(** X22. [ClearToken] is idempotent.  On a disk with no token file it
    returns no error and changes nothing; when it returns no error the
    token file is gone, [HasSavedToken] is false, a second call returns no
    error either and changes nothing more, and every other file is as it
    was.  It fails exactly when the file exists and may not be removed, and
    then the disk is unchanged. *)
Theorem ClearToken_idempotent (d : Disk) (a : Authenticator) :
  (files d !! tokenPath a = None -> ClearToken d a = (d, None))
  /\ (snd (ClearToken d a) = None ->
      HasSavedToken (fst (ClearToken d a)) a = false
      /\ ClearToken (fst (ClearToken d a)) a = (fst (ClearToken d a), None)
      /\ forall p, p <> tokenPath a ->
                   files (fst (ClearToken d a)) !! p = files d !! p)
  /\ (snd (ClearToken d a) <> None
      <-> files d !! tokenPath a <> None /\ locked d (tokenPath a) = true)
  /\ (snd (ClearToken d a) <> None -> fst (ClearToken d a) = d).
Proof.
  unfold ClearToken, os_Remove, HasSavedToken, os_Stat.
  destruct (files d !! tokenPath a) as [f|] eqn:Hf.
  - destruct (locked d (tokenPath a)) eqn:Hl; cbn [fst snd negb IsNotExist files].
    + split; [discriminate|]. split; [discriminate|]. split; [|reflexivity].
      split; [intros _; split; [discriminate|reflexivity]|discriminate].
    + split; [discriminate|]. split.
      * intros _. rewrite lookup_delete_eq. split; [reflexivity|].
        split; [reflexivity|]. intros p Hp. apply lookup_delete_ne. congruence.
      * split; [|intros H; now destruct H].
        split; [intros H; now destruct H|intros [_ H]; discriminate H].
  - cbn [fst snd negb IsNotExist]. rewrite Hf.
    split; [reflexivity|]. split.
    + intros _. split; [reflexivity|]. split; [reflexivity|reflexivity].
    + split; [|intros H; now destruct H].
      split; [intros H; now destruct H|intros [H _]; now destruct H].
Qed.

Lemma ClearToken_idempotent_witness :
  let d := {| files := {["token.json" := ("token", 384)]};
              locked := fun _ => false; umask := 18 |} in
  HasSavedToken (fst (ClearToken d Samples.readyAuth)) Samples.readyAuth = false
  /\ ClearToken (fst (ClearToken d Samples.readyAuth)) Samples.readyAuth
     = (fst (ClearToken d Samples.readyAuth), None).
Proof.
  intros d.
  destruct (proj1 (proj2 (ClearToken_idempotent d Samples.readyAuth)))
    as (H1 & H2 & _).
  - vm_compute. reflexivity.
  - split; [exact H1|exact H2].
Defined.

End TokenFile.

(** ** The token file and [GetToken] together *)

Section SavedTokenReuse.
Import GoInt GoStrings GoTime GoError Auth TokenStore Spec Shapes.

(** X23. A saved token is reused.  With the configuration loaded, after
    [saveToken] has written a token that round-trips through the codec to
    a path that may be written, the next [GetToken] on that disk depends on
    the mode of the token file.  If its owner may read it, [GetToken]
    returns this token as long as it is valid, reading the token file and
    doing nothing else, whatever the context.  If not (a umask that takes
    the read bit away, or an existing file without it), the token is not
    found again and [GetToken] comes to the interactive flow. *)
Theorem saved_token_is_reused
        (d : Disk) (E : Env) (a : Authenticator) (cfg : Config) (t : Token)
        (data : string) (now : Time) (ctx : Context) (reqs : list Arrival)
        (sched : nat) :
  config a = Some cfg ->
  MarshalIndent E t = inr data -> Unmarshal E data = inr t ->
  writable d (tokenPath a) = true ->
  let d' := written (fst (saveToken (onDisk d E) a t)) d in
  (ownerRead (modeAfterWrite d (tokenPath a) 384) = true -> Valid now t = true ->
   GetToken (onDisk d' E) a now ctx reqs sched
   = (a, [FileRead (tokenPath a)], inr t))
  /\ (ownerRead (modeAfterWrite d (tokenPath a) 384) = false ->
      snd (GetToken (onDisk d' E) a now ctx reqs sched)
      = snd (authenticate (onDisk d' E) a cfg ctx reqs sched)).
Proof.
  intros Hc Hm Hu Hw d'.
  destruct (saveToken_on_disk d E a t data Hm) as [_ Hfiles].
  fold d' in Hfiles. rewrite Hw in Hfiles.
  assert (Hload : loadToken (onDisk d' E) a
                  = ([FileRead (tokenPath a)],
                     if ownerRead (modeAfterWrite d (tokenPath a) 384) then inr t
                     else inl (os_error_text "open" (tokenPath a) EACCES))).
  { unfold loadToken, onDisk. cbn [ReadFile Unmarshal]. unfold os_ReadFile.
    rewrite Hfiles, lookup_insert_eq.
    destruct (ownerRead _); [now rewrite Hu|reflexivity]. }
  split; intros Hr; rewrite Hr in Hload.
  - intros Hv. unfold GetToken. rewrite Hc. cbn [config].
    rewrite Hc, Hload, Hv. reflexivity.
  - unfold GetToken. rewrite Hc. cbn [config]. rewrite Hc, Hload.
    now destruct (authenticate (onDisk d' E) a cfg ctx reqs sched) as [[a2 fx4] r].
Qed.

Lemma saved_token_is_reused_witness :
  let t := Samples.mkToken "fresh" (Add Samples.noon Hour) in
  let E := Samples.machine t 8080 in
  let d := {| files := ∅; locked := fun _ => false; umask := 18 |} in
  let masked := {| files := ∅; locked := fun _ => false; umask := 511 |} in
  GetToken (onDisk (written (fst (saveToken (onDisk d E) Samples.readyAuth t)) d) E)
           Samples.readyAuth Samples.noon Canceled [] 0
  = (Samples.readyAuth, [FileRead "token.json"], inr t)
  /\ snd (GetToken
            (onDisk (written (fst (saveToken (onDisk masked E) Samples.readyAuth t))
                             masked) E)
            Samples.readyAuth Samples.noon Canceled [] 0)
     = inl (mkErr (CtxErr Canceled) "context canceled").
Proof.
  intros t E d masked. split.
  - apply (proj1 (saved_token_is_reused d E Samples.readyAuth Samples.sampleConfig t
                    "token" Samples.noon Canceled [] 0
                    eq_refl eq_refl eq_refl eq_refl));
      reflexivity.
  - rewrite (proj2 (saved_token_is_reused masked E Samples.readyAuth
                      Samples.sampleConfig t "token" Samples.noon Canceled [] 0
                      eq_refl eq_refl eq_refl eq_refl) eq_refl).
    reflexivity.
Defined.

(** X24. Clearing the token forces a new authorization.  With the
    configuration loaded, after a [ClearToken] that returned no error,
    [GetToken] finds no token, calls no refresh, and its outcome is the
    outcome of the interactive flow. *)
Theorem cleared_token_forces_authorization
        (d : Disk) (E : Env) (a : Authenticator) (cfg : Config)
        (now : Time) (ctx : Context) (reqs : list Arrival) (sched : nat) :
  config a = Some cfg -> snd (ClearToken d a) = None ->
  let E' := onDisk (fst (ClearToken d a)) E in
  snd (GetToken E' a now ctx reqs sched) = snd (authenticate E' a cfg ctx reqs sched)
  /\ snd (fst (GetToken E' a now ctx reqs sched))
     = FileRead (tokenPath a) :: snd (fst (authenticate E' a cfg ctx reqs sched))
  /\ forallb (fun e => negb (isRefreshCall e))
             (snd (fst (authenticate E' a cfg ctx reqs sched))) = true.
Proof.
  intros Hc Hclear E'.
  pose proof (ClearToken_removes d a Hclear) as Hgone.
  assert (Hload : loadToken E' a
                  = ([FileRead (tokenPath a)],
                     inl (os_error_text "open" (tokenPath a) ENOENT))).
  { unfold loadToken, E', onDisk. cbn [ReadFile]. unfold os_ReadFile.
    unfold HasSavedToken, os_Stat in Hgone.
    destruct (files (fst (ClearToken d a)) !! tokenPath a); [discriminate|reflexivity]. }
  assert (Hquiet : forallb (fun e => negb (isRefreshCall e))
                           (snd (fst (authenticate E' a cfg ctx reqs sched))) = true).
  { unfold authenticate.
    destruct (net_Listen E') as [e|port]; [reflexivity|].
    destruct (select sched (serve emptyChans reqs) ctx) as [code|e| |];
      try (cbn [fst snd]; rewrite !forallb_app;
           destruct (openBrowser E' _); reflexivity).
    destruct (Exchange E' _ ctx code) as [e|token].
    - cbn [fst snd]. rewrite !forallb_app. destruct (openBrowser E' _); reflexivity.
    - pose proof (saveToken_effects E' (set_config a (set_RedirectURL cfg
                     ("http://localhost:" ++ itoa port))) token
                    (fun e => negb (isRefreshCall e)) (fun _ _ _ => eq_refl)) as Hs.
      destruct (saveToken E' _ token) as [fx saveErr].
      cbn [fst snd] in *. rewrite !forallb_app, Hs.
      destruct (openBrowser E' _), saveErr; reflexivity. }
  unfold GetToken. rewrite Hc. cbn [config]. rewrite Hc, Hload.
  destruct (authenticate E' a cfg ctx reqs sched) as [[a2 fx4] r].
  cbn [fst snd] in *. auto.
Qed.

Lemma cleared_token_forces_authorization_witness :
  let d := {| files := {["token.json" := ("token", 384)]};
              locked := fun _ => false; umask := 18 |} in
  let E := onDisk (fst (ClearToken d Samples.readyAuth))
                  (Samples.machine (Samples.mkToken "cached" zeroTime) 8080) in
  snd (GetToken E Samples.readyAuth Samples.noon Live [] 0)
  = snd (authenticate E Samples.readyAuth Samples.sampleConfig Live [] 0).
Proof.
  intros d E.
  apply (proj1 (cleared_token_forces_authorization d
                  (Samples.machine (Samples.mkToken "cached" zeroTime) 8080)
                  Samples.readyAuth Samples.sampleConfig Samples.noon Live [] 0
                  eq_refl ltac:(vm_compute; reflexivity))).
Defined.

End SavedTokenReuse.
